(** * LankaShop CMS: the client-side view-model layer

    The dashboard reads whole collections from the document store and turns
    them into table rows in the browser.  This development embeds the three
    table components

    - [CustomersTable]  (src/components/customers/customers-table.tsx),
    - [CategoriesTable] (src/components/categories/category-form.tsx, second part),
    - [ProductsTable]   (src/components/dashboard-nav.tsx, second part),

    and proves the properties their specification states about them.  It
    then embeds the pages around the tables

    - [DashboardNav]    (src/components/dashboard-nav.tsx, first part),
    - [CustomerDetails] (src/components/customers/customer-details.tsx),
    - [CategoryForm]    (src/components/categories/category-form.tsx, first part),
    - [ProductForm]     (src/components/products/product-form.tsx, and its
                         variant with images in S3, src/unnamed/part_001),
    - the items of [OrderDetails] (src/unnamed/part_000),

    and proves what the code shows about them and about the tables: how the
    forms, the store and the tables fit together.

    Conventions.  Documents are typed as the components' own interfaces
    declare them; a field is optional when the interface says so, when the
    code guards against its absence, or when a property speaks about its
    absence.  A computation that can throw returns an [option], [None] being
    the exception.  The answers of the store to the reads and writes of a
    handler are arguments of the handler.  React state is a record; a handler
    maps it to the next one, and returns the calls and notices it issued.

    Strings are sequences of code units; [string] holds 8-bit ones, so the
    runtime primitives below are the ECMAScript ones on text in the Latin-1
    range.  Numbers are binary64 floats. *)

From stdpp Require Import gmap strings pretty list.
From Stdlib Require Import ZArith Ascii.
From Stdlib Require Import PrimFloat FloatOps SpecFloat.
From Stdlib Require Uint63 FloatAxioms.

Local Open Scope Z_scope.

(** ** The runtime primitives the components call *)

Module JS.

(** *** Truthiness and property lookup *)

(** [if (s)] on a string: every string but the empty one is truthy. *)
Definition truthy (s : string) : bool := bool_decide (s ≠ "").

(** An object literal [{}] inherits the members of [Object.prototype]: a read
    [obj[k]] of a key that is not an own property of [obj] finds them, so that
    [({})["constructor"]] is the function [Object] and not undefined.  (A [Map]
    has no such keys.) *)
Definition Object_prototype_names : list string :=
  [ "constructor"; "hasOwnProperty"; "isPrototypeOf"; "propertyIsEnumerable";
    "toLocaleString"; "toString"; "valueOf"; "__proto__";
    "__defineGetter__"; "__defineSetter__"; "__lookupGetter__"; "__lookupSetter__" ].

Definition inherited (k : string) : bool :=
  bool_decide (k ∈ Object_prototype_names).

(** *** Numbers: IEEE 754 binary64 *)

(** [x || d] on numbers: NaN, +0 and -0 are falsy. *)
Definition number_or (x d : float) : float :=
  if is_nan x || is_zero x then d else x.

(** The binary64 value nearest to the rational [p / q] (both positive), ties
    to even: the rounding that turns a decimal literal into a Number. *)
Definition nearest (p q : Z) : float :=
  let lg := Z.log2 p - Z.log2 q in
  let cut e := if 0 <=? e then (p, q * 2 ^ e) else (p * 2 ^ (- e), q) in
  let e0 := lg - 52 in
  let m0 := let '(a, b) := cut e0 in a / b in
  let e1 := if m0 <? 2 ^ 52 then e0 - 1 else e0 in
  let e := Z.max e1 (-1074) in
  let '(a, b) := cut e in
  let m := a / b in
  let r := a mod b in
  let m' := match 2 * r ?= b with
            | Lt => m
            | Gt => m + 1
            | Eq => if Z.even m then m else m + 1
            end in
  if (971 <? e) || ((e =? 971) && (m' =? 2 ^ 53)) then infinity
  else Z.ldexp (of_uint63 (Uint63.of_Z m')) e.

Definition digit_of (c : ascii) : option Z :=
  let n := Z.of_N (N_of_ascii c) in
  if (48 <=? n) && (n <=? 57) then Some (n - 48) else None.

(** The longest run of decimal digits at the head of [s], and what follows. *)
Fixpoint span_digits (s : string) : list Z * string :=
  match s with
  | String c r =>
      match digit_of c with
      | Some d => let '(ds, rest) := span_digits r in (d :: ds, rest)
      | None => ([], s)
      end
  | EmptyString => ([], s)
  end.

Definition digits_value (ds : list Z) : Z :=
  fold_left (fun v d => 10 * v + d) ds 0.

(** StrWhiteSpaceChar below U+0100: TAB, LF, VT, FF, CR, SP, NBSP. *)
Definition is_space (c : ascii) : bool :=
  let n := N_of_ascii c in
  ((9 <=? n) && (n <=? 13) || (n =? 32) || (n =? 160))%N.

Fixpoint trim_start (s : string) : string :=
  match s with
  | String c r => if is_space c then trim_start r else s
  | EmptyString => s
  end.

(** The longest prefix that is a StrUnsignedDecimalLiteral. *)
Inductive literal :=
  | LInfinity
  | LDecimal (int_part frac_part : list Z) (exponent : Z).

Definition scan_exponent (s : string) : Z :=
  match s with
  | String c r =>
      if bool_decide (c = "e"%char ∨ c = "E"%char) then
        let '(neg, r') := match r with
                          | String "-" t => (true, t)
                          | String "+" t => (false, t)
                          | _ => (false, r)
                          end in
        match span_digits r' with
        | ([], _) => 0
        | (ds, _) => if neg then - digits_value ds else digits_value ds
        end
      else 0
  | EmptyString => 0
  end.

Definition scan_unsigned (s : string) : option literal :=
  if String.prefix "Infinity" s then Some LInfinity
  else
    let '(ip, r1) := span_digits s in
    let '(fp, r2) := match r1 with
                     | String "." r => span_digits r
                     | _ => ([], r1)
                     end in
    match ip, fp with
    | [], [] => None
    | _, _ => Some (LDecimal ip fp (scan_exponent r2))
    end.

Definition literal_value (neg : bool) (l : literal) : float :=
  match l with
  | LInfinity => if neg then neg_infinity else infinity
  | LDecimal ip fp e =>
      let d := digits_value (ip ++ fp) in
      let e10 := e - Z.of_nat (length fp) in
      if d =? 0 then (if neg then neg_zero else zero)
      else
        let x := if 0 <=? e10 then nearest (d * 10 ^ e10) 1
                 else nearest d (10 ^ (- e10)) in
        if neg then (- x)%float else x
  end.

(** [Number.parseFloat(v)]: the argument goes through ToString first, which
    turns [undefined] into the text "undefined". *)
Definition parseFloat (v : option string) : float :=
  let s := trim_start (default "undefined" v) in
  let '(neg, body) := match s with
                      | String "-" t => (true, t)
                      | String "+" t => (false, t)
                      | _ => (false, s)
                      end in
  match scan_unsigned body with
  | Some l => literal_value neg l
  | None => nan
  end.

(** *** Number.prototype.toFixed(2) *)

(** Number::toString for a value of at least 10^21, given as the integer [X]
    it denotes: the shortest digit string [s] (of [k] digits) with
    [s * 10^(n-k)] rounding back to the same Number, in exponent notation. *)
Fixpoint shortest_digits (fuel : nat) (k nd X : Z) : Z * Z :=
  match fuel with
  | O => (X, nd)
  | S fuel' =>
      let scale := 10 ^ (nd - k) in
      let lo := X / scale in
      let hi := lo + 1 in
      let back c := PrimFloat.eqb (nearest (c * scale) 1) (nearest X 1) in
      let up := if hi =? 10 ^ k then (10 ^ (k - 1), nd + 1) else (hi, nd) in
      match back lo, back hi with
      | true, true =>
          match X - lo * scale ?= hi * scale - X with
          | Lt => (lo, nd)
          | Gt => up
          | Eq => if Z.even lo then (lo, nd) else up
          end
      | true, false => (lo, nd)
      | false, true => up
      | false, false => shortest_digits fuel' (k + 1) nd X
      end
  end.

Definition exponent_notation (X : Z) : string :=
  let nd := Z.of_nat (String.length (pretty X)) in
  let '(s, n) := shortest_digits 17 1 nd X in
  match pretty s with
  | String d rest =>
      String d (if bool_decide (rest = "") then "" else "." +:+ rest)
        +:+ "e+" +:+ pretty (n - 1)
  | EmptyString => "e+" +:+ pretty (n - 1)
  end.

Definition decimal_digit (d : Z) : ascii :=
  ascii_of_N (Z.to_N (48 + d mod 10)).

(** [n] hundredths written with a decimal point and two fraction digits. *)
Definition fixed2 (n : Z) : string :=
  pretty (n / 100) +:+
  String "." (String (decimal_digit (n / 10)) (String (decimal_digit n) "")).

(** The finite non-zero Number with mantissa [m] and exponent [e] has
    magnitude [p / q]. *)
Definition ratio (m : positive) (e : Z) : Z * Z :=
  if 0 <=? e then (Z.pos m * 2 ^ e, 1) else (Z.pos m, 2 ^ (- e)).

Definition toFixed2 (x : float) : string :=
  match Prim2SF x with
  | S754_nan => "NaN"
  | S754_infinity s => if s then "-Infinity" else "Infinity"
  | S754_zero _ => "0.00"
  | S754_finite s m e =>
      let sign := if s then "-" else "" in
      let '(p, q) := ratio m e in
      if 10 ^ 21 * q <=? p then sign +:+ exponent_notation (p / q)
      else sign +:+ fixed2 ((200 * p + q) / (2 * q))
  end.

(** A Number that [toFixed] prints in fixed notation: finite and below
    10^21 in magnitude. *)
Definition plain (x : float) : Prop :=
  match Prim2SF x with
  | S754_nan | S754_infinity _ => False
  | S754_zero _ => True
  | S754_finite _ m e => let '(p, q) := ratio m e in p < 10 ^ 21 * q
  end.

Fixpoint all_digits (s : string) : bool :=
  match s with
  | String c r => bool_decide (is_Some (digit_of c)) && all_digits r
  | EmptyString => true
  end.

(** Text of the form [-]d...d.dd: an optional minus sign, at least one
    digit, a point, and exactly two digits. *)
Definition two_decimals (s : string) : Prop :=
  ∃ sign whole d1 d2,
    s = sign +:+ whole +:+ String "." (String d1 (String d2 "")) ∧
    (sign = "" ∨ sign = "-") ∧
    whole ≠ "" ∧ all_digits whole = true ∧
    is_Some (digit_of d1) ∧ is_Some (digit_of d2).

(** *** Strings *)

(** [s.toLowerCase()] on text in the Latin-1 range, where it maps code unit
    by code unit: A-Z and the accented capitals, the multiplication sign
    apart, move up by 32.  Outside that range the runtime's lower-casing
    depends on the neighbours of a letter (a capital sigma at the end of a
    word) and may change the length; the narrowing and substring properties
    of the search below use no law of this function but that it is one function applied to both the
    field and the query, that lowering twice is lowering once, and that only
    the empty text lowers to the empty text. *)
Definition lower (c : ascii) : ascii :=
  let n := N_of_ascii c in
  if ((65 <=? n) && (n <=? 90) || (192 <=? n) && (n <=? 214)
      || (216 <=? n) && (n <=? 222))%N
  then ascii_of_N (n + 32) else c.

Fixpoint toLowerCase (s : string) : string :=
  match s with
  | String c r => String (lower c) (toLowerCase r)
  | EmptyString => EmptyString
  end.

(** [s.includes(q)] *)
Fixpoint includes (s q : string) : bool :=
  String.prefix q s ||
  match s with
  | String _ r => includes r q
  | EmptyString => false
  end.

End JS.

(** ** The document store *)

Module Store.

(** What the dashboard reads of an order document.  [userId] is tested
    before use and [totalAmount] goes through [parseFloat]: both may be
    missing from a document. *)
Record Order := {
  o_userId : option string;
  o_totalAmount : option string;
}.

Record Customer := {
  c_id : string;
  c_userId : string;
  c_createdAt : string;
  c_billingAddressId : option string;
  c_shippingAddressId : option string;
}.

Record Category := {
  g_id : string;
  g_name : string;
}.

(** A product document.  The forms store no [id] and no [categoryName] in
    it; [categoryId] is the empty text when no category was chosen, and may
    be missing, as may [name] and [description], which the search reads
    without a guard.  [subcategoryId] and [tagIds] are written by the forms
    and read by no table. *)
Record Product := {
  p_id : string;
  p_name : option string;
  p_description : option string;
  p_image : string;
  p_price : string;
  p_stock : string;
  p_rating : string;
  p_date : string;
  p_categoryId : option string;
  p_subcategoryId : option string;
  p_tagIds : option (list string);
}.

Record db := {
  orders : list Order;
  customers : list Customer;
  categories : list Category;
  products : list Product;
}.

(** [deleteDoc(doc(db, "categories", id))] and the same on "products", once
    the store has carried them out. *)
Definition deleteCategory (k : string) (d : db) : db :=
  {| orders := orders d; customers := customers d;
     categories := filter (fun g => g_id g ≠ k) (categories d);
     products := products d |}.

Definition deleteProduct (k : string) (d : db) : db :=
  {| orders := orders d; customers := customers d;
     categories := categories d;
     products := filter (fun p => p_id p ≠ k) (products d) |}.

End Store.

(** What a handler does to the outside: calls to the store and notices. *)
Inductive effect :=
  | DeleteDoc (collection key : string)
  | Toast (title description : string) (destructive : bool).

(** ** CustomersTable: the customer spend aggregator and its table *)

Module Customers.

Import Store.

(** [interface Customer]: a row of the table. *)
Record Customer := {
  id : string;
  userId : string;
  createdAt : string;
  billingAddressId : option string;
  shippingAddressId : option string;
  totalAmount : string;
  orderCount : nat;
}.

(** The accumulator [{ total: number; count: number }].  [count] only ever
    grows by one from zero, so it is a natural number. *)
Record acc := { total : float; count : nat }.

(** The heap the grouping pass works on: the own properties of the object
    literal [customerOrders], and the names of the members of
    [Object.prototype] on which [total] and [count] have been written (see
    [add_to]); those members are shared by the whole page and outlive the
    pass. *)
Record heap := {
  customerOrders : gmap string acc;
  written : gset string;
}.

(** The two properties of an accumulator.  A write on the member
    [__proto__], which is [Object.prototype] itself, creates them on
    [Object.prototype], with the value NaN; from then on every object of
    the page that has no own property of that name inherits them. *)
Definition acc_names : list string := ["total"; "count"].

(** [customerOrders[k]] *)
Inductive slot :=
  | Own (a : acc)  (* an accumulator the pass created *)
  | Member         (* a member inherited from Object.prototype *)
  | NotANumber     (* the NaN left on Object.prototype under [total], [count] *)
  | Missing.       (* undefined *)

Definition read (h : heap) (k : string) : slot :=
  match customerOrders h !! k with
  | Some a => Own a
  | None =>
      if JS.inherited k then Member
      else if bool_decide (k ∈ acc_names) && bool_decide ("__proto__" ∈ written h)
      then NotANumber
      else Missing
  end.

(** [Number.parseFloat(order.totalAmount) || 0] *)
Definition amount (o : Order) : float :=
  JS.number_or (JS.parseFloat (o_totalAmount o)) 0.

Definition acc0 : acc := {| total := 0; count := 0 |}.

(** [if (!customerOrders[k]) customerOrders[k] = { total: 0, count: 0 }].
    Undefined and NaN are falsy; the assignment creates an own property,
    also over an inherited NaN. *)
Definition ensure (h : heap) (k : string) : heap :=
  match read h k with
  | Missing | NotANumber =>
      {| customerOrders := <[k := acc0]> (customerOrders h);
         written := written h |}
  | Own _ | Member => h
  end.

Definition bump (a : acc) (o : Order) : acc :=
  {| total := total a + amount o; count := S (count a) |}.

(** [customerOrders[k].total += ...; customerOrders[k].count += 1].  When
    [customerOrders[k]] is an inherited member (a function such as [Object], or
    [Object.prototype] itself for [__proto__]), the two writes go to that
    member: it had no number there, and [undefined + x] is NaN, so both
    properties become NaN and stay so.  Reading [.total] of [undefined] would
    throw, and so would the write of a property on the number NaN in a
    module, which is strict code; [ensure] has run before, so neither
    happens. *)
Definition add_to (h : heap) (k : string) (o : Order) : option heap :=
  match read h k with
  | Own a => Some {| customerOrders := <[k := bump a o]> (customerOrders h);
                     written := written h |}
  | Member => Some {| customerOrders := customerOrders h;
                      written := {[k]} ∪ written h |}
  | NotANumber | Missing => None
  end.

(** The body of [ordersSnapshot.forEach]. *)
Definition visit (h : heap) (o : Order) : option heap :=
  match o_userId o with
  | Some k => if JS.truthy k then add_to (ensure h k) k o else Some h
  | None => Some h
  end.

Fixpoint groupOrders (h : heap) (orders : list Order) : option heap :=
  match orders with
  | [] => Some h
  | o :: rest => h' ← visit h o; groupOrders h' rest
  end.

(** [s || d] on strings and [n || d] on counts. *)
Definition string_or (s d : string) : string := if JS.truthy s then s else d.
Definition count_or (n d : nat) : nat := match n with O => d | _ => n end.

(** Whether an inherited member [k] shows a [total]: written on it directly,
    or on [Object.prototype] itself, from which every member inherits. *)
Definition shows_total (h : heap) (k : string) : bool :=
  bool_decide (k ∈ written h ∨ "__proto__" ∈ written h).

(** The callback of [customersSnapshot.docs.map].  [x?.total.toFixed(2)] skips
    the call only when [x] is undefined; on an inherited member without
    [total] it calls [toFixed] on undefined and throws.  On the inherited
    NaN, [x.total] and [x.count] are read through [Number.prototype] from
    [Object.prototype], where both are NaN. *)
Definition toRow (h : heap) (d : Store.Customer) : option Customer :=
  let row t n := {| id := c_id d; userId := c_userId d;
                    createdAt := c_createdAt d;
                    billingAddressId := c_billingAddressId d;
                    shippingAddressId := c_shippingAddressId d;
                    totalAmount := t; orderCount := n |} in
  match read h (c_userId d) with
  | Own a => Some (row (string_or (JS.toFixed2 (total a)) "0.00") (count_or (count a) 0))
  | Missing => Some (row "0.00" 0%nat)
  | NotANumber => Some (row (string_or (JS.toFixed2 nan) "0.00") 0%nat)
  | Member =>
      if shows_total h (c_userId d)
      then Some (row (string_or (JS.toFixed2 nan) "0.00") 0%nat)
      else None
  end.

(** The aggregation inside [fetchCustomers]: [None] is the exception that
    the surrounding [try] catches.  [page] holds the members of
    [Object.prototype] written by earlier runs on the same page. *)
Definition aggregate (page : gset string) (orders : list Order)
    (docs : list Store.Customer) : option (list Customer) :=
  h ← groupOrders {| customerOrders := ∅; written := page |} orders;
  mapM (toRow h) docs.

(** The component's state. *)
Record state := {
  customers : list Customer;
  filteredCustomers : list Customer;
  loading : bool;
  searchQuery : string;
}.

(** The component before its first fetch. *)
Definition initial : state :=
  {| customers := []; filteredCustomers := []; loading := true; searchQuery := "" |}.

(** [setCustomers(rows); setFilteredCustomers(rows)] and the [finally]. *)
Definition loaded (rows : list Customer) (st : state) : state :=
  {| customers := rows; filteredCustomers := rows; loading := false;
     searchQuery := searchQuery st |}.

(** The [finally] alone. *)
Definition failed (st : state) : state :=
  {| customers := customers st; filteredCustomers := filteredCustomers st;
     loading := false; searchQuery := searchQuery st |}.

(** [fetchCustomers].  The two reads may be rejected by the store; a
    rejection and an exception of the aggregation both end in the [catch],
    which leaves the lists alone and raises the notice. *)
Definition fetchCustomers (page : gset string)
    (customersSnapshot : option (list Store.Customer))
    (ordersSnapshot : option (list Order)) (st : state) : state * list effect :=
  match docs ← customersSnapshot; os ← ordersSnapshot; aggregate page os docs with
  | Some customersData => (loaded customersData st, [])
  | None => (failed st, [Toast "Error" "Failed to load customers" true])
  end.

(** The search effect: what it stores in [filteredCustomers]. *)
Definition search (q : string) (rows : list Customer) : list Customer :=
  if JS.truthy q
  then List.filter (fun c => JS.includes (JS.toLowerCase (userId c)) (JS.toLowerCase q)) rows
  else rows.

Definition setSearchQuery (q : string) (st : state) : state :=
  {| customers := customers st; filteredCustomers := filteredCustomers st;
     loading := loading st; searchQuery := q |}.

Definition searchEffect (st : state) : state :=
  {| customers := customers st;
     filteredCustomers := search (searchQuery st) (customers st);
     loading := loading st; searchQuery := searchQuery st |}.

(** *** What the specification says about the aggregator *)

(** The orders the pass books on the user id [u]: those whose [userId] is
    present, not empty, and equal to [u]. *)
Definition orders_of (u : string) (os : list Order) : list Order :=
  filter (fun o => o_userId o = Some u ∧ u ≠ "") os.

(** The running sum the pass keeps: binary64 additions in store order,
    starting from 0. *)
Definition spend (os : list Order) : float :=
  fold_left (fun t o => (t + amount o)%float) os 0%float.

(** The accumulator after the orders [os] were booked on it. *)
Fixpoint tally (a : option acc) (os : list Order) : option acc :=
  match os with
  | [] => a
  | o :: rest => tally (Some (bump (default acc0 a) o)) rest
  end.

(** A [totalAmount] that is missing or does not parse as a number. *)
Definition unparseable (v : option string) : Prop :=
  is_nan (JS.parseFloat v) = true.

(** A row as the contract words it: the orders counted are all those whose
    [userId] equals the customer's, and the total always has two decimals. *)
Definition stated_row (os : list Order) (d : Store.Customer) (r : Customer) : Prop :=
  let mine := filter (fun o => o_userId o = Some (c_userId d)) os in
  id r = c_id d ∧ userId r = c_userId d ∧
  orderCount r = length mine ∧
  totalAmount r = JS.toFixed2 (spend mine) ∧
  JS.two_decimals (totalAmount r) ∧
  (mine = [] → totalAmount r = "0.00" ∧ orderCount r = 0%nat).

Definition stated_contract (page : gset string) (os : list Order)
    (docs : list Store.Customer) : Prop :=
  ∃ rows, aggregate page os docs = Some rows ∧ Forall2 (stated_row os) docs rows.

(** Whether [Object.prototype] itself has been written on: by an order of
    this run whose [userId] is "__proto__", or by an earlier run on the
    page. *)
Definition prototype_written (page : gset string) (os : list Order) : bool :=
  bool_decide ("__proto__" ∈ page ∨ Some "__proto__" ∈ o_userId <$> os).

(** The user ids under which a customer without orders then reads the NaN
    left on [Object.prototype]. *)
Definition shadowed (page : gset string) (os : list Order) (k : string) : bool :=
  bool_decide (k ∈ acc_names) && prototype_written page os.

(** A customer document whose [userId] names no member of
    [Object.prototype] and reads nothing that was left on it. *)
Definition ordinary (page : gset string) (os : list Order) (d : Store.Customer) : Prop :=
  JS.inherited (c_userId d) = false ∧ shadowed page os (c_userId d) = false.

(** The order [o] with the amount "0" in place of its own. *)
Definition zeroed (o : Order) : Order :=
  {| o_userId := o_userId o; o_totalAmount := Some "0" |}.

(** A row as the pass builds it for an ordinary customer. *)
Definition built_row (os : list Order) (d : Store.Customer) (r : Customer) : Prop :=
  let mine := orders_of (c_userId d) os in
  id r = c_id d ∧ userId r = c_userId d ∧ createdAt r = c_createdAt d ∧
  billingAddressId r = c_billingAddressId d ∧
  shippingAddressId r = c_shippingAddressId d ∧
  orderCount r = length mine ∧
  totalAmount r = JS.toFixed2 (spend mine) ∧
  (JS.plain (spend mine) → JS.two_decimals (totalAmount r)) ∧
  (mine = [] → totalAmount r = "0.00" ∧ orderCount r = 0%nat).

(** The heap that the grouping pass leaves when it starts from the empty
    object on the page [page]. *)
Definition heap_of (page : gset string) (os : list Order) (h : heap) : Prop :=
  (∀ k, JS.inherited k = true → customerOrders h !! k = None) ∧
  (∀ k, JS.inherited k = false →
        customerOrders h !! k = tally None (orders_of k os)) ∧
  (∀ k, k ∈ written h ↔
        k ∈ page ∨ (JS.inherited k = true ∧ Some k ∈ o_userId <$> os)).

(** A row as the pass builds it for any customer, when it builds one: a
    customer named like a member of [Object.prototype] shows what was
    written on that member, and one without orders may show what was left on
    [Object.prototype]. *)
Definition any_row (page : gset string) (os : list Order)
    (d : Store.Customer) (r : Customer) : Prop :=
  let mine := orders_of (c_userId d) os in
  id r = c_id d ∧ userId r = c_userId d ∧ createdAt r = c_createdAt d ∧
  billingAddressId r = c_billingAddressId d ∧
  shippingAddressId r = c_shippingAddressId d ∧
  orderCount r = (if JS.inherited (c_userId d) then 0%nat else length mine) ∧
  totalAmount r =
    (if JS.inherited (c_userId d) then "NaN"
     else match mine with
          | [] => if shadowed page os (c_userId d) then "NaN" else "0.00"
          | _ => JS.toFixed2 (spend mine)
          end).

(** The invariant of section 3: every order's [userId] is the [userId] of
    exactly one customer document. *)
Definition one_customer_each (os : list Order) (docs : list Store.Customer) : Prop :=
  ∀ o, o ∈ os → length (filter (fun d => o_userId o = Some (c_userId d)) docs) = 1%nat.

(** The rows whose [userId] contains [q], letter case aside. *)
Definition containing (q : string) (rows : list Customer) : list Customer :=
  List.filter (fun c => JS.includes (JS.toLowerCase (userId c)) (JS.toLowerCase q)) rows.

(** The table shows the rows that contain its query. *)
Definition consistent (st : state) : Prop :=
  filteredCustomers st = containing (searchQuery st) (customers st).

(** The states the table settles in.  The search effect depends on the rows
    and on the query: it runs after every handler that replaced one of them,
    before the next event is handled. *)
Inductive reachable : state → Prop :=
  | reach_initial : reachable initial
  | reach_loaded rows st : reachable st → reachable (searchEffect (loaded rows st))
  | reach_failed st : reachable st → reachable (failed st)
  | reach_query q st : reachable st → reachable (searchEffect (setSearchQuery q st))
  | reach_effect st : reachable st → reachable (searchEffect st).

(** The count as section 8 words it: the rows' counts add up to the number
    of orders whose [userId] is one of the customers' user ids. *)
Definition stated_count (page : gset string) (os : list Order)
    (docs : list Store.Customer) : Prop :=
  ∃ rows, aggregate page os docs = Some rows ∧
    sum_list (orderCount <$> rows) =
    length (filter (fun o => o_userId o ∈ (Some ∘ c_userId) <$> docs) os).

End Customers.


(** ** CategoriesTable: product counts per category, and the guarded delete *)

Module Categories.

Import Store.

(** What [productCounts[k]] and a row's [productCount] can be at run time:
    a count, or something that is not a number, namely a member inherited
    from [Object.prototype] or the text that [+ 1] makes of one. *)
Inductive value :=
  | Number (n : nat)
  | Other.

(** [interface Category]: a row of the table. *)
Record Category := {
  id : string;
  name : string;
  productCount : value;
}.

(** [productCounts[k]] on the object literal [productCounts]. *)
Definition read (productCounts : gmap string value) (k : string) : option value :=
  match productCounts !! k with
  | Some v => Some v
  | None => if JS.inherited k then Some Other else None
  end.

(** [v || 0]: undefined and 0 are falsy, everything else here is truthy. *)
Definition or_zero (v : option value) : value :=
  match v with
  | Some (Number n) => Number n
  | Some Other => Other
  | None => Number 0
  end.

(** [v + 1]: addition on a number; on anything else both sides become text
    and are concatenated. *)
Definition plus_one (v : value) : value :=
  match v with
  | Number n => Number (S n)
  | Other => Other
  end.

(** [productCounts[k] = v].  The key [__proto__] is an accessor whose setter
    ignores what is not an object; every other key becomes an own property. *)
Definition write (productCounts : gmap string value) (k : string) (v : value)
    : gmap string value :=
  if bool_decide (k = "__proto__") then productCounts
  else <[k := v]> productCounts.

(** The body of [productsSnapshot.forEach]. *)
Definition countProduct (productCounts : gmap string value) (p : Store.Product)
    : gmap string value :=
  match p_categoryId p with
  | Some k =>
      if JS.truthy k
      then write productCounts k (plus_one (or_zero (read productCounts k)))
      else productCounts
  | None => productCounts
  end.

Definition countProducts (ps : list Store.Product) : gmap string value :=
  fold_left countProduct ps ∅.

(** The rows [fetchCategories] builds. *)
Definition toRow (productCounts : gmap string value) (g : Store.Category) : Category :=
  {| id := g_id g; name := g_name g;
     productCount := or_zero (read productCounts (g_id g)) |}.

Definition aggregate (ps : list Store.Product) (gs : list Store.Category)
    : list Category :=
  map (toRow (countProducts ps)) gs.

Record state := {
  categories : list Category;
  filteredCategories : list Category;
  loading : bool;
  searchQuery : string;
  deleteCategoryId : option string;
}.

Definition initial : state :=
  {| categories := []; filteredCategories := []; loading := true;
     searchQuery := ""; deleteCategoryId := None |}.

Definition loaded (rows : list Category) (st : state) : state :=
  {| categories := rows; filteredCategories := rows; loading := false;
     searchQuery := searchQuery st; deleteCategoryId := deleteCategoryId st |}.

Definition failed (st : state) : state :=
  {| categories := categories st; filteredCategories := filteredCategories st;
     loading := false; searchQuery := searchQuery st;
     deleteCategoryId := deleteCategoryId st |}.

(** [fetchCategories], with the store's answers to its two reads. *)
Definition fetchCategories (categoriesSnapshot : option (list Store.Category))
    (productsSnapshot : option (list Store.Product)) (st : state)
    : state * list effect :=
  match gs ← categoriesSnapshot; ps ← productsSnapshot; Some (aggregate ps gs) with
  | Some categoriesData => (loaded categoriesData st, [])
  | None => (failed st, [Toast "Error" "Failed to load categories" true])
  end.

Definition search (q : string) (rows : list Category) : list Category :=
  if JS.truthy q
  then List.filter (fun c => JS.includes (JS.toLowerCase (name c)) (JS.toLowerCase q)) rows
  else rows.

Definition setSearchQuery (q : string) (st : state) : state :=
  {| categories := categories st; filteredCategories := filteredCategories st;
     loading := loading st; searchQuery := q;
     deleteCategoryId := deleteCategoryId st |}.

Definition searchEffect (st : state) : state :=
  {| categories := categories st;
     filteredCategories := search (searchQuery st) (categories st);
     loading := loading st; searchQuery := searchQuery st;
     deleteCategoryId := deleteCategoryId st |}.

Definition setDeleteCategoryId (k : option string) (st : state) : state :=
  {| categories := categories st; filteredCategories := filteredCategories st;
     loading := loading st; searchQuery := searchQuery st;
     deleteCategoryId := k |}.

(** [category?.productCount && category.productCount > 0], with the count
    the notice then prints.  A row that was not found, a zero count and a
    value that is not a number (NaN under [>]) all let the delete through. *)
Definition blockingCount (c : option Category) : option nat :=
  match c with
  | Some c => match productCount c with
              | Number (S n) => Some (S n)
              | _ => None
              end
  | None => None
  end.

(** [prev.filter((category) => category.id !== k)] *)
Definition without (k : string) (rows : list Category) : list Category :=
  filter (fun c => id c ≠ k) rows.

(** The page as a handler sees it: the store behind the gateway and the
    component's state. *)
Record world := { store : db; ui : state }.

(** [handleDeleteCategory]: [reply] tells whether [deleteDoc] succeeds when
    it is called.  The result is the new world and what the handler did. *)
Definition handleDeleteCategory (reply : bool) (w : world) : world * list effect :=
  match deleteCategoryId (ui w) with
  | None => (w, [])
  | Some k =>
      if negb (JS.truthy k) then (w, [])
      else
        let category :=
          List.find (fun c => bool_decide (id c = k)) (categories (ui w)) in
        match blockingCount category, reply with
        | Some n, _ =>
            ({| store := store w; ui := setDeleteCategoryId None (ui w) |},
             [Toast "Cannot delete category"
                ("This category has " +:+ pretty n +:+
                 " products. Remove the products first.") true])
        | None, true =>
            ({| store := deleteCategory k (store w);
                ui := {| categories := without k (categories (ui w));
                         filteredCategories := without k (filteredCategories (ui w));
                         loading := loading (ui w);
                         searchQuery := searchQuery (ui w);
                         deleteCategoryId := None |} |},
             [DeleteDoc "categories" k;
              Toast "Category deleted"
                "The category has been deleted successfully" false])
        | None, false =>
            ({| store := store w; ui := setDeleteCategoryId None (ui w) |},
             [DeleteDoc "categories" k;
              Toast "Error" "Failed to delete category" true])
        end
  end.

(** *** What the specification says about the table *)

(** What one more product filed under a key makes of its count. *)
Definition step (v : option value) : option value :=
  Some (plus_one (or_zero v)).

(** The number of products filed under the category id [k]. *)
Definition filed_under (k : string) (ps : list Store.Product) : nat :=
  length (filter (fun p => p_categoryId p = Some k) ps).

(** The rows whose [name] contains [q], letter case aside. *)
Definition containing (q : string) (rows : list Category) : list Category :=
  List.filter (fun c => JS.includes (JS.toLowerCase (name c)) (JS.toLowerCase q)) rows.

Definition consistent (st : state) : Prop :=
  filteredCategories st = containing (searchQuery st) (categories st).

(** The states the table settles in: as for the customers, with the row
    menu that opens the delete dialog and the delete handler, after which the
    effect runs again when the handler replaced the rows. *)
Inductive reachable : state → Prop :=
  | reach_initial : reachable initial
  | reach_loaded rows st : reachable st → reachable (searchEffect (loaded rows st))
  | reach_failed st : reachable st → reachable (failed st)
  | reach_query q st : reachable st → reachable (searchEffect (setSearchQuery q st))
  | reach_dialog k st : reachable st → reachable (setDeleteCategoryId k st)
  | reach_delete reply w :
      reachable (ui w) → reachable (ui (handleDeleteCategory reply w).1)
  | reach_effect st : reachable st → reachable (searchEffect st).

(** The handler called the store to delete the category [k]. *)
Definition deletes (k : string) (out : world * list effect) : Prop :=
  DeleteDoc "categories" k ∈ out.2.

End Categories.

(** ** ProductsTable: category names on products, search and delete *)

Module Products.

Import Store.

(** [interface Product]: a row of the table, the document's data together
    with its id and the resolved [categoryName]. *)
Record Product := {
  id : string;
  name : option string;
  description : option string;
  image : string;
  price : string;
  stock : string;
  rating : string;
  date : string;
  categoryId : option string;
  categoryName : option string;
}.

(** [categoriesMap]: a [Map] filled by [categoriesMap.set(doc.id, name)]. *)
Definition categoriesMap (gs : list Store.Category) : gmap string string :=
  fold_left (fun m g => <[g_id g := g_name g]> m) gs ∅.

(** [data.categoryId ? categoriesMap.get(data.categoryId) : "Uncategorized"] *)
Definition resolve (m : gmap string string) (categoryId : option string) : option string :=
  match categoryId with
  | Some k => if JS.truthy k then m !! k else Some "Uncategorized"
  | None => Some "Uncategorized"
  end.

Definition toRow (m : gmap string string) (p : Store.Product) : Product :=
  {| id := p_id p; name := p_name p; description := p_description p;
     image := p_image p; price := p_price p; stock := p_stock p;
     rating := p_rating p; date := p_date p; categoryId := p_categoryId p;
     categoryName := resolve m (p_categoryId p) |}.

Definition aggregate (ps : list Store.Product) (gs : list Store.Category)
    : list Product :=
  map (toRow (categoriesMap gs)) ps.

(** The category cell of a row: a badge with the name, or the muted text. *)
Inductive cell :=
  | Badge (text : string)
  | Muted (text : string).

Definition categoryCell (p : Product) : cell :=
  match categoryName p with
  | Some n => if JS.truthy n then Badge n else Muted "Uncategorized"
  | None => Muted "Uncategorized"
  end.

Definition cell_text (c : cell) : string :=
  match c with Badge t | Muted t => t end.

Record state := {
  products : list Product;
  filteredProducts : list Product;
  loading : bool;
  searchQuery : string;
  deleteProductId : option string;
}.

Definition initial : state :=
  {| products := []; filteredProducts := []; loading := true;
     searchQuery := ""; deleteProductId := None |}.

Definition loaded (rows : list Product) (st : state) : state :=
  {| products := rows; filteredProducts := rows; loading := false;
     searchQuery := searchQuery st; deleteProductId := deleteProductId st |}.

Definition failed (st : state) : state :=
  {| products := products st; filteredProducts := filteredProducts st;
     loading := false; searchQuery := searchQuery st;
     deleteProductId := deleteProductId st |}.

(** [fetchProducts], with the store's answers to its two reads. *)
Definition fetchProducts (productsSnapshot : option (list Store.Product))
    (categoriesSnapshot : option (list Store.Category)) (st : state)
    : state * list effect :=
  match ps ← productsSnapshot; gs ← categoriesSnapshot; Some (aggregate ps gs) with
  | Some productsData => (loaded productsData st, [])
  | None => (failed st, [Toast "Error" "Failed to load products" true])
  end.

(** The callback of [products.filter] for the query [q]: [None] when it
    throws.  [name] is tried first: [name.toLowerCase()] throws on a row
    without name, and [||] stops at the first hit;
    [description.toLowerCase()] throws on a row without description;
    [categoryName?.] yields undefined, which [filter] takes as no. *)
Definition hit (q : string) (p : Product) : option bool :=
  let has t := JS.includes (JS.toLowerCase t) (JS.toLowerCase q) in
  match name p with
  | None => None
  | Some n =>
      if has n then Some true
      else match description p with
           | None => None
           | Some d =>
               if has d then Some true
               else Some (from_option has false (categoryName p))
           end
  end.

Fixpoint keep (q : string) (rows : list Product) : option (list Product) :=
  match rows with
  | [] => Some []
  | p :: rest =>
      b ← hit q p;
      kept ← keep q rest;
      Some (if b : bool then p :: kept else kept)
  end.

Definition search (q : string) (rows : list Product) : option (list Product) :=
  if JS.truthy q then keep q rows else Some rows.

Definition setSearchQuery (q : string) (st : state) : state :=
  {| products := products st; filteredProducts := filteredProducts st;
     loading := loading st; searchQuery := q;
     deleteProductId := deleteProductId st |}.

(** The search effect; [None] when the callback threw. *)
Definition searchEffect (st : state) : option state :=
  shown ← search (searchQuery st) (products st);
  Some {| products := products st; filteredProducts := shown;
          loading := loading st; searchQuery := searchQuery st;
          deleteProductId := deleteProductId st |}.

Definition setDeleteProductId (k : option string) (st : state) : state :=
  {| products := products st; filteredProducts := filteredProducts st;
     loading := loading st; searchQuery := searchQuery st;
     deleteProductId := k |}.

Definition without (k : string) (rows : list Product) : list Product :=
  filter (fun p => id p ≠ k) rows.

Record world := { store : db; ui : state }.

Definition handleDeleteProduct (reply : bool) (w : world) : world * list effect :=
  match deleteProductId (ui w) with
  | None => (w, [])
  | Some k =>
      if negb (JS.truthy k) then (w, [])
      else if reply then
        ({| store := deleteProduct k (store w);
            ui := {| products := without k (products (ui w));
                     filteredProducts := without k (filteredProducts (ui w));
                     loading := loading (ui w);
                     searchQuery := searchQuery (ui w);
                     deleteProductId := None |} |},
         [DeleteDoc "products" k;
          Toast "Product deleted" "The product has been deleted successfully" false])
      else
        ({| store := store w; ui := setDeleteProductId None (ui w) |},
         [DeleteDoc "products" k; Toast "Error" "Failed to delete product" true])
  end.

(** *** What the specification says about the table *)

(** The name the contract of section 4.3 attaches to a product: the
    matching category's name when the id is set and resolves, the label
    "Uncategorized" otherwise. *)
Definition stated_categoryName (gs : list Store.Category)
    (categoryId : option string) : option string :=
  match categoryId with
  | Some k =>
      match List.find (fun g => bool_decide (g_id g = k)) gs with
      | Some g => Some (g_name g)
      | None => Some "Uncategorized"
      end
  | None => Some "Uncategorized"
  end.

Definition stated_names (ps : list Store.Product) (gs : list Store.Category) : Prop :=
  Forall (fun r => categoryName r = stated_categoryName gs (categoryId r))
         (aggregate ps gs).

(** A row as [fetchProducts] builds it from the document [p]. *)
Definition named_row (gs : list Store.Category) (p : Store.Product) (r : Product) : Prop :=
  id r = p_id p ∧ name r = p_name p ∧ description r = p_description p ∧
  categoryId r = p_categoryId p ∧
  match p_categoryId p with
  | None => categoryName r = Some "Uncategorized"
  | Some k =>
      if decide (k = "") then categoryName r = Some "Uncategorized"
      else
        (∀ g, g ∈ gs → g_id g = k → categoryName r = Some (g_name g)) ∧
        (k ∉ g_id <$> gs →
           categoryName r = None ∧ categoryCell r = Muted "Uncategorized")
  end.

(** Whether a field that may be missing contains [q], letter case aside. *)
Definition mentions (q : string) (field : option string) : bool :=
  from_option (fun t => JS.includes (JS.toLowerCase t) (JS.toLowerCase q)) false field.

(** The rows one of whose [name], [description] and [categoryName]
    contains [q]. *)
Definition holding (q : string) (rows : list Product) : list Product :=
  List.filter (fun p => mentions q (name p) || mentions q (description p)
                        || mentions q (categoryName p)) rows.

(** The rows that contain [q]: every row under the empty query, and else
    the rows one of whose three texts contains it. *)
Definition containing (q : string) (rows : list Product) : list Product :=
  if JS.truthy q then holding q rows else rows.

Definition consistent (st : state) : Prop :=
  filteredProducts st = containing (searchQuery st) (products st).

(** The states the table settles in.  Here the search effect can throw,
    which takes the component down: a state is reached only when the effect
    yields one. *)
Inductive reachable : state → Prop :=
  | reach_initial : reachable initial
  | reach_loaded rows st st' :
      reachable st → searchEffect (loaded rows st) = Some st' → reachable st'
  | reach_failed st : reachable st → reachable (failed st)
  | reach_query q st st' :
      reachable st → searchEffect (setSearchQuery q st) = Some st' → reachable st'
  | reach_dialog k st : reachable st → reachable (setDeleteProductId k st)
  | reach_delete reply w :
      reachable (ui w) → reachable (ui (handleDeleteProduct reply w).1)
  | reach_effect st st' : reachable st → searchEffect st = Some st' → reachable st'.

End Products.

(** ** The pages beyond the tables *)

(** What a form or a details page does to the outside: the writes of a
    document, with the data [D] sent along, the notices, and the navigation
    [router.push]. *)
Inductive call (D : Type) :=
  | SetDoc (collection key : string) (data : D)
  | UpdateDoc (collection key : string) (data : D)
  | Notify (title description : string) (destructive : bool)
  | Push (href : string).

Arguments SetDoc {D} collection key data.
Arguments UpdateDoc {D} collection key data.
Arguments Notify {D} title description destructive.
Arguments Push {D} href.

(** *** What the browser provides *)

Module Web.

(** A prop or field [v] used as a condition, [if (v)]: it holds when [v] is
    there and is not the empty text. *)
Definition present (v : option string) : option string :=
  match v with
  | Some s => if JS.truthy s then Some s else None
  | None => None
  end.

(** [v || d] on a text that may be missing. *)
Definition or_text (v : option string) (d : string) : string :=
  default d (present v).

(** The base64 alphabet of RFC 4648, and the character of a 6-bit group. *)
Definition alphabet : string :=
  "ABCDEFGHIJKLMNOPQRSTUVWXYZabcdefghijklmnopqrstuvwxyz0123456789+/".

Definition sextet (n : N) : ascii :=
  default "="%char (String.get (N.to_nat (n mod 64)) alphabet).

(** Base64 of a sequence of bytes: three bytes make four characters, and
    the last group is padded with "=". *)
Fixpoint base64 (bytes : list ascii) : string :=
  match bytes with
  | a :: b :: c :: rest =>
      let n := (N_of_ascii a * 65536 + N_of_ascii b * 256 + N_of_ascii c)%N in
      String (sextet (n / 262144)) (String (sextet (n / 4096))
        (String (sextet (n / 64)) (String (sextet n) (base64 rest))))
  | [a; b] =>
      let n := (N_of_ascii a * 65536 + N_of_ascii b * 256)%N in
      String (sextet (n / 262144)) (String (sextet (n / 4096))
        (String (sextet (n / 64)) "="))
  | [a] =>
      let n := (N_of_ascii a * 65536)%N in
      String (sextet (n / 262144)) (String (sextet (n / 4096)) "==")
  | [] => ""
  end.

(** A [File]: its bytes, and the media type the browser gives it. *)
Record File := { content : list ascii; mediaType : string }.

(** [file.size], in bytes. *)
Definition size (f : File) : Z := Z.of_nat (length (content f)).

(** What [FileReader.readAsDataURL(file)] leaves in [reader.result]. *)
Definition readAsDataURL (f : File) : string :=
  "data:" +:+ mediaType f +:+ ";base64," +:+ base64 (content f).

End Web.

(** *** The store's answers to single-document reads and writes *)

Module Gateway.

Import Store.

(** [getDoc(doc(db, "categories", k))] and the same on "products": the
    document, when there is one. *)
Definition getCategory (k : string) (d : db) : option Category :=
  List.find (fun g => bool_decide (g_id g = k)) (categories d).

Definition getProduct (k : string) (d : db) : option Product :=
  List.find (fun p => bool_decide (p_id p = k)) (products d).

(** [setDoc(doc(db, "categories", k), data)], once carried out: the document
    [k] is created, or replaced when there is one. *)
Definition setCategory (g : Category) (d : db) : db :=
  {| orders := orders d; customers := customers d;
     categories := filter (fun g' => g_id g' ≠ g_id g) (categories d) ++ [g];
     products := products d |}.

Definition setProduct (p : Product) (d : db) : db :=
  {| orders := orders d; customers := customers d;
     categories := categories d;
     products := filter (fun p' => p_id p' ≠ p_id p) (products d) ++ [p] |}.

(** [updateDoc(doc(db, "categories", k), data)]: the fields of [data] are
    written into the document [k], which keeps its place and its other
    fields; the store rejects the call ([None]) when there is no such
    document.  The category form sends the one field that [Category] holds,
    so the document becomes the one given; for a product, [write] is what the
    fields sent make of the document. *)
Definition updateCategory (g : Category) (d : db) : option db :=
  if bool_decide (g_id g ∈ g_id <$> categories d)
  then Some {| orders := orders d; customers := customers d;
               categories := (fun g' => if bool_decide (g_id g' = g_id g)
                                        then g else g') <$> categories d;
               products := products d |}
  else None.

Definition updateProduct (k : string) (write : Product → Product) (d : db)
    : option db :=
  if bool_decide (k ∈ p_id <$> products d)
  then Some {| orders := orders d; customers := customers d;
               categories := categories d;
               products := (fun p => if bool_decide (p_id p = k)
                                     then write p else p) <$> products d |}
  else None.

(** [query(collection(db, c), where(field, "==", v))]: the documents of the
    collection whose [field] is there and equal to [v], in store order. *)
Definition whereEq {A} (field : A → option string) (v : string)
    (docs : list A) : list A :=
  filter (fun x => field x = Some v) docs.

End Gateway.

(** *** DashboardNav: the side bar (src/components/dashboard-nav.tsx, first part) *)

Module DashboardNav.

Record item := { title : string; href : string; icon : string }.

Definition navItems : list item :=
  [ {| title := "Dashboard"; href := "/dashboard"; icon := "Home" |};
    {| title := "Products"; href := "/dashboard/products"; icon := "Package" |};
    {| title := "Categories"; href := "/dashboard/categories"; icon := "FolderTree" |};
    {| title := "Tags"; href := "/dashboard/tags"; icon := "Tag" |};
    {| title := "Customers"; href := "/dashboard/customers"; icon := "Users" |};
    {| title := "Addresses"; href := "/dashboard/addresses"; icon := "MapPin" |};
    {| title := "Orders"; href := "/dashboard/orders"; icon := "ShoppingCart" |};
    {| title := "Analytics"; href := "/dashboard/analytics"; icon := "BarChart3" |} ].

(** A rendered button: its variant, its class names, and the link in it. *)
Record button := {
  variant : string;
  className : string;
  link : string;
  label : string;
}.

(** The callback of [navItems.map]; [cn] joins the class names that are
    not false. *)
Definition toButton (pathname : string) (i : item) : button :=
  let active := bool_decide (pathname = href i) in
  {| variant := if active then "secondary" else "ghost";
     className := if active then "justify-start gap-2 bg-secondary"
                  else "justify-start gap-2";
     link := href i; label := title i |}.

Definition DashboardNav (pathname : string) : list button :=
  map (toButton pathname) navItems.

(** The buttons shown as the current page. *)
Definition highlighted (pathname : string) : list button :=
  filter (fun b => variant b = "secondary") (DashboardNav pathname).

End DashboardNav.

(** *** CustomerDetails (src/components/customers/customer-details.tsx) *)

Module CustomerDetails.

Import Store.

(** [interface Address] *)
Record Address := {
  a_id : string;
  a_userId : string;
  a_label : string;
  a_street : string;
  a_city : string;
  a_state : string;
  a_postalCode : string;
  a_country : string;
}.

(** An order document as this page keeps it.  [userId] and [totalAmount]
    are the two fields the customers table reads, and may be missing. *)
Record Order := {
  id : string;
  orderId : string;
  userId : option string;
  createdAt : string;
  totalAmount : option string;
  paymentStatus : string;
}.

(** What the customers table reads of the same document. *)
Definition as_read_by_table (o : Order) : Store.Order :=
  {| o_userId := userId o; o_totalAmount := totalAmount o |}.

Record state := {
  customer : option Store.Customer;
  addresses : list Address;
  orders : list Order;
  loading : bool;
}.

Definition initial : state :=
  {| customer := None; addresses := []; orders := []; loading := true |}.

(** [fetchCustomerDetails].  [customerDoc] is the store's answer to the
    [getDoc]: rejected, no such document, or the document; the two snapshots
    are its answers to the queries for a user id.  What was set before a
    rejection stays set. *)
Definition fetchCustomerDetails
    (customerDoc : option (option Store.Customer))
    (addressesSnapshot : string → option (list Address))
    (ordersSnapshot : string → option (list Order))
    (st : state) : state * list (call unit) :=
  let error := Notify "Error" "Failed to load customer details" true in
  let settled c a o :=
    {| customer := c; addresses := a; orders := o; loading := false |} in
  match customerDoc with
  | None => (settled (customer st) (addresses st) (orders st), [error])
  | Some None =>
      (settled (customer st) (addresses st) (orders st),
       [Notify "Customer not found"
          "The customer you're looking for doesn't exist" true;
        Push "/dashboard/customers"])
  | Some (Some customerData) =>
      match addressesSnapshot (c_userId customerData) with
      | None => (settled (Some customerData) (addresses st) (orders st), [error])
      | Some addressesData =>
          match ordersSnapshot (c_userId customerData) with
          | None =>
              (settled (Some customerData) addressesData (orders st), [error])
          | Some ordersData =>
              (settled (Some customerData) addressesData ordersData, [])
          end
      end
  end.

(** The badges on an address card. *)
Inductive badge := Billing | Shipping.

Definition badges (c : Store.Customer) (a : Address) : list badge :=
  (if bool_decide (Some (a_id a) = c_billingAddressId c) then [Billing] else []) ++
  (if bool_decide (Some (a_id a) = c_shippingAddressId c) then [Shipping] else []).

(** The variant of the payment badge. *)
Definition paymentVariant (paymentStatus : string) : string :=
  if bool_decide (paymentStatus = "paid") then "success"
  else if bool_decide (paymentStatus = "pending") then "warning"
  else "destructive".

(** What the component renders: the spinner, the "Customer not found"
    panel, or the page with the customer's user id, the "Total Orders"
    figure, the address cards with their badges, and the order history. *)
Inductive view :=
  | Spinner
  | NotFound
  | Details (customerId : string) (totalOrders : nat)
      (cards : list (Address * list badge)) (history : list (Order * string)).

Definition render (st : state) : view :=
  if loading st then Spinner
  else match customer st with
       | None => NotFound
       | Some c =>
           Details (c_userId c) (length (orders st))
             ((fun a => (a, badges c a)) <$> addresses st)
             ((fun o => (o, paymentVariant (paymentStatus o))) <$> orders st)
       end.

End CustomerDetails.

(** *** OrderDetails: the items of an order (src/unnamed/part_000) *)

Module OrderDetails.

(** [interface OrderProduct] *)
Record OrderProduct := {
  productId : string;
  name : string;
  quantity : float;
  price : string;
}.

(** The "Total" cell of an item:
    [(Number.parseFloat(product.price) * product.quantity).toFixed(2)]. *)
Definition lineTotal (product : OrderProduct) : string :=
  JS.toFixed2 (JS.parseFloat (Some (price product)) * quantity product).

End OrderDetails.

(** *** CategoryForm (src/components/categories/category-form.tsx, first part) *)

Module CategoryForm.

Import Store.

(** [formData] *)
Record form := { name : string }.

Record state := {
  loading : bool;
  formData : form;
  isEdit : bool;
}.

Definition initial : state :=
  {| loading := false; formData := {| name := "" |}; isEdit := false |}.

(** The data the form sends, as the document [k] of the store. *)
Definition document (k : string) (f : form) : Store.Category :=
  {| g_id := k; g_name := name f |}.

(** [fetchCategory], for the prop [categoryId] and the store's answer to
    the [getDoc]: rejected, no such document, or the document. *)
Definition fetchCategory (categoryId : option string)
    (categoryDoc : option (option Store.Category)) (st : state)
    : state * list (call form) :=
  match Web.present categoryId with
  | None => ({| loading := loading st; formData := formData st; isEdit := false |}, [])
  | Some _ =>
      match categoryDoc with
      | Some (Some categoryData) =>
          ({| loading := false;
              formData := {| name := Web.or_text (Some (g_name categoryData)) "" |};
              isEdit := true |}, [])
      | Some None =>
          ({| loading := false; formData := formData st; isEdit := true |},
           [Notify "Category not found"
              "The category you're trying to edit doesn't exist" true;
            Push "/dashboard/categories"])
      | None =>
          ({| loading := false; formData := formData st; isEdit := true |},
           [Notify "Error" "Failed to load category data" true])
      end
  end.

(** [handleInputChange], for the one input that calls it, named "name". *)
Definition handleInputChange (value : string) (st : state) : state :=
  {| loading := loading st; formData := {| name := value |}; isEdit := isEdit st |}.

Record world := { store : db; ui : state }.

(** [handleSubmit].  [newCategoryId] is what [uuidv4()] returns when it is
    called; [reply] tells whether the store accepts the write. *)
Definition handleSubmit (categoryId : option string) (newCategoryId : string)
    (reply : bool) (w : world) : world * list (call form) :=
  let data := formData (ui w) in
  let settled :=
    {| loading := false; formData := data; isEdit := isEdit (ui w) |} in
  let failed write :=
    ({| store := store w; ui := settled |},
     [write; Notify "Error" "Failed to save category" true]) in
  match (if isEdit (ui w) then Web.present categoryId else None) with
  | Some k =>
      match (if reply then Gateway.updateCategory (document k data) (store w)
             else None) with
      | Some d =>
          ({| store := d; ui := settled |},
           [UpdateDoc "categories" k data;
            Notify "Category updated"
              "The category has been updated successfully" false;
            Push "/dashboard/categories"])
      | None => failed (UpdateDoc "categories" k data)
      end
  | None =>
      if reply then
        ({| store := Gateway.setCategory (document newCategoryId data) (store w);
            ui := settled |},
         [SetDoc "categories" newCategoryId data;
          Notify "Category created"
            "The category has been created successfully" false;
          Push "/dashboard/categories"])
      else failed (SetDoc "categories" newCategoryId data)
  end.

End CategoryForm.

(** *** ProductForm (src/components/products/product-form.tsx) *)

Module ProductForm.

Import Store.

(** [formData] *)
Record form := Form {
  name : string;
  description : string;
  image : string;
  price : string;
  stock : string;
  rating : string;
  date : string;
  categoryId : string;
  tagIds : list string;
}.

(** [interface Tag] *)
Record Tag := { t_id : string; t_name : string }.

Record state := State {
  loading : bool;
  imageFile : option Web.File;
  imagePreview : option string;
  imageUploading : bool;
  categories : list Store.Category;
  tags : list Tag;
  formData : form;
  isEdit : bool;
}.

(** The component when it mounts; [now] is [new Date().toISOString()]. *)
Definition initial (now : string) : state :=
  {| loading := false; imageFile := None; imagePreview := None;
     imageUploading := false; categories := []; tags := [];
     formData := Form "" "" "" "" "" "0" now "" []; isEdit := false |}.

Definition setLoading (b : bool) (st : state) : state :=
  State b (imageFile st) (imagePreview st) (imageUploading st)
        (categories st) (tags st) (formData st) (isEdit st).

Definition setImageFile (f : option Web.File) (st : state) : state :=
  State (loading st) f (imagePreview st) (imageUploading st)
        (categories st) (tags st) (formData st) (isEdit st).

Definition setImagePreview (p : option string) (st : state) : state :=
  State (loading st) (imageFile st) p (imageUploading st)
        (categories st) (tags st) (formData st) (isEdit st).

Definition setImageUploading (b : bool) (st : state) : state :=
  State (loading st) (imageFile st) (imagePreview st) b
        (categories st) (tags st) (formData st) (isEdit st).

Definition setCategories (gs : list Store.Category) (st : state) : state :=
  State (loading st) (imageFile st) (imagePreview st) (imageUploading st)
        gs (tags st) (formData st) (isEdit st).

Definition setTags (ts : list Tag) (st : state) : state :=
  State (loading st) (imageFile st) (imagePreview st) (imageUploading st)
        (categories st) ts (formData st) (isEdit st).

Definition setFormData (f : form) (st : state) : state :=
  State (loading st) (imageFile st) (imagePreview st) (imageUploading st)
        (categories st) (tags st) f (isEdit st).

Definition setIsEdit (b : bool) (st : state) : state :=
  State (loading st) (imageFile st) (imagePreview st) (imageUploading st)
        (categories st) (tags st) (formData st) b.

(** [fetchCategories] and [fetchTags]: a rejected read is only logged. *)
Definition fetchCategories (categoriesSnapshot : option (list Store.Category))
    (st : state) : state :=
  match categoriesSnapshot with
  | Some categoriesData => setCategories categoriesData st
  | None => st
  end.

Definition fetchTags (tagsSnapshot : option (list Tag)) (st : state) : state :=
  match tagsSnapshot with
  | Some tagsData => setTags tagsData st
  | None => st
  end.

(** The [formData] that [fetchProduct] makes of a document. *)
Definition load (now : string) (productData : Store.Product) : form :=
  {| name := Web.or_text (p_name productData) "";
     description := Web.or_text (p_description productData) "";
     image := Web.or_text (Some (p_image productData)) "";
     price := Web.or_text (Some (p_price productData)) "";
     stock := Web.or_text (Some (p_stock productData)) "";
     rating := Web.or_text (Some (p_rating productData)) "0";
     date := Web.or_text (Some (p_date productData)) now;
     categoryId := Web.or_text (p_categoryId productData) "";
     tagIds := default [] (p_tagIds productData) |}.

(** [fetchProduct], for the prop [productId] and the store's answer to the
    [getDoc]. *)
Definition fetchProduct (productId : option string) (now : string)
    (productDoc : option (option Store.Product)) (st : state)
    : state * list (call form) :=
  match Web.present productId with
  | None => (setIsEdit false st, [])
  | Some _ =>
      let st := setIsEdit true st in
      match productDoc with
      | Some (Some productData) =>
          let st := setFormData (load now productData) st in
          let st := if JS.truthy (p_image productData)
                    then setImagePreview (Some (p_image productData)) st
                    else st in
          (setLoading false st, [])
      | Some None =>
          (setLoading false st,
           [Notify "Product not found"
              "The product you're trying to edit doesn't exist" true;
            Push "/dashboard/products"])
      | None =>
          (setLoading false st,
           [Notify "Error" "Failed to load product data" true])
      end
  end.

(** The properties of [formData] that the inputs and the select write:
    the inputs are named "name", "description", "price", "stock" and
    "rating", and the select passes "categoryId". *)
Inductive key := Name | Description | Price | Stock | Rating | CategoryId.

(** [{ ...prev, [name]: value }] *)
Definition assign (k : key) (value : string) (f : form) : form :=
  match k with
  | Name => Form value (description f) (image f) (price f) (stock f)
                 (rating f) (date f) (categoryId f) (tagIds f)
  | Description => Form (name f) value (image f) (price f) (stock f)
                        (rating f) (date f) (categoryId f) (tagIds f)
  | Price => Form (name f) (description f) (image f) value (stock f)
                  (rating f) (date f) (categoryId f) (tagIds f)
  | Stock => Form (name f) (description f) (image f) (price f) value
                  (rating f) (date f) (categoryId f) (tagIds f)
  | Rating => Form (name f) (description f) (image f) (price f) (stock f)
                   value (date f) (categoryId f) (tagIds f)
  | CategoryId => Form (name f) (description f) (image f) (price f) (stock f)
                       (rating f) (date f) value (tagIds f)
  end.

Definition handleInputChange (name : key) (value : string) (st : state) : state :=
  setFormData (assign name value (formData st)) st.

Definition handleSelectChange (name : key) (value : string) (st : state) : state :=
  setFormData (assign name value (formData st)) st.

Definition handleTagsChange (selectedTags : list string) (st : state) : state :=
  let f := formData st in
  setFormData (Form (name f) (description f) (image f) (price f) (stock f)
                    (rating f) (date f) (categoryId f) selectedTags) st.

(** The values the category select offers: the item "None", whose value is
    the text "none", and one item per category. *)
Definition selectItems (st : state) : list string :=
  "none" :: (g_id <$> categories st).

(** [handleImageChange], for the first file of the input, if any.  [read]
    tells whether the reader of the preview succeeds; [reader.result] is
    null when it does not. *)
Definition handleImageChange (file : option Web.File) (read : bool) (st : state)
    : state * list (call form) :=
  match file with
  | None => (st, [])
  | Some file =>
      if 800 * 1024 <? Web.size file then
        (st, [Notify "Image too large"
                "Please select an image smaller than 800KB" true])
      else
        (setImagePreview (if read then Some (Web.readAsDataURL file) else None)
           (setImageFile (Some file) st), [])
  end.

(** The data the form sends, as the new document [k] of the store: the
    form knows no subcategory. *)
Definition document (k : string) (f : form) : Store.Product :=
  {| p_id := k; p_name := Some (name f); p_description := Some (description f);
     p_image := image f; p_price := price f; p_stock := stock f;
     p_rating := rating f; p_date := date f;
     p_categoryId := Some (categoryId f);
     p_subcategoryId := None; p_tagIds := Some (tagIds f) |}.

(** What the data sent makes of the document [old] in an update: the nine
    fields of the form are written, the others stay. *)
Definition write (f : form) (old : Store.Product) : Store.Product :=
  {| p_id := p_id old; p_name := Some (name f);
     p_description := Some (description f);
     p_image := image f; p_price := price f; p_stock := stock f;
     p_rating := rating f; p_date := date f;
     p_categoryId := Some (categoryId f);
     p_subcategoryId := p_subcategoryId old; p_tagIds := Some (tagIds f) |}.

Record world := { store : db; ui : state }.

(** [imageBase64]: the stored image, or the new file as a data URL; [None]
    when [convertToBase64] rejects. *)
Definition imageBase64 (read : bool) (st : state) : option string :=
  match imageFile st with
  | Some file => if read then Some (Web.readAsDataURL file) else None
  | None => Some (image (formData st))
  end.

(** [productData] *)
Definition productData (now imageBase64 : string) (f : form) : form :=
  Form (name f) (description f) imageBase64 (price f) (stock f) (rating f)
       (Web.or_text (Some (date f)) now) (categoryId f) (tagIds f).

(** [handleSubmit].  [newProductId] is what [uuidv4()] returns when it is
    called, [read] tells whether the conversion of the image succeeds, and
    [reply] whether the store accepts the write. *)
Definition handleSubmit (productId : option string) (now newProductId : string)
    (read reply : bool) (w : world) : world * list (call form) :=
  let st := ui w in
  let settled :=
    setLoading false
      (match imageFile st with
       | Some _ => setImageUploading false st
       | None => st
       end) in
  let failed calls :=
    ({| store := store w; ui := settled |},
     calls ++ [Notify "Error" "Failed to save product" true]) in
  match imageBase64 read st with
  | None => failed []
  | Some i =>
      let data := productData now i (formData st) in
      match (if isEdit st then Web.present productId else None) with
      | Some k =>
          match (if reply then Gateway.updateProduct k (write data) (store w)
                 else None) with
          | Some d =>
              ({| store := d; ui := settled |},
               [UpdateDoc "products" k data;
                Notify "Product updated"
                  "The product has been updated successfully" false;
                Push "/dashboard/products"])
          | None => failed [UpdateDoc "products" k data]
          end
      | None =>
          if reply then
            ({| store := Gateway.setProduct (document newProductId data) (store w);
                ui := settled |},
             [SetDoc "products" newProductId data;
              Notify "Product created"
                "The product has been created successfully" false;
              Push "/dashboard/products"])
          else failed [SetDoc "products" newProductId data]
      end
  end.

End ProductForm.

(** *** ProductForm, with subcategories and images in S3 (src/unnamed/part_001) *)

Module ProductFormS3.

Import Store.

(** [formData] *)
Record form := Form {
  name : string;
  description : string;
  image : string;
  price : string;
  stock : string;
  rating : string;
  date : string;
  categoryId : string;
  subcategoryId : string;
  tagIds : list string;
}.

(** [interface SubCategory] *)
Record SubCategory := { s_id : string; s_name : string }.

Record state := State {
  loading : bool;
  imageFile : option Web.File;
  imagePreview : option string;
  imageUploading : bool;
  categories : list Store.Category;
  subcategories : list SubCategory;
  tags : list ProductForm.Tag;
  formData : form;
  isEdit : bool;
}.

Definition initial (now : string) : state :=
  State false None None false [] [] [] (Form "" "" "" "" "" "0" now "" "" []) false.

Definition setLoading (b : bool) (st : state) : state :=
  State b (imageFile st) (imagePreview st) (imageUploading st) (categories st)
        (subcategories st) (tags st) (formData st) (isEdit st).

Definition setImageFile (f : option Web.File) (st : state) : state :=
  State (loading st) f (imagePreview st) (imageUploading st) (categories st)
        (subcategories st) (tags st) (formData st) (isEdit st).

Definition setImagePreview (p : option string) (st : state) : state :=
  State (loading st) (imageFile st) p (imageUploading st) (categories st)
        (subcategories st) (tags st) (formData st) (isEdit st).

Definition setImageUploading (b : bool) (st : state) : state :=
  State (loading st) (imageFile st) (imagePreview st) b (categories st)
        (subcategories st) (tags st) (formData st) (isEdit st).

Definition setCategories (gs : list Store.Category) (st : state) : state :=
  State (loading st) (imageFile st) (imagePreview st) (imageUploading st) gs
        (subcategories st) (tags st) (formData st) (isEdit st).

Definition setSubcategories (ss : list SubCategory) (st : state) : state :=
  State (loading st) (imageFile st) (imagePreview st) (imageUploading st)
        (categories st) ss (tags st) (formData st) (isEdit st).

Definition setTags (ts : list ProductForm.Tag) (st : state) : state :=
  State (loading st) (imageFile st) (imagePreview st) (imageUploading st)
        (categories st) (subcategories st) ts (formData st) (isEdit st).

Definition setFormData (f : form) (st : state) : state :=
  State (loading st) (imageFile st) (imagePreview st) (imageUploading st)
        (categories st) (subcategories st) (tags st) f (isEdit st).

Definition setIsEdit (b : bool) (st : state) : state :=
  State (loading st) (imageFile st) (imagePreview st) (imageUploading st)
        (categories st) (subcategories st) (tags st) (formData st) b.

(** [loadLookups]: the two reads are awaited together, outside any [try]; when
    one is rejected nothing is set. *)
Definition loadLookups
    (snaps : option (list Store.Category * list ProductForm.Tag)) (st : state)
    : state :=
  match snaps with
  | Some (catSnap, tagSnap) => setTags tagSnap (setCategories catSnap st)
  | None => st
  end.

(** [fetchSubcategories]; [None] when the query is rejected. *)
Definition fetchSubcategories (categoryId : string)
    (snap : option (list SubCategory)) (st : state) : option state :=
  if negb (JS.truthy categoryId) then Some (setSubcategories [] st)
  else match snap with
       | Some ss => Some (setSubcategories ss st)
       | None => None
       end.

Definition load (now : string) (data : Store.Product) : form :=
  {| name := Web.or_text (p_name data) "";
     description := Web.or_text (p_description data) "";
     image := Web.or_text (Some (p_image data)) "";
     price := Web.or_text (Some (p_price data)) "";
     stock := Web.or_text (Some (p_stock data)) "";
     rating := Web.or_text (Some (p_rating data)) "0";
     date := Web.or_text (Some (p_date data)) now;
     categoryId := Web.or_text (p_categoryId data) "";
     subcategoryId := Web.or_text (p_subcategoryId data) "";
     tagIds := default [] (p_tagIds data) |}.

(** [loadProduct].  A rejected read, a missing document and a rejected
    query for the subcategories all end in the [catch]. *)
Definition loadProduct (productId : option string) (now : string)
    (snap : option (option Store.Product)) (subSnap : option (list SubCategory))
    (st : state) : state * list (call form) :=
  let error st :=
    (setLoading false st,
     [Notify "Error" "Failed to load product" true; Push "/dashboard/products"]) in
  match Web.present productId with
  | None => (st, [])
  | Some _ =>
      let st := setIsEdit true st in
      match snap with
      | Some (Some data) =>
          let st := setFormData (load now data) st in
          let st := if JS.truthy (p_image data)
                    then setImagePreview (Some (p_image data)) st else st in
          match Web.present (p_categoryId data) with
          | Some categoryId =>
              match fetchSubcategories categoryId subSnap st with
              | Some st => (setLoading false st, [])
              | None => error st
              end
          | None => (setLoading false st, [])
          end
      | _ => error st
      end
  end.

(** The inputs that call [handleInputChange] are named "name",
    "description", "price" and "stock". *)
Inductive key := Name | Description | Price | Stock.

Definition handleInputChange (name : key) (value : string) (st : state) : state :=
  let f := formData st in
  setFormData
    match name with
    | Name => Form value (description f) (image f) (price f) (stock f) (rating f)
                   (date f) (categoryId f) (subcategoryId f) (tagIds f)
    | Description => Form (ProductFormS3.name f) value (image f) (price f) (stock f)
                          (rating f) (date f) (categoryId f) (subcategoryId f)
                          (tagIds f)
    | Price => Form (ProductFormS3.name f) (description f) (image f) value (stock f)
                    (rating f) (date f) (categoryId f) (subcategoryId f) (tagIds f)
    | Stock => Form (ProductFormS3.name f) (description f) (image f) (price f) value
                    (rating f) (date f) (categoryId f) (subcategoryId f) (tagIds f)
    end st.

(** [handleCategoryChange]: the category is set and the subcategory
    cleared before the query; a rejected query is not caught and leaves the
    list of subcategories as it was. *)
Definition handleCategoryChange (value : string)
    (snap : option (list SubCategory)) (st : state) : state :=
  let f := formData st in
  let st := setFormData (Form (name f) (description f) (image f) (price f)
                              (stock f) (rating f) (date f) value "" (tagIds f))
                        st in
  default st (fetchSubcategories value snap st).

(** The subcategory select and the tag picker. *)
Definition setSubcategoryId (value : string) (st : state) : state :=
  let f := formData st in
  setFormData (Form (name f) (description f) (image f) (price f) (stock f)
                    (rating f) (date f) (categoryId f) value (tagIds f)) st.

Definition setTagIds (values : list string) (st : state) : state :=
  let f := formData st in
  setFormData (Form (name f) (description f) (image f) (price f) (stock f)
                    (rating f) (date f) (categoryId f) (subcategoryId f) values) st.

(** [handleImageChange]: every file is kept. *)
Definition handleImageChange (file : option Web.File) (read : bool) (st : state)
    : state :=
  match file with
  | None => st
  | Some file =>
      setImagePreview (if read then Some (Web.readAsDataURL file) else None)
        (setImageFile (Some file) st)
  end.

(** The data the form sends, as the document [k] of the store; it holds
    every field of a product, so an update makes the document [k] this one. *)
Definition document (k : string) (f : form) : Store.Product :=
  {| p_id := k; p_name := Some (name f); p_description := Some (description f);
     p_image := image f; p_price := price f; p_stock := stock f;
     p_rating := rating f; p_date := date f;
     p_categoryId := Some (categoryId f);
     p_subcategoryId := Some (subcategoryId f); p_tagIds := Some (tagIds f) |}.

Record world := { store : db; ui : state }.

(** [handleSubmit].  [upload] is what [uploadToS3] resolves to, [None] when
    it rejects.  [setImageUploading(false)] follows the upload inside the
    [try], with no [finally] of its own: it is skipped when the upload
    rejects. *)
Definition handleSubmit (productId : option string) (newProductId : string)
    (upload : option string) (reply : bool) (w : world)
    : world * list (call form) :=
  let st := ui w in
  let f := formData st in
  let error st calls :=
    ({| store := store w; ui := setLoading false st |},
     calls ++ [Notify "Error" "Failed to save product" true]) in
  match imageFile st, upload with
  | Some _, None => error (setImageUploading true st) []
  | file, _ =>
      let imageUrl := match file with
                      | Some _ => default (image f) upload
                      | None => image f
                      end in
      let st := match file with
                | Some _ => setImageUploading false st
                | None => st
                end in
      let payload := Form (name f) (description f) imageUrl (price f) (stock f)
                          (rating f) (date f) (categoryId f) (subcategoryId f)
                          (tagIds f) in
      match (if isEdit st then Web.present productId else None) with
      | Some k =>
          match (if reply
                 then Gateway.updateProduct k (fun _ => document k payload) (store w)
                 else None) with
          | Some d =>
              ({| store := d; ui := setLoading false st |},
               [UpdateDoc "products" k payload;
                Notify "Updated" "Product updated" false;
                Push "/dashboard/products"])
          | None => error st [UpdateDoc "products" k payload]
          end
      | None =>
          if reply then
            ({| store := Gateway.setProduct (document newProductId payload) (store w);
                ui := setLoading false st |},
             [SetDoc "products" newProductId payload;
              Notify "Created" "Product created" false;
              Push "/dashboard/products"])
          else error st [SetDoc "products" newProductId payload]
      end
  end.

(** The submit button and the image button: [disabled={loading ||
    imageUploading}] and [disabled={imageUploading}]. *)
Definition submitDisabled (st : state) : bool := loading st || imageUploading st.
Definition imageButtonDisabled (st : state) : bool := imageUploading st.

(** What can still happen to a form whose two buttons are disabled: the
    mount effects may complete, and the inputs, the selects and the tag picker
    take input.  (The file input is hidden and opened by the image button;
    its handler is listed all the same.) *)
Inductive event :=
  | Lookups (snaps : option (list Store.Category * list ProductForm.Tag))
  | Loaded (productId : option string) (now : string)
      (snap : option (option Store.Product)) (subSnap : option (list SubCategory))
  | Input (name : key) (value : string)
  | CategoryChosen (value : string) (snap : option (list SubCategory))
  | SubcategoryChosen (value : string)
  | TagsChosen (values : list string)
  | FilePicked (file : option Web.File) (read : bool).

Definition handle (st : state) (e : event) : state :=
  match e with
  | Lookups snaps => loadLookups snaps st
  | Loaded productId now snap subSnap => (loadProduct productId now snap subSnap st).1
  | Input name value => handleInputChange name value st
  | CategoryChosen value snap => handleCategoryChange value snap st
  | SubcategoryChosen value => setSubcategoryId value st
  | TagsChosen values => setTagIds values st
  | FilePicked file read => handleImageChange file read st
  end.

End ProductFormS3.

(** *** Vocabulary for the facts about the pages *)

Module Pages.

Import Store.

(** The grouping pass of the customers table writes on the member [k] of
    [Object.prototype] when an order carries [k] as its [userId]; an earlier
    run on the same page may have done so before. *)
Definition touched (page : gset string) (os : list Order) (k : string) : Prop :=
  k ∈ page ∨ Some k ∈ o_userId <$> os.

(** The rows of a table are those that a fresh fetch would build from the
    store behind it. *)
Definition categories_in_sync (w : Categories.world) : Prop :=
  Categories.categories (Categories.ui w) =
  Categories.aggregate (products (Categories.store w))
                       (categories (Categories.store w)).

Definition products_in_sync (w : Products.world) : Prop :=
  Products.products (Products.ui w) =
  Products.aggregate (products (Products.store w))
                     (categories (Products.store w)).

(** An identifier as [uuidv4()] returns it: 36 characters. *)
Definition uuid_like (k : string) : Prop := String.length k = 36%nat.

(** The product document [p] holds the nine fields of the form data [f]. *)
Definition carries (f : ProductForm.form) (p : Product) : Prop :=
  p_name p = Some (ProductForm.name f) ∧
  p_description p = Some (ProductForm.description f) ∧
  p_image p = ProductForm.image f ∧ p_price p = ProductForm.price f ∧
  p_stock p = ProductForm.stock f ∧ p_rating p = ProductForm.rating f ∧
  p_date p = ProductForm.date f ∧
  p_categoryId p = Some (ProductForm.categoryId f) ∧
  p_tagIds p = Some (ProductForm.tagIds f).

End Pages.

(** ** Concrete collections *)

Module Examples.

Import Store.

Definition order (u t : string) : Order :=
  {| o_userId := Some u; o_totalAmount := Some t |}.

Definition customer (k u : string) : Store.Customer :=
  {| c_id := k; c_userId := u; c_createdAt := "2024-05-01T09:00:00.000Z";
     c_billingAddressId := None; c_shippingAddressId := None |}.

(** The scenario of section 8: one customer, two orders. *)
Definition u1_customers : list Store.Customer := [customer "c1" "u1"].
Definition u1_orders : list Order := [order "u1" "10.005"; order "u1" "5"].

(** A customer document whose [userId] is the empty text, and an order that
    carries the same [userId]. *)
Definition blank_customers : list Store.Customer := [customer "c1" ""].
Definition blank_orders : list Order := [order "" "5"].

(** An order so large that [toFixed] leaves fixed notation. *)
Definition huge_orders : list Order := [order "u1" "1e21"].

(** A customer whose [userId] is the name of a member of
    [Object.prototype], without and with an order. *)
Definition odd_customers : list Store.Customer := [customer "c1" "constructor"].
Definition odd_orders : list Order := [order "constructor" "5"].

(** An order whose amount is not a number. *)
Definition garbled_order : Order := order "u1" "ten rupees".

(** Such an order of the customer named "constructor". *)
Definition garbled_odd_order : Order := order "constructor" "ten rupees".

(** A customer named "total", and an order of the user "__proto__". *)
Definition total_customers : list Store.Customer := [customer "c1" "total"].
Definition proto_orders : list Order := [order "__proto__" "5"].

Definition category (k n : string) : Store.Category :=
  {| g_id := k; g_name := n |}.

Definition product (k n : string) (d c : option string) : Store.Product :=
  {| p_id := k; p_name := Some n; p_description := d; p_image := "";
     p_price := "1200"; p_stock := "3"; p_rating := "4"; p_date := "";
     p_categoryId := c; p_subcategoryId := None; p_tagIds := None |}.

(** The scenario of section 8: a product that points at a category which
    does not exist, and no categories. *)
Definition dangling_products : list Store.Product :=
  [product "p1" "Clay lamp" (Some "Hand made") (Some "missing")].

(** A shelf with a category, a product in it, one without category and one
    without description. *)
Definition shelf_categories : list Store.Category := [category "g1" "Books"].
Definition shelf_products : list Store.Product :=
  [product "p1" "Atlas" (Some "Maps of the island") (Some "g1");
   product "p2" "Clay lamp" (Some "Hand made") None;
   product "p3" "Kettle" None (Some "g1")].

(** A category whose id is the name of a member of [Object.prototype], with
    and without a product filed under it. *)
Definition odd_categories : list Store.Category := [category "constructor" "Tools"].
Definition odd_products : list Store.Product :=
  [product "p1" "Hammer" (Some "Claw hammer") (Some "constructor")].

End Examples.

(** ** Concrete pages *)

Module Samples.

Import Store.

(** The shelf behind the categories table, with the delete dialog open on
    the category "g1". *)
Definition shelf : db :=
  {| orders := []; customers := [];
     categories := Examples.shelf_categories;
     products := Examples.shelf_products |}.

Definition shelf_dialog : Categories.world :=
  let rows := Categories.aggregate Examples.shelf_products Examples.shelf_categories in
  {| Categories.store := shelf;
     Categories.ui :=
       {| Categories.categories := rows; Categories.filteredCategories := rows;
          Categories.loading := false; Categories.searchQuery := "";
          Categories.deleteCategoryId := Some "g1" |} |}.

(** The orders collection as the customer's page sees it: two orders of
    the user "u1" and one of another user. *)
Definition history_order (k u t : string) : CustomerDetails.Order :=
  {| CustomerDetails.id := k; CustomerDetails.orderId := k;
     CustomerDetails.userId := Some u;
     CustomerDetails.createdAt := "2024-05-02T10:00:00.000Z";
     CustomerDetails.totalAmount := Some t;
     CustomerDetails.paymentStatus := "paid" |}.

Definition u1_history : list CustomerDetails.Order :=
  [history_order "o1" "u1" "10.005"; history_order "o2" "u2" "7";
   history_order "o3" "u1" "5"].

(** An order item whose price is not a number. *)
Definition garbled_item : OrderDetails.OrderProduct :=
  {| OrderDetails.productId := "p1"; OrderDetails.name := "Clay lamp";
     OrderDetails.quantity := 2; OrderDetails.price := "ten rupees" |}.

(** An identifier as [uuidv4()] returns one. *)
Definition fresh_id : string := "3f2b8c1e-7a4d-4e0b-9c55-1d2e3f4a5b6c".

(** The category form, in create mode, with a name typed in. *)
Definition new_category : CategoryForm.world :=
  {| CategoryForm.store := shelf;
     CategoryForm.ui := CategoryForm.handleInputChange "Pottery" CategoryForm.initial |}.

(** The product form, in create mode, with a name and a price typed in
    and a value of the category select chosen. *)
Definition today : string := "2024-05-03T08:00:00.000Z".

Definition lamp_form (categoryId : string) : ProductForm.state :=
  ProductForm.handleSelectChange ProductForm.CategoryId categoryId
    (ProductForm.handleInputChange ProductForm.Price "1200"
       (ProductForm.handleInputChange ProductForm.Name "Clay lamp"
          (ProductForm.fetchCategories (Some Examples.shelf_categories)
             (ProductForm.initial today)))).

Definition new_product (categoryId : string) : ProductForm.world :=
  {| ProductForm.store := shelf; ProductForm.ui := lamp_form categoryId |}.

(** The same form over a store all of whose products have a description. *)
Definition described : db :=
  {| orders := []; customers := [];
     categories := Examples.shelf_categories;
     products := [Examples.product "p1" "Atlas" (Some "Maps of the island") (Some "g1");
                  Examples.product "p2" "Kettle" (Some "") None] |}.

(** Rows of the customers table. *)
Definition island_rows : list Customers.Customer :=
  [ {| Customers.id := "c1"; Customers.userId := "Sri Lanka";
       Customers.createdAt := "2024-05-01T09:00:00.000Z";
       Customers.billingAddressId := None; Customers.shippingAddressId := None;
       Customers.totalAmount := "0.00"; Customers.orderCount := 0 |};
    {| Customers.id := "c2"; Customers.userId := "Kandy";
       Customers.createdAt := "2024-05-02T09:00:00.000Z";
       Customers.billingAddressId := None; Customers.shippingAddressId := None;
       Customers.totalAmount := "0.00"; Customers.orderCount := 0 |} ].

Definition described_product : ProductForm.world :=
  {| ProductForm.store := described; ProductForm.ui := lamp_form "g1" |}.

(** The product form opened on the product "p2" of the shelf, with a new
    name typed in. *)
Definition lamp_edit : ProductForm.world :=
  {| ProductForm.store := shelf;
     ProductForm.ui :=
       ProductForm.handleInputChange ProductForm.Name "Oil lamp"
         (ProductForm.fetchProduct (Some "p2") today
            (Some (Gateway.getProduct "p2" shelf)) (ProductForm.initial today)).1 |}.

(** Three orders of one user, two of them large and opposite, in two
    orders. *)
Definition large_orders : list Order :=
  [Examples.order "u1" "1e20"; Examples.order "u1" "0.01";
   Examples.order "u1" "-1e20"].

Definition swapped_orders : list Order :=
  [Examples.order "u1" "1e20"; Examples.order "u1" "-1e20";
   Examples.order "u1" "0.01"].

(** A picked file, and the form with images in S3 holding it. *)
Definition photo : Web.File :=
  {| Web.content := ["a"; "b"; "c"; "d"]%char; Web.mediaType := "image/png" |}.

Definition lamp_upload : ProductFormS3.world :=
  {| ProductFormS3.store := shelf;
     ProductFormS3.ui :=
       ProductFormS3.handleImageChange (Some photo) true
         (ProductFormS3.handleInputChange ProductFormS3.Name "Lamp"
            (ProductFormS3.initial today)) |}.

End Samples.

(** * Facts *)

(** ** Lists *)

Lemma filter_none {A} (P : A → Prop) `{!∀ x, Decision (P x)} (l : list A) :
  (∀ x, x ∈ l → ¬ P x) → filter P l = [].
Proof.
  induction l as [|x l IH]; intros Hno; [done|].
  rewrite filter_cons_False by (apply Hno; left).
  apply IH. intros y Hy. apply Hno. by right.
Qed.

Lemma List_filter_all {A} (f : A → bool) (l : list A) :
  (∀ x, f x = true) → List.filter f l = l.
Proof.
  intros Hf. induction l as [|x l IH]; [done|]. simpl. by rewrite Hf, IH.
Qed.

(** Taking rows out by a decidable property and keeping rows by a test can
    be done in either order. *)
Lemma filter_List_filter {A} (P : A → Prop) `{!∀ x, Decision (P x)}
    (f : A → bool) (l : list A) :
  filter P (List.filter f l) = List.filter f (filter P l).
Proof.
  induction l as [|x l IH]; [done|].
  simpl. rewrite filter_cons. destruct (f x) eqn:Hx, (decide (P x)); simpl;
    rewrite ?filter_cons, ?decide_True, ?decide_False, ?Hx by done;
    by rewrite ?IH.
Qed.

Lemma List_filter_idempotent {A} (f : A → bool) (l : list A) :
  List.filter f (List.filter f l) = List.filter f l.
Proof.
  induction l as [|x l IH]; [done|].
  simpl. destruct (f x) eqn:Hx; [|done]. simpl. by rewrite Hx, IH.
Qed.

(** ** The runtime primitives *)

Module JSFacts.

Import JS.

Lemma truthy_spec s : truthy s = true ↔ s ≠ "".
Proof. unfold truthy. by rewrite bool_decide_eq_true. Qed.

Lemma truthy_empty : truthy "" = false.
Proof. done. Qed.

Lemma append_truthy a c b : truthy (a +:+ String c b) = true.
Proof. apply truthy_spec. by destruct a. Qed.

Lemma append_cons c a b : String c a +:+ b = String c (a +:+ b).
Proof. reflexivity. Qed.

(** [includes] is the substring test. *)
Lemma prefix_spec q : ∀ s, String.prefix q s = true ↔ ∃ post, s = q +:+ post.
Proof.
  induction q as [|c q IH]; intros [|c' s]; simpl.
  - split; [by exists ""|done].
  - split; [by eexists|done].
  - split; [done|by intros [? ?]].
  - destruct (Ascii.ascii_dec c c') as [->|Hc].
    + rewrite IH. split; intros [post H]; exists post;
        rewrite append_cons in *; congruence.
    + split; [done|]. intros [post H]. rewrite append_cons in H. congruence.
Qed.

Lemma includes_unfold s q :
  includes s q = String.prefix q s ||
                 match s with String _ r => includes r q | EmptyString => false end.
Proof. by destruct s. Qed.

Lemma includes_spec s : ∀ q,
  includes s q = true ↔ ∃ pre post, s = pre +:+ q +:+ post.
Proof.
  induction s as [|c s IH]; intros q;
    rewrite includes_unfold, orb_true_iff, prefix_spec.
  - split.
    + intros [[post H]|?]; [|done]. by exists "", post.
    + intros (pre & post & H). left. destruct pre; [by exists post|done].
  - rewrite IH. split.
    + intros [[post H]|(pre & post & H)]; [by exists "", post|].
      exists (String c pre), post. by rewrite append_cons, H.
    + intros (pre & post & H). destruct pre as [|c' pre]; [left; by exists post|].
      right. exists pre, post. rewrite append_cons in H. congruence.
Qed.

Lemma includes_empty s : includes s "" = true.
Proof. apply includes_spec. by exists "", s. Qed.

Lemma length_append a b :
  String.length (a +:+ b) = (String.length a + String.length b)%nat.
Proof.
  induction a as [|c a IH]; [done|]. rewrite append_cons. simpl.
  by rewrite IH.
Qed.

Lemma length_toLowerCase s : String.length (toLowerCase s) = String.length s.
Proof. induction s as [|c s IH]; [done|]. simpl. by rewrite IH. Qed.

(** A text does not hold a longer one, letter case aside. *)
Lemma includes_longer s c :
  includes (toLowerCase s) (toLowerCase (s +:+ String c "")) = false.
Proof.
  apply not_true_is_false. intros (pre & post & H)%includes_spec.
  apply (f_equal String.length) in H.
  rewrite !length_append, !length_toLowerCase, length_append in H.
  simpl in H. lia.
Qed.

Lemma pretty_N_char_digit x : is_Some (digit_of (pretty_N_char x)).
Proof.
  unfold pretty_N_char.
  repeat case_match; vm_compute; by eexists.
Qed.

Lemma pretty_N_go_digits x : ∀ s,
  all_digits s = true → s ≠ "" →
  all_digits (pretty_N_go x s) = true ∧ pretty_N_go x s ≠ "".
Proof.
  induction (N.lt_wf_0 x) as [x _ IH]; intros s Hs Hne.
  destruct (decide (x = 0)%N) as [->|Hx].
  - by rewrite pretty_N_go_0.
  - rewrite pretty_N_go_step by lia. apply IH.
    + apply N.div_lt; lia.
    + simpl. rewrite Hs, andb_true_r.
      apply bool_decide_eq_true, pretty_N_char_digit.
    + done.
Qed.

Lemma pretty_digits (n : Z) :
  0 ≤ n → all_digits (pretty n) = true ∧ pretty n ≠ "".
Proof.
  intros Hn. destruct n as [|p|p]; [done| |lia].
  unfold pretty, pretty_Z, pretty, pretty_positive, pretty, pretty_N.
  case_decide; [done|].
  rewrite pretty_N_go_step by lia.
  apply pretty_N_go_digits; [|done].
  simpl. rewrite andb_true_r.
  apply bool_decide_eq_true, pretty_N_char_digit.
Qed.

Lemma decimal_digit_digit d : is_Some (digit_of (decimal_digit d)).
Proof.
  unfold decimal_digit.
  assert (Hd : 0 ≤ d mod 10 < 10) by (apply Z.mod_pos_bound; lia).
  assert (d mod 10 = 0 ∨ d mod 10 = 1 ∨ d mod 10 = 2 ∨ d mod 10 = 3 ∨
          d mod 10 = 4 ∨ d mod 10 = 5 ∨ d mod 10 = 6 ∨ d mod 10 = 7 ∨
          d mod 10 = 8 ∨ d mod 10 = 9) as Hc by lia.
  repeat (destruct Hc as [->|Hc]; [vm_compute; by eexists|]).
  rewrite Hc. vm_compute; by eexists.
Qed.

Lemma fixed2_two_decimals sign n :
  0 ≤ n → sign = "" ∨ sign = "-" → two_decimals (sign +:+ fixed2 n).
Proof.
  intros Hn Hsign.
  destruct (pretty_digits (n / 100)) as [Hd Hne]; [apply Z.div_pos; lia|].
  exists sign, (pretty (n / 100)), (decimal_digit (n / 10)), (decimal_digit n).
  repeat split; auto using decimal_digit_digit.
Qed.

Lemma ratio_pos m e p q : ratio m e = (p, q) → 0 < p ∧ 0 < q.
Proof.
  unfold ratio. case_match; intros [= <- <-]; split; lia.
Qed.

(** [toFixed(2)] never yields the empty text, so [x.toFixed(2) || d] is
    always its left operand. *)
Lemma toFixed2_truthy x : truthy (toFixed2 x) = true.
Proof.
  unfold toFixed2. destruct (Prim2SF x) as [[]|[]| |s m e]; try done.
  destruct (ratio m e) as [p q]. case_match.
  - unfold exponent_notation. destruct (shortest_digits _ _ _ _) as [d n].
    destruct s, (pretty d); simpl; try done; apply truthy_spec; done.
  - unfold fixed2. destruct s; simpl; [done|]. apply append_truthy.
Qed.

Lemma two_decimals_zero : two_decimals "0.00".
Proof.
  exists "", "0", "0"%char, "0"%char.
  repeat split; auto; vm_compute; by eexists.
Qed.

(** Text with two decimals has its point in the third place from the end. *)
Lemma two_decimals_point s :
  two_decimals s →
  ∃ front d1 d2, s = front +:+ String "." (String d1 (String d2 "")).
Proof.
  intros (sign & whole & d1 & d2 & -> & _). exists (sign +:+ whole), d1, d2.
  induction sign as [|c sign IH]; [done|]. by rewrite !append_cons, IH.
Qed.

Lemma point_in_third_place front d1 d2 s :
  front +:+ String "." (String d1 (String d2 "")) = s →
  match String.length s with
  | S (S (S n)) => String.get n s = Some "."%char
  | _ => False
  end.
Proof.
  intros <-. induction front as [|c front IH]; [done|].
  rewrite append_cons. simpl String.length.
  by destruct (String.length _) as [|[|[|n]]].
Qed.

(** A finite Number below 10^21 in magnitude is printed with exactly two
    decimals. *)
Lemma toFixed2_plain x : plain x → two_decimals (toFixed2 x).
Proof.
  unfold plain, toFixed2. destruct (Prim2SF x) as [[]|[]| |s m e]; try done.
  - intros _. apply two_decimals_zero.
  - intros _. apply two_decimals_zero.
  - destruct (ratio m e) as [p q] eqn:Hr. intros Hlt.
    destruct (ratio_pos _ _ _ _ Hr) as [Hp Hq].
    destruct (Z.leb_spec (10 ^ 21 * q) p); [lia|].
    apply fixed2_two_decimals.
    + apply Z.div_pos; lia.
    + destruct s; auto.
Qed.

End JSFacts.

(** ** The customer spend aggregator *)

Module CustomersFacts.

Import Store Customers.

(** *** The grouping pass *)

Lemma visit_is_Some h o : is_Some (visit h o).
Proof.
  unfold visit. destruct (o_userId o) as [k|]; [|by eexists].
  case_match; [|by eexists].
  unfold add_to, ensure, read.
  destruct (customerOrders h !! k) eqn:Hk; simpl.
  - rewrite Hk. by eexists.
  - destruct (JS.inherited k) eqn:Hi; simpl.
    + rewrite Hk. by eexists.
    + destruct (_ && _); simpl; rewrite lookup_insert_eq; by eexists.
Qed.

Lemma groupOrders_is_Some os : ∀ h, is_Some (groupOrders h os).
Proof.
  induction os as [|o os IH]; intros h; simpl; [by eexists|].
  destruct (visit_is_Some h o) as [h' ->]. apply IH.
Qed.

(** What one order does to the accumulator of a key that is not a member of
    [Object.prototype]. *)
Lemma visit_lookup h o h' k :
  JS.inherited k = false → visit h o = Some h' →
  customerOrders h' !! k =
    if decide (o_userId o = Some k ∧ k ≠ "")
    then Some (bump (default acc0 (customerOrders h !! k)) o)
    else customerOrders h !! k.
Proof.
  intros Hk. unfold visit.
  destruct (o_userId o) as [k'|] eqn:Hu; [|intros [= <-]; by case_decide as H; [destruct H|]].
  destruct (JS.truthy k') eqn:Ht.
  2:{ intros [= <-]. case_decide as H; [|done]. destruct H as [[= ->] H].
      apply JSFacts.truthy_spec in H. congruence. }
  apply JSFacts.truthy_spec in Ht.
  unfold add_to, ensure, read.
  destruct (decide (k' = k)) as [->|Hne].
  - rewrite decide_True by done. rewrite Hk.
    destruct (customerOrders h !! k) as [a|] eqn:Ha; simpl.
    + rewrite Ha. intros [= <-]; simpl. by rewrite lookup_insert_eq.
    + destruct (_ && _); simpl; rewrite lookup_insert_eq; intros [= <-]; simpl;
        by rewrite lookup_insert_eq.
  - rewrite decide_False by (intros [[= ?] _]; done).
    destruct (customerOrders h !! k') as [a|] eqn:Ha; simpl.
    + rewrite Ha. intros [= <-]; simpl. by rewrite lookup_insert_ne.
    + destruct (JS.inherited k') eqn:Hi; simpl.
      * rewrite Ha. by intros [= <-].
      * destruct (_ && _); simpl; rewrite lookup_insert_eq; intros [= <-]; simpl;
          by rewrite !lookup_insert_ne.
Qed.

Lemma groupOrders_lookup os : ∀ h h' k,
  JS.inherited k = false → groupOrders h os = Some h' →
  customerOrders h' !! k = tally (customerOrders h !! k) (orders_of k os).
Proof.
  induction os as [|o os IH]; intros h h' k Hk; simpl.
  - by intros [= <-].
  - destruct (visit h o) as [h1|] eqn:Hv; [simpl|done]. intros Hg.
    rewrite (IH _ _ _ Hk Hg), (visit_lookup _ _ _ _ Hk Hv).
    unfold orders_of. rewrite filter_cons. by case_decide.
Qed.

Lemma tally_Some os : ∀ a,
  tally (Some a) os =
    Some {| total := fold_left (fun t o => (t + amount o)%float) os (total a);
            count := count a + length os |}.
Proof.
  induction os as [|o os IH]; intros [t n]; simpl.
  - by rewrite Nat.add_0_r.
  - rewrite IH. simpl. do 2 f_equal. lia.
Qed.

Lemma tally_None os :
  tally None os =
    match os with
    | [] => None
    | _ => Some {| total := spend os; count := length os |}
    end.
Proof. destruct os as [|o os]; [done|]. simpl. by rewrite tally_Some. Qed.

(** The pass keeps no accumulator of its own under the name of a member of
    [Object.prototype], and writes on such a member exactly when an order
    carries its name. *)
Lemma visit_written h o h' :
  (∀ k, JS.inherited k = true → customerOrders h !! k = None) →
  visit h o = Some h' →
  (∀ k, JS.inherited k = true → customerOrders h' !! k = None) ∧
  (∀ k, k ∈ written h' ↔
        k ∈ written h ∨ (JS.inherited k = true ∧ o_userId o = Some k)).
Proof.
  intros Hinv. unfold visit. destruct (o_userId o) as [k'|]; last first.
  { intros [= <-]. split; [done|]. intros k. split; [auto|].
    by intros [?|[_ ?]]. }
  destruct (JS.truthy k') eqn:Ht; last first.
  { intros [= <-]. split; [done|]. intros k. split; [auto|].
    intros [?|[Hk [= ->]]]; [done|].
    apply bool_decide_eq_false in Ht. apply dec_stable in Ht as ->. done. }
  unfold add_to, ensure, read.
  destruct (customerOrders h !! k') as [a|] eqn:Ha; simpl.
  - rewrite Ha. intros [= <-]; simpl. split.
    + intros k Hk. destruct (decide (k = k')) as [->|Hne].
      * by rewrite (Hinv _ Hk) in Ha.
      * rewrite lookup_insert_ne by done. auto.
    + intros k. split; [auto|]. intros [?|[Hk [= ->]]]; [done|].
      by rewrite (Hinv _ Hk) in Ha.
  - destruct (JS.inherited k') eqn:Hi; simpl.
    + rewrite Ha. intros [= <-]; simpl. split; [done|].
      intros k. rewrite elem_of_union, elem_of_singleton. split.
      * intros [->|?]; [right|left]; done.
      * intros [?|[_ [= ->]]]; auto.
    + destruct (_ && _); simpl; rewrite lookup_insert_eq; intros [= <-]; simpl;
        (split;
         [intros k Hk; rewrite !lookup_insert_ne by (intros <-; congruence); auto
         |intros k; split; [auto|]; intros [?|[Hk [= ->]]]; [done|congruence]]).
Qed.

Lemma groupOrders_written os : ∀ h h',
  (∀ k, JS.inherited k = true → customerOrders h !! k = None) →
  groupOrders h os = Some h' →
  (∀ k, JS.inherited k = true → customerOrders h' !! k = None) ∧
  (∀ k, k ∈ written h' ↔
        k ∈ written h ∨ (JS.inherited k = true ∧ Some k ∈ o_userId <$> os)).
Proof.
  induction os as [|o os IH]; intros h h' Hinv; simpl.
  - intros [= <-]. split; [done|]. intros k. split; [auto|].
    intros [?|[_ H]]; [done|]. by apply elem_of_nil in H.
  - destruct (visit h o) as [h1|] eqn:Hv; [simpl|done]. intros Hg.
    destruct (visit_written _ _ _ Hinv Hv) as [Hinv1 Hw1].
    destruct (IH _ _ Hinv1 Hg) as [Hinv' Hw']. split; [done|].
    intros k. rewrite Hw', Hw1, elem_of_cons. split.
    + intros [[?|[? ?]]|[? ?]]; auto.
    + intros [?|[? [?|?]]]; auto.
Qed.

Lemma grouped page os :
  ∃ h, groupOrders {| customerOrders := ∅; written := page |} os = Some h ∧
       heap_of page os h.
Proof.
  destruct (groupOrders_is_Some os {| customerOrders := ∅; written := page |})
    as [h Hh].
  exists h. split; [done|].
  destruct (groupOrders_written os _ _ (fun k _ => lookup_empty k) Hh)
    as [Hinv Hw].
  split; [done|]. split; [|done].
  intros k Hk. by rewrite (groupOrders_lookup _ _ _ _ Hk Hh).
Qed.

Lemma heap_of_prototype page os h :
  heap_of page os h →
  bool_decide ("__proto__" ∈ written h) = prototype_written page os.
Proof.
  intros (_ & _ & Hw). unfold prototype_written. apply bool_decide_ext.
  rewrite Hw. split.
  - intros [?|[_ ?]]; auto.
  - intros [?|?]; auto.
Qed.

(** *** The rows *)

Lemma toRow_any h page os d r :
  heap_of page os h → toRow h d = Some r → any_row page os d r.
Proof.
  intros Hh. assert (Hp := heap_of_prototype _ _ _ Hh).
  destruct Hh as (Hinv & Hl & Hw).
  unfold toRow, read, any_row.
  destruct (JS.inherited (c_userId d)) eqn:Hi.
  - rewrite (Hinv _ Hi). case_match; [|done]. by intros [= <-].
  - rewrite (Hl _ Hi), tally_None, Hp. unfold shadowed.
    destruct (orders_of (c_userId d) os) as [|o mine].
    + destruct (_ && _); by intros [= <-].
    + intros [= <-]. simpl. unfold string_or.
      by rewrite JSFacts.toFixed2_truthy.
Qed.

Lemma toRow_is_Some h page os d :
  heap_of page os h → JS.inherited (c_userId d) = false → is_Some (toRow h d).
Proof.
  intros (_ & Hl & _) Hi. unfold toRow, read. rewrite (Hl _ Hi), Hi.
  destruct (tally None _); [by eexists|]. destruct (_ && _); by eexists.
Qed.

(** The rows of the aggregation, when it returns, are one per customer
    document, as [any_row] says. *)
Lemma aggregate_rows page os docs rows :
  aggregate page os docs = Some rows → Forall2 (any_row page os) docs rows.
Proof.
  unfold aggregate. destruct (grouped page os) as (h & -> & Hh). simpl.
  intros HF%mapM_Some. induction HF as [|d r docs rows Hr _ IH]; constructor;
    [|done].
  by apply (toRow_any h).
Qed.

(** The aggregation returns when no customer is named like a member of
    [Object.prototype]. *)
Lemma aggregate_is_Some page os docs :
  Forall (fun d => JS.inherited (c_userId d) = false) docs →
  is_Some (aggregate page os docs).
Proof.
  intros Hdocs. unfold aggregate.
  destruct (grouped page os) as (h & -> & Hh). simpl.
  induction Hdocs as [|d docs Hd _ [rows Hrows]]; [by eexists|].
  destruct (toRow_is_Some h page os d Hh Hd) as [r Hr].
  exists (r :: rows). apply mapM_Some. constructor; [done|]. by apply mapM_Some.
Qed.

Lemma any_row_built page os d r :
  JS.inherited (c_userId d) = false →
  shadowed page os (c_userId d) = false ∨ orders_of (c_userId d) os ≠ [] →
  any_row page os d r → built_row os d r.
Proof.
  intros Hi Hs (? & ? & ? & ? & ? & Hn & Ht). rewrite Hi in Hn, Ht.
  unfold built_row. do 5 (split; [done|]). split; [done|].
  destruct (orders_of (c_userId d) os) as [|o mine] eqn:Hm.
  - destruct Hs as [Hs|Hs]; [|done]. rewrite Hs in Ht. rewrite Ht, Hn.
    split; [done|]. split; [|done]. intros _. apply JSFacts.two_decimals_zero.
  - rewrite Ht. split; [done|]. split; [|done]. apply JSFacts.toFixed2_plain.
Qed.

Lemma any_row_count page os d r :
  JS.inherited (c_userId d) = false → any_row page os d r →
  id r = c_id d ∧ orderCount r = length (orders_of (c_userId d) os).
Proof. intros Hi (? & ? & ? & ? & ? & Hn & _). by rewrite Hi in Hn. Qed.

(** *** An amount that is not a number *)

Lemma amount_unparseable o : unparseable (o_totalAmount o) → amount o = 0%float.
Proof. unfold amount, JS.number_or, unparseable. by intros ->. Qed.

Lemma visit_same_amount h o o' :
  o_userId o' = o_userId o → amount o' = amount o → visit h o' = visit h o.
Proof.
  intros Hu Ha. unfold visit. rewrite Hu. destruct (o_userId o) as [k|]; [|done].
  case_match; [|done]. unfold add_to, bump. by rewrite Ha.
Qed.

Lemma groupOrders_same_amount o o' before after : ∀ h,
  o_userId o' = o_userId o → amount o' = amount o →
  groupOrders h (before ++ o' :: after) = groupOrders h (before ++ o :: after).
Proof.
  intros h Hu Ha. revert h. induction before as [|b before IH]; intros h; simpl.
  - by rewrite (visit_same_amount h o o').
  - destruct (visit h b); simpl; [apply IH|done].
Qed.

Lemma spend_app l l' :
  spend (l ++ l') = fold_left (fun t o => (t + amount o)%float) l' (spend l).
Proof. unfold spend. by rewrite fold_left_app. Qed.

(** *** Adding the counts up *)

Lemma sum_list_indicator {A} (P : A → Prop) `{!∀ x, Decision (P x)}
    (g : A → nat) (l : list A) :
  sum_list ((fun x => (if decide (P x) then 1 else 0) + g x)%nat <$> l)
  = (length (filter P l) + sum_list (g <$> l))%nat.
Proof.
  induction l as [|x l IH]; [done|].
  rewrite filter_cons. csimpl. rewrite IH. case_decide; simpl; lia.
Qed.

Lemma sum_orders_of os docs :
  one_customer_each os docs →
  sum_list ((fun d => length (orders_of (c_userId d) os)) <$> docs)
  = length (filter (fun o => o_userId o ≠ Some "" ∧
                             o_userId o ∈ (Some ∘ c_userId) <$> docs) os).
Proof.
  induction os as [|o os IH]; intros H.
  - simpl. induction docs as [|d docs IHd]; [done|]. csimpl. apply IHd.
    intros o Ho. by apply elem_of_nil in Ho.
  - assert (Ho := H o ltac:(left)).
    assert (IH' := IH (fun o' Ho' => H o' (list_elem_of_further _ _ _ Ho'))).
    clear IH.
    erewrite (list_fmap_ext _ (fun d => ((if decide (o_userId o = Some (c_userId d)
                  ∧ c_userId d ≠ "") then 1 else 0)
                + length (orders_of (c_userId d) os))%nat)); last first.
    { intros _ d _. unfold orders_of. rewrite filter_cons. by case_decide. }
    rewrite sum_list_indicator, IH', filter_cons.
    destruct (decide (o_userId o = Some "")) as [He|Hne].
    + rewrite decide_False by (intros [? _]; done).
      rewrite filter_none; [done|].
      intros d _ [Hd Hn]. congruence.
    + assert (o_userId o ∈ (Some ∘ c_userId) <$> docs) as Hin.
      { destruct (filter (fun d => o_userId o = Some (c_userId d)) docs)
          as [|d ?] eqn:Hf; [done|].
        assert (d ∈ filter (fun d => o_userId o = Some (c_userId d)) docs) as Hd
          by (rewrite Hf; left).
        apply list_elem_of_filter in Hd as [-> Hd].
        apply list_elem_of_fmap. by exists d. }
      rewrite decide_True by done. simpl.
      rewrite (list_filter_iff _ (fun d => o_userId o = Some (c_userId d))).
      * by rewrite Ho.
      * intros d. split; [by intros [? _]|].
        intros Hd. split; [done|]. intros Hblank. by rewrite Hd, Hblank in Hne.
Qed.

(** *** The properties *)

(** C1, as the contract states it, fails: a customer document whose
    [userId] is the empty text gets order count 0 although one order carries
    that very [userId], because the pass skips every order whose [userId] is
    falsy. *)
Lemma stated_contract_fails_on_blank_userId :
  ¬ stated_contract ∅ Examples.blank_orders Examples.blank_customers.
Proof.
  intros (rows & Hagg & HF). vm_compute in Hagg. injection Hagg as <-.
  apply Forall2_cons_1 in HF as [(_ & _ & Hc & _) _].
  vm_compute in Hc. discriminate.
Qed.

(** C1, amended: for customers whose [userId] is not the name of a member
    of [Object.prototype], and is not "total" or "count" when an order with
    the [userId] "__proto__" or an earlier run on the page has written on
    [Object.prototype], the aggregator produces exactly one row per
    customer, in order; its [orderCount] is the number of orders whose
    [userId] is present, not empty and equal to the customer's; its
    [totalAmount] is [toFixed(2)] of the binary64 sum of their parsed amounts,
    taken in store order from 0, which has exactly two decimals whenever that
    sum is finite and below 10^21 in magnitude; a customer without such
    orders gets "0.00" and 0. *)
Theorem customer_rows page os docs :
  Forall (ordinary page os) docs →
  ∃ rows, aggregate page os docs = Some rows ∧ Forall2 (built_row os) docs rows.
Proof.
  intros Hdocs.
  destruct (aggregate_is_Some page os docs) as [rows Hagg].
  { eapply Forall_impl; [exact Hdocs|]. by intros d [? _]. }
  exists rows. split; [done|].
  assert (HF := aggregate_rows _ _ _ _ Hagg). clear Hagg.
  induction HF as [|d r docs rows Hr _ IH]; [constructor|].
  apply Forall_cons in Hdocs as [[Hi Hs] Hdocs].
  constructor; [|by apply IH].
  apply (any_row_built page); auto.
Qed.

Lemma customer_rows_witness :
  Forall (ordinary ∅ Examples.u1_orders) Examples.u1_customers ∧
  ∃ rows, aggregate ∅ Examples.u1_orders Examples.u1_customers = Some rows ∧
          Forall2 (built_row Examples.u1_orders) Examples.u1_customers rows.
Proof.
  split; [|apply customer_rows]; repeat constructor.
Defined.

(** The scenario of section 8: two orders of 10.005 and 5 add up to the
    Number 15.005000000000001, printed as "15.01". *)
Lemma section8_customer_scenario :
  aggregate ∅ Examples.u1_orders Examples.u1_customers =
    Some [{| id := "c1"; userId := "u1"; createdAt := "2024-05-01T09:00:00.000Z";
             billingAddressId := None; shippingAddressId := None;
             totalAmount := "15.01"; orderCount := 2 |}].
Proof. by vm_compute. Qed.

(** The two other limits of the contract.  A total of 10^21 or more is
    printed in exponent notation, without decimals. *)
Lemma huge_total_has_no_decimals :
  ∃ r, aggregate ∅ Examples.huge_orders Examples.u1_customers = Some [r] ∧
       totalAmount r = "1e+21" ∧ ¬ JS.two_decimals (totalAmount r).
Proof.
  eexists. split; [by vm_compute|]. split; [done|]. simpl.
  intros (front & d1 & d2 & H)%JSFacts.two_decimals_point.
  symmetry in H. apply JSFacts.point_in_third_place in H. by vm_compute in H.
Qed.

(** A customer whose [userId] names a member of [Object.prototype] makes the
    aggregation throw when no order has written on that member, and is given
    "NaN" and no orders when one has. *)
Lemma inherited_userId_throws :
  aggregate ∅ [] Examples.odd_customers = None.
Proof. by vm_compute. Qed.

Lemma inherited_userId_counts_nothing :
  one_customer_each Examples.odd_orders Examples.odd_customers ∧
  ∃ r, aggregate ∅ Examples.odd_orders Examples.odd_customers = Some [r] ∧
       totalAmount r = "NaN" ∧ orderCount r = 0%nat.
Proof.
  split.
  - intros o Ho. apply list_elem_of_singleton in Ho as ->. done.
  - eexists. split; [by vm_compute|]. done.
Qed.

(** A customer named "total" who has no orders is given "NaN" once an
    order with the [userId] "__proto__" has been booked, in this run or in an
    earlier one on the page. *)
Lemma shadowed_userId_shows_NaN :
  (∃ r, aggregate ∅ Examples.proto_orders Examples.total_customers = Some [r] ∧
        totalAmount r = "NaN" ∧ orderCount r = 0%nat) ∧
  (∃ r, aggregate {["__proto__"]} [] Examples.total_customers = Some [r] ∧
        totalAmount r = "NaN" ∧ orderCount r = 0%nat) ∧
  (∃ r, aggregate ∅ [] Examples.total_customers = Some [r] ∧
        totalAmount r = "0.00" ∧ orderCount r = 0%nat).
Proof.
  split; [|split]; (eexists; split; [by vm_compute|done]).
Qed.

(** C2, as section 8 states it, fails even under the invariant of section
    3: the blank customer is the one customer of the blank order, the order's
    [userId] is among the customers' user ids, and yet the counts add up to 0. *)
Lemma stated_count_fails_on_blank_userId :
  one_customer_each Examples.blank_orders Examples.blank_customers ∧
  ¬ stated_count ∅ Examples.blank_orders Examples.blank_customers.
Proof.
  split.
  - intros o Ho. apply list_elem_of_singleton in Ho as ->. done.
  - intros (rows & Hagg & Hsum). vm_compute in Hagg. injection Hagg as <-.
    vm_compute in Hsum. discriminate.
Qed.

(** C2, amended: when every order's [userId] is the [userId] of exactly one
    customer, and no customer's [userId] is the name of a member of
    [Object.prototype], the rows' order counts add up to the number of orders
    whose [userId] is not empty and is one of the customers' user ids. *)
Theorem order_counts_add_up page os docs :
  one_customer_each os docs →
  Forall (fun d => JS.inherited (c_userId d) = false) docs →
  ∃ rows, aggregate page os docs = Some rows ∧
    sum_list (orderCount <$> rows)
    = length (filter (fun o => o_userId o ≠ Some "" ∧
                               o_userId o ∈ (Some ∘ c_userId) <$> docs) os).
Proof.
  intros Hone Hdocs.
  destruct (aggregate_is_Some page os docs Hdocs) as [rows Hagg].
  exists rows. split; [done|]. rewrite <- sum_orders_of by done.
  assert (HF := aggregate_rows _ _ _ _ Hagg). clear Hagg Hone.
  induction HF as [|d r docs rows Hr _ IH]; [done|].
  apply Forall_cons in Hdocs as [Hi Hdocs].
  csimpl. rewrite (IH Hdocs). by destruct (any_row_count _ _ _ _ Hi Hr) as [_ ->].
Qed.

Lemma order_counts_add_up_witness :
  one_customer_each Examples.u1_orders Examples.u1_customers ∧
  Forall (fun d => JS.inherited (c_userId d) = false) Examples.u1_customers ∧
  ∃ rows, aggregate ∅ Examples.u1_orders Examples.u1_customers = Some rows ∧
    sum_list (orderCount <$> rows)
    = length (filter (fun o => o_userId o ≠ Some "" ∧
                o_userId o ∈ (Some ∘ c_userId) <$> Examples.u1_customers)
              Examples.u1_orders).
Proof.
  assert (H1 : one_customer_each Examples.u1_orders Examples.u1_customers).
  { intros o Ho. repeat (apply elem_of_cons in Ho as [->|Ho]; [reflexivity|]).
    by apply elem_of_nil in Ho. }
  assert (H2 : Forall (fun d => JS.inherited (c_userId d) = false)
                 Examples.u1_customers) by repeat constructor.
  exact (conj H1 (conj H2 (order_counts_add_up ∅ _ _ H1 H2))).
Defined.

(** C8: an order whose [totalAmount] is missing or does not parse as a
    number contributes the amount 0: the grouping pass returns a heap for
    every list of orders that contains it, the aggregation gives what it
    gives for the same orders with the amount "0" in its place, and the row
    of its customer, when the customer's [userId] is not the name of a member
    of [Object.prototype], counts the order and has 0 added to its total
    where the order stands.  For a customer named "constructor" none of
    this holds: the order whose amount is not a number leaves the row at
    "NaN" and 0 orders, and with an order of another user only, the
    aggregation throws. *)
Theorem malformed_amount_counts_as_zero :
  (∀ o, o_totalAmount o = None ∨ unparseable (o_totalAmount o) →
     amount o = 0%float ∧
     (∀ a, bump a o = {| total := total a + 0; count := S (count a) |}) ∧
     (∀ h before after, is_Some (groupOrders h (before ++ o :: after))) ∧
     (∀ page before after docs,
        aggregate page (before ++ o :: after) docs
        = aggregate page (before ++ zeroed o :: after) docs) ∧
     (∀ page before after docs rows i d r,
        aggregate page (before ++ o :: after) docs = Some rows →
        docs !! i = Some d → rows !! i = Some r →
        o_userId o = Some (c_userId d) → c_userId d ≠ "" →
        JS.inherited (c_userId d) = false →
        orderCount r = S (length (orders_of (c_userId d) (before ++ after))) ∧
        totalAmount r
        = JS.toFixed2 (fold_left (fun t o' => (t + amount o')%float)
                         (orders_of (c_userId d) after)
                         (spend (orders_of (c_userId d) before) + 0)%float))) ∧
  unparseable (o_totalAmount Examples.garbled_odd_order) ∧
  aggregate ∅ [Examples.garbled_odd_order] Examples.odd_customers
  = Some [{| id := "c1"; userId := "constructor";
             createdAt := "2024-05-01T09:00:00.000Z";
             billingAddressId := None; shippingAddressId := None;
             totalAmount := "NaN"; orderCount := 0 |}] ∧
  aggregate ∅ [Examples.garbled_order] Examples.odd_customers = None.
Proof.
  split; [|by vm_compute].
  intros o Hbad.
  assert (Hnan : unparseable (o_totalAmount o)).
  { destruct Hbad as [->|H]; [reflexivity|done]. }
  assert (Hzero := amount_unparseable o Hnan).
  split; [done|]. split; [|split; [|split]].
  - intros a. unfold bump. by rewrite Hzero.
  - intros h before after. apply groupOrders_is_Some.
  - intros page before after docs. unfold aggregate.
    by rewrite (groupOrders_same_amount o (zeroed o)).
  - intros page before after docs rows i d r Hagg Hd Hr Hu Hne Hi.
    assert (HF := aggregate_rows _ _ _ _ Hagg).
    destruct (Forall2_lookup_l _ _ _ _ _ HF Hd) as (r' & Hr' & Hany).
    assert (r' = r) as -> by congruence.
    destruct Hany as (_ & _ & _ & _ & _ & Hn & Ht). rewrite Hi in Hn, Ht.
    assert (orders_of (c_userId d) (before ++ o :: after)
            = orders_of (c_userId d) before ++ o :: orders_of (c_userId d) after)
      as Hmine.
    { unfold orders_of. rewrite filter_app, filter_cons.
      by rewrite decide_True. }
    rewrite Hmine in Hn, Ht. split.
    + rewrite Hn. unfold orders_of. rewrite filter_app, !length_app. simpl. lia.
    + rewrite Ht.
      destruct (orders_of (c_userId d) before ++ o :: orders_of (c_userId d) after)
        eqn:Hl; [by destruct (orders_of (c_userId d) before)|].
      rewrite <- Hl, spend_app. simpl. by rewrite Hzero.
Qed.

End CustomersFacts.

(** ** The product category-name resolver and the products table *)

Module ProductsFacts.

Import Store Products.

(** *** The map of category names *)

Lemma categoriesMap_fold_other gs : ∀ (m : gmap string string) k,
  k ∉ g_id <$> gs →
  fold_left (fun m g => <[g_id g := g_name g]> m) gs m !! k = m !! k.
Proof.
  induction gs as [|g gs IH]; intros m k Hk; [done|].
  simpl. rewrite IH by (intros ?; apply Hk; by right).
  apply lookup_insert_ne. intros <-. apply Hk. by left.
Qed.

Lemma categoriesMap_fold_member gs : ∀ (m : gmap string string) g,
  NoDup (g_id <$> gs) → g ∈ gs →
  fold_left (fun m g => <[g_id g := g_name g]> m) gs m !! g_id g = Some (g_name g).
Proof.
  induction gs as [|g0 gs IH]; intros m g Hnd Hg.
  - by apply elem_of_nil in Hg.
  - apply NoDup_cons in Hnd as [Hfresh Hnd]. simpl.
    apply elem_of_cons in Hg as [->|Hg]; [|by apply IH].
    rewrite categoriesMap_fold_other by done. apply lookup_insert_eq.
Qed.

Lemma categoriesMap_member gs g :
  NoDup (g_id <$> gs) → g ∈ gs → categoriesMap gs !! g_id g = Some (g_name g).
Proof. apply categoriesMap_fold_member. Qed.

Lemma categoriesMap_other gs k :
  k ∉ g_id <$> gs → categoriesMap gs !! k = None.
Proof. intros Hk. unfold categoriesMap. by rewrite categoriesMap_fold_other. Qed.

Lemma toRow_named gs p :
  NoDup (g_id <$> gs) → named_row gs p (toRow (categoriesMap gs) p).
Proof.
  intros Hnd. unfold named_row, toRow, categoryCell, resolve; simpl.
  repeat split. destruct (p_categoryId p) as [k|]; [|done].
  case_decide as Hk; [by subst|].
  rewrite (proj2 (JSFacts.truthy_spec k) Hk). split.
  - intros g Hg <-. by apply categoriesMap_member.
  - intros Hno. by rewrite categoriesMap_other.
Qed.

(** *** The search callback *)

Lemma hit_is_Some q p :
  is_Some (name p) → is_Some (description p) → is_Some (hit q p).
Proof.
  intros [n Hn] [d Hd]. unfold hit. rewrite Hn, Hd. repeat case_match; by eexists.
Qed.

(** The callback throws on a row without name, and on a row without
    description whose name does not hold the query. *)
Lemma hit_None q p :
  hit q p = None ↔
  name p = None ∨ (mentions q (name p) = false ∧ description p = None).
Proof.
  unfold hit, mentions.
  destruct (name p) as [n|]; simpl; [|by split; [left|]].
  destruct (JS.includes _ _) eqn:Hn.
  - split; [done|]. by intros [?|[? _]].
  - destruct (description p) as [d|].
    + split; [by case_match|]. by intros [?|[_ ?]].
    + split; [by right|done].
Qed.

Lemma keep_is_Some q rows :
  Forall (fun p => is_Some (name p) ∧ is_Some (description p)) rows →
  is_Some (keep q rows).
Proof.
  induction 1 as [|p rows [Hn Hd] _ [kept IH]]; simpl; [by eexists|].
  destruct (hit_is_Some q p Hn Hd) as [b ->]. rewrite IH. by eexists.
Qed.

Lemma keep_None q rows :
  keep q rows = None ↔ ∃ p, p ∈ rows ∧ hit q p = None.
Proof.
  induction rows as [|p rows IH]; simpl.
  - split; [done|]. by intros (p & Hp%elem_of_nil & _).
  - destruct (hit q p) as [b|] eqn:Hh; simpl.
    + destruct (keep q rows) as [kept|]; simpl.
      * split; [done|]. intros (p' & [->|Hp']%elem_of_cons & Hn); [congruence|].
        assert (Some kept = None) as Habs by (apply (proj2 IH); eauto). done.
      * split; [|done]. intros _. destruct (proj1 IH eq_refl) as (p' & Hp' & Hn).
        exists p'. split; [by right|done].
    + split; [|done]. intros _. exists p. split; [by left|done].
Qed.

Lemma keep_idempotent q : ∀ rows shown,
  keep q rows = Some shown → keep q shown = Some shown.
Proof.
  induction rows as [|p rows IH]; intros shown; simpl.
  - by intros [= <-].
  - destruct (hit q p) as [b|] eqn:Hh; [simpl|done].
    destruct (keep q rows) as [kept|] eqn:Hk; [simpl|done].
    intros [= <-]. specialize (IH kept eq_refl).
    destruct b; [|done]. simpl. by rewrite Hh, IH.
Qed.

Lemma search_idempotent q rows shown :
  search q rows = Some shown → search q shown = Some shown.
Proof.
  unfold search. case_match; [apply keep_idempotent|by intros [= <-]].
Qed.

(** *** The properties *)

(** C3, as the contract states it, fails on the scenario of section 8: the
    product points at a category that does not exist, and the
    [categoryName] attached to its row is undefined, not "Uncategorized". *)
Lemma stated_names_fail_on_dangling_id :
  ¬ stated_names Examples.dangling_products [].
Proof.
  intros H. apply Forall_cons_1 in H as [H _]. vm_compute in H. discriminate.
Qed.

(** C3, amended: every product gets one row, in order; the [categoryName]
    attached to it is the matching category's name when [categoryId] is set,
    not empty, and the id of a category; it is "Uncategorized" when
    [categoryId] is missing or empty; it is left undefined when [categoryId]
    is set but is the id of no category, and the category cell of the table
    then shows the text "Uncategorized".  In particular, for the single
    product with [categoryId] "missing" and no categories the attached name is
    undefined and the cell shows "Uncategorized". *)
Theorem category_names ps gs :
  NoDup (g_id <$> gs) →
  Forall2 (named_row gs) ps (aggregate ps gs) ∧
  (categoryName <$> aggregate Examples.dangling_products [] = [None] ∧
   cell_text ∘ categoryCell <$> aggregate Examples.dangling_products []
     = ["Uncategorized"]).
Proof.
  intros Hnd. split; [|done]. unfold aggregate.
  induction ps as [|p ps IH]; constructor; [by apply toRow_named|done].
Qed.

Lemma category_names_witness :
  NoDup (g_id <$> Examples.shelf_categories) ∧
  Forall2 (named_row Examples.shelf_categories) Examples.shelf_products
    (aggregate Examples.shelf_products Examples.shelf_categories).
Proof.
  assert (H : NoDup (g_id <$> Examples.shelf_categories))
    by (apply (bool_decide_unpack _); vm_compute; exact I).
  exact (conj H (proj1 (category_names _ _ H))).
Defined.

(** C7: a product whose [categoryId] is null or absent gets the name
    "Uncategorized", whatever the categories are. *)
Theorem missing_categoryId_is_Uncategorized ps gs r :
  r ∈ aggregate ps gs → categoryId r = None →
  categoryName r = Some "Uncategorized".
Proof.
  unfold aggregate. intros (p & -> & _)%list_elem_of_fmap. simpl.
  by intros ->.
Qed.

Lemma missing_categoryId_is_Uncategorized_witness :
  categoryName (toRow (categoriesMap Examples.shelf_categories)
                      (Examples.product "p2" "Clay lamp" (Some "Hand made") None))
  = Some "Uncategorized".
Proof.
  apply (missing_categoryId_is_Uncategorized
           Examples.shelf_products Examples.shelf_categories).
  - unfold aggregate, Examples.shelf_products.
    rewrite !fmap_cons. right. left.
  - reflexivity.
Defined.

(** C10: the products search is total only when the rows carry what it
    reads without a guard.  It returns a list under every query exactly when
    every row carries a name and a description: so a description on every
    row is needed.  It throws exactly under a non-empty query and
    when some row lacks its name, or lacks its description while its name
    does not hold the query; so a row without description makes it throw
    under every non-empty query that the row's name does not hold.  It does
    throw on the shelf, whose kettle has no description, under the query
    "lamp"; a row without [categoryName] does no harm, that read being
    guarded. *)
Theorem products_search_needs_descriptions :
  (∀ rows, (∀ q, is_Some (search q rows)) ↔
           Forall (fun p => is_Some (name p) ∧ is_Some (description p)) rows) ∧
  (∀ q rows, search q rows = None ↔
             q ≠ "" ∧
             ∃ p, p ∈ rows ∧
                  (name p = None ∨
                   (mentions q (name p) = false ∧ description p = None))) ∧
  (∀ q rows p, q ≠ "" → p ∈ rows → description p = None →
               mentions q (name p) = false → search q rows = None) ∧
  (∃ p, p ∈ aggregate Examples.shelf_products Examples.shelf_categories ∧
        description p = None) ∧
  search "lamp" (aggregate Examples.shelf_products Examples.shelf_categories) = None ∧
  (categoryName <$> aggregate Examples.dangling_products [] = [None] ∧
   search "books" (aggregate Examples.dangling_products []) = Some []).
Proof.
  assert (Hiff : ∀ q rows, search q rows = None ↔
            q ≠ "" ∧
            ∃ p, p ∈ rows ∧
                 (name p = None ∨
                  (mentions q (name p) = false ∧ description p = None))).
  { intros q rows. unfold search. destruct (JS.truthy q) eqn:Hq.
    - apply JSFacts.truthy_spec in Hq. rewrite keep_None. split.
      + intros (p & Hp & Hh). split; [done|]. exists p. by rewrite <- hit_None.
      + intros (_ & p & Hp & Hh). exists p. by rewrite hit_None.
    - split; [done|]. intros [Hne _]. apply JSFacts.truthy_spec in Hne.
      congruence. }
  split; [|split; [|split; [|split; [|split]]]].
  - intros rows. split.
    + intros Hall. apply Forall_forall. intros p Hp.
      destruct (name p) as [n|] eqn:Hn; last first.
      { destruct (Hall "x") as [shown Hs].
        assert (search "x" rows = None) as Hx; [|congruence].
        apply Hiff. split; [done|]. exists p. auto. }
      split; [by eexists|].
      destruct (description p) as [t|] eqn:Ht; [by eexists|].
      destruct (Hall (n +:+ "x")) as [shown Hs].
      assert (search (n +:+ "x") rows = None) as Hx; [|congruence].
      apply Hiff. split; [by destruct n|]. exists p. split; [done|]. right.
      split; [|done]. rewrite Hn. apply JSFacts.includes_longer.
    + intros H q. unfold search.
      case_match; [by apply keep_is_Some|by eexists].
  - exact Hiff.
  - intros q rows p Hq Hp Hd Hn. apply Hiff. eauto 6.
  - eexists. split; [do 2 right; left|done].
  - by vm_compute.
  - by vm_compute.
Qed.

End ProductsFacts.

(** ** The category product counts and the guarded delete *)

Module CategoriesFacts.

Import Store Categories.

(** *** Counting *)

Lemma countProduct_lookup m p k :
  k ≠ "" → JS.inherited k = false →
  countProduct m p !! k =
    if decide (p_categoryId p = Some k) then step (m !! k) else m !! k.
Proof.
  intros Hne Hk. unfold countProduct.
  destruct (p_categoryId p) as [k'|]; [|by rewrite decide_False].
  destruct (decide (k' = k)) as [->|Hk'].
  - rewrite decide_True by done.
    rewrite (proj2 (JSFacts.truthy_spec k) Hne). unfold write, read.
    rewrite bool_decide_eq_false_2 by (intros ->; done).
    rewrite lookup_insert_eq, Hk. by destruct (m !! k).
  - rewrite decide_False by congruence.
    case_match; [|done]. unfold write. case_bool_decide; [done|].
    by rewrite lookup_insert_ne.
Qed.

Lemma countProducts_fold ps : ∀ m k,
  k ≠ "" → JS.inherited k = false →
  fold_left countProduct ps m !! k = Nat.iter (filed_under k ps) step (m !! k).
Proof.
  unfold filed_under.
  induction ps as [|p ps IH]; intros m k Hne Hk; [done|].
  simpl. rewrite IH, countProduct_lookup, filter_cons by done.
  case_decide; [|done]. symmetry. apply Nat.iter_succ_r.
Qed.

Lemma iter_step_None n :
  Nat.iter n step None = match n with O => None | _ => Some (Number n) end.
Proof.
  induction n as [|n IH]; [done|]. simpl. rewrite IH. by destruct n.
Qed.

(** For a category id that is not empty and not the name of a member of
    [Object.prototype], the row's count is the number of products filed
    under it. *)
Lemma toRow_count ps g :
  g_id g ≠ "" → JS.inherited (g_id g) = false →
  productCount (toRow (countProducts ps) g) = Number (filed_under (g_id g) ps).
Proof.
  intros Hne Hk. unfold toRow, countProducts, read; simpl.
  rewrite countProducts_fold, lookup_empty, iter_step_None, Hk by done.
  by destruct (filed_under _ _).
Qed.

Lemma aggregate_counts ps gs :
  Forall2 (fun g r =>
             id r = g_id g ∧ name r = g_name g ∧
             (g_id g ≠ "" → JS.inherited (g_id g) = false →
              productCount r = Number (filed_under (g_id g) ps)))
          gs (aggregate ps gs).
Proof.
  unfold aggregate. induction gs as [|g gs IH]; constructor; [|done].
  repeat split. apply toRow_count.
Qed.

(** Under a key that names a member of [Object.prototype] the pass never
    holds a number. *)
Lemma countProduct_inherited m p :
  (∀ k n, JS.inherited k = true → m !! k ≠ Some (Number n)) →
  ∀ k n, JS.inherited k = true → countProduct m p !! k ≠ Some (Number n).
Proof.
  intros Hm k n Hk. unfold countProduct.
  destruct (p_categoryId p) as [k'|]; [|by apply Hm].
  case_match; [|by apply Hm]. unfold write. case_bool_decide; [by apply Hm|].
  destruct (decide (k' = k)) as [->|Hne]; [|rewrite lookup_insert_ne by done; by apply Hm].
  rewrite lookup_insert_eq. unfold read. rewrite Hk.
  destruct (m !! k) as [[n'|]|] eqn:Hl; [|done..]. by destruct (Hm k n' Hk).
Qed.

Lemma countProducts_inherited ps k n :
  JS.inherited k = true → countProducts ps !! k ≠ Some (Number n).
Proof.
  unfold countProducts. intros Hk.
  assert (∀ k n, JS.inherited k = true →
                 (∅ : gmap string value) !! k ≠ Some (Number n)) as H0 by done.
  revert H0. generalize (∅ : gmap string value).
  induction ps as [|p ps IH]; intros m Hm; simpl; [by apply Hm|].
  apply IH. by apply countProduct_inherited.
Qed.

Lemma toRow_inherited ps g :
  JS.inherited (g_id g) = true →
  productCount (toRow (countProducts ps) g) = Other.
Proof.
  intros Hk. unfold toRow, read; simpl. rewrite Hk.
  destruct (countProducts ps !! g_id g) as [[n|]|] eqn:Hl; [|done..].
  by destruct (countProducts_inherited ps (g_id g) n Hk).
Qed.

(** Products without category id, or with an empty one, are in no count. *)
Lemma countProduct_skips m p :
  p_categoryId p = None ∨ p_categoryId p = Some "" → countProduct m p = m.
Proof. unfold countProduct. by intros [->| ->]. Qed.

(** *** The guard of the delete *)

Lemma handleDelete_blocked reply w k c n :
  deleteCategoryId (ui w) = Some k → k ≠ "" →
  List.find (fun c => bool_decide (id c = k)) (categories (ui w)) = Some c →
  productCount c = Number (S n) →
  handleDeleteCategory reply w =
    ({| store := store w; ui := setDeleteCategoryId None (ui w) |},
     [Toast "Cannot delete category"
        ("This category has " +:+ pretty (S n) +:+
         " products. Remove the products first.") true]).
Proof.
  intros Hk Hne Hc Hn. unfold handleDeleteCategory, blockingCount.
  by rewrite Hk, (proj2 (JSFacts.truthy_spec k) Hne), Hc, Hn.
Qed.

Lemma handleDelete_proceeds reply w k c :
  deleteCategoryId (ui w) = Some k → k ≠ "" →
  List.find (fun c => bool_decide (id c = k)) (categories (ui w)) = Some c →
  productCount c = Number 0 →
  deletes k (handleDeleteCategory reply w).
Proof.
  intros Hk Hne Hc Hn. unfold deletes, handleDeleteCategory, blockingCount.
  rewrite Hk, (proj2 (JSFacts.truthy_spec k) Hne), Hc, Hn. simpl.
  destruct reply; left.
Qed.

(** With rows fetched from the products [ps], and for a category id that is
    not empty and not the name of a member of [Object.prototype], the delete
    reaches the store exactly when no product is filed under the category;
    otherwise it stops at the notice and leaves store and lists as they were. *)
Lemma find_row ps gs g :
  g ∈ gs →
  ∃ c, List.find (fun c => bool_decide (id c = g_id g)) (aggregate ps gs) = Some c ∧
       id c = g_id g ∧
       productCount c = or_zero (read (countProducts ps) (g_id g)).
Proof.
  unfold aggregate. induction gs as [|g0 gs IH]; intros Hg.
  - by apply elem_of_nil in Hg.
  - simpl. case_bool_decide as H0.
    { eexists. split; [done|]. simpl in *. by rewrite H0. }
    apply elem_of_cons in Hg as [->|Hg]; [done|]. by apply IH.
Qed.

Lemma delete_guard ps gs g reply w :
  g ∈ gs → g_id g ≠ "" → JS.inherited (g_id g) = false →
  categories (ui w) = aggregate ps gs →
  deleteCategoryId (ui w) = Some (g_id g) →
  (deletes (g_id g) (handleDeleteCategory reply w) ↔ filed_under (g_id g) ps = 0%nat) ∧
  (filed_under (g_id g) ps ≠ 0%nat →
   (handleDeleteCategory reply w).1
     = {| store := store w; ui := setDeleteCategoryId None (ui w) |}).
Proof.
  intros Hg Hne Hk Hrows Hid.
  destruct (find_row ps gs g Hg) as (c & Hc & _ & Hn).
  pose proof (toRow_count ps g Hne Hk) as Hcount. simpl in Hcount.
  rewrite <- Hn in Hcount.
  unfold deletes, handleDeleteCategory, blockingCount.
  rewrite Hid, (proj2 (JSFacts.truthy_spec _) Hne), Hrows, Hc, Hcount. simpl.
  destruct (filed_under (g_id g) ps) as [|n]; simpl.
  - split; [|done]. split; [done|]. intros _. destruct reply; left.
  - split; [|done]. split; [|done].
    intros H%list_elem_of_singleton. done.
Qed.

(** The scenario of section 8: a category without products has count 0 and
    its delete reaches the store. *)
Lemma section8_category_scenario :
  let rows := aggregate [] Examples.shelf_categories in
  let w := {| store := {| orders := []; customers := [];
                          Store.categories := Examples.shelf_categories;
                          products := [] |};
              ui := {| categories := rows; filteredCategories := rows;
                       loading := false; searchQuery := "";
                       deleteCategoryId := Some "g1" |} |} in
  rows = [{| id := "g1"; name := "Books"; productCount := Number 0 |}] ∧
  (handleDeleteCategory true w).2 =
    [DeleteDoc "categories" "g1";
     Toast "Category deleted" "The category has been deleted successfully" false] ∧
  Store.categories (store (handleDeleteCategory true w).1) = [] ∧
  categories (ui (handleDeleteCategory true w).1) = [].
Proof. by vm_compute. Qed.

(** *** The properties *)

(** C5 at its failing input: a category whose id is "constructor", with no
    products, is given the inherited member of [Object.prototype] as its
    count, not 0.  So is every category whose id names such a member, whatever
    the products: its count is never a number. *)
Theorem constructor_category_count :
  aggregate [] Examples.odd_categories =
    [{| id := "constructor"; name := "Tools"; productCount := Other |}] ∧
  filed_under "constructor" [] = 0%nat ∧
  (∀ ps gs r, r ∈ aggregate ps gs → JS.inherited (id r) = true →
              productCount r = Other).
Proof.
  split; [by vm_compute|]. split; [done|].
  intros ps gs r (g & -> & _)%list_elem_of_fmap. apply toRow_inherited.
Qed.

(** C4 at its failing input: a category whose id is "constructor" with one
    product filed under it.  Its count is not a number, the guard lets the
    delete through, and the handler calls the store.  So it does for every
    row whose count is not a number. *)
Theorem constructor_category_deleted :
  let rows := aggregate Examples.odd_products Examples.odd_categories in
  let w := {| store := {| orders := []; customers := [];
                          Store.categories := Examples.odd_categories;
                          products := Examples.odd_products |};
              ui := {| categories := rows; filteredCategories := rows;
                       loading := false; searchQuery := "";
                       deleteCategoryId := Some "constructor" |} |} in
  (filed_under "constructor" Examples.odd_products = 1%nat ∧
   productCount <$> rows = [Other] ∧
   (handleDeleteCategory true w).2 =
     [DeleteDoc "categories" "constructor";
      Toast "Category deleted" "The category has been deleted successfully" false] ∧
   Store.categories (store (handleDeleteCategory true w).1) = [] ∧
   categories (ui (handleDeleteCategory true w).1) = []) ∧
  (∀ reply w k c,
     deleteCategoryId (ui w) = Some k → k ≠ "" →
     List.find (fun c => bool_decide (id c = k)) (categories (ui w)) = Some c →
     productCount c = Other →
     deletes k (handleDeleteCategory reply w)).
Proof.
  split; [by vm_compute|].
  intros reply w k c Hk Hne Hc Hn. unfold deletes, handleDeleteCategory, blockingCount.
  rewrite Hk, (proj2 (JSFacts.truthy_spec k) Hne), Hc, Hn. simpl.
  destruct reply; left.
Qed.

End CategoriesFacts.


(** ** The three tables and their search boxes *)

Module TablesFacts.

(** *** Customers *)

(** What the effect stores is the list of the rows that contain the query;
    for the empty query these are all rows. *)
Lemma customers_search_containing q rows :
  Customers.search q rows = Customers.containing q rows.
Proof.
  unfold Customers.search, Customers.containing.
  destruct (JS.truthy q) eqn:Hq; [done|].
  apply bool_decide_eq_false in Hq. apply dec_stable in Hq as ->.
  symmetry. apply List_filter_all. intros c. apply JSFacts.includes_empty.
Qed.

Lemma customers_search_idempotent q rows :
  Customers.search q (Customers.search q rows) = Customers.search q rows.
Proof.
  unfold Customers.search. case_match; [|done]. apply List_filter_idempotent.
Qed.

Lemma customers_effect_consistent st :
  Customers.consistent (Customers.searchEffect st).
Proof. apply customers_search_containing. Qed.

Lemma customers_reachable_consistent st :
  Customers.reachable st → Customers.consistent st.
Proof.
  induction 1 as [|rows st _ _|st _ IH|q st _ _|st _ _];
    auto using customers_effect_consistent.
  by vm_compute.
Qed.

(** *** Categories *)

Lemma categories_search_containing q rows :
  Categories.search q rows = Categories.containing q rows.
Proof.
  unfold Categories.search, Categories.containing.
  destruct (JS.truthy q) eqn:Hq; [done|].
  apply bool_decide_eq_false in Hq. apply dec_stable in Hq as ->.
  symmetry. apply List_filter_all. intros c. apply JSFacts.includes_empty.
Qed.

Lemma categories_search_idempotent q rows :
  Categories.search q (Categories.search q rows) = Categories.search q rows.
Proof.
  unfold Categories.search. case_match; [|done]. apply List_filter_idempotent.
Qed.

Lemma categories_effect_consistent st :
  Categories.consistent (Categories.searchEffect st).
Proof. apply categories_search_containing. Qed.

Lemma categories_delete_consistent reply w :
  Categories.consistent (Categories.ui w) →
  Categories.consistent (Categories.ui (Categories.handleDeleteCategory reply w).1).
Proof.
  unfold Categories.consistent, Categories.handleDeleteCategory. intros H.
  destruct (Categories.deleteCategoryId (Categories.ui w)) as [k|]; [|done].
  case_match; [done|]. case_match; [done|].
  destruct reply; [|done]. simpl. rewrite H.
  apply filter_List_filter.
Qed.

Lemma categories_deleted w k :
  Categories.deleteCategoryId (Categories.ui w) = Some k → k ≠ "" →
  Categories.blockingCount
    (List.find (fun c => bool_decide (Categories.id c = k))
               (Categories.categories (Categories.ui w))) = None →
  let st' := Categories.ui (Categories.handleDeleteCategory true w).1 in
  Categories.categories st'
    = Categories.without k (Categories.categories (Categories.ui w)) ∧
  Categories.filteredCategories st'
    = Categories.without k (Categories.filteredCategories (Categories.ui w)) ∧
  Forall (fun c => Categories.id c ≠ k) (Categories.categories st') ∧
  Forall (fun c => Categories.id c ≠ k) (Categories.filteredCategories st').
Proof.
  intros Hk Hne Hb. unfold Categories.handleDeleteCategory.
  rewrite Hk, (proj2 (JSFacts.truthy_spec k) Hne), Hb. simpl.
  repeat split; apply Forall_forall; unfold Categories.without;
    by intros c [? _]%list_elem_of_filter.
Qed.

Lemma categories_reachable_consistent st :
  Categories.reachable st → Categories.consistent st.
Proof.
  induction 1 as [|rows st _ _|st _ IH|q st _ _|k st _ IH|reply w _ IH|st _ _];
    auto using categories_effect_consistent, categories_delete_consistent.
  by vm_compute.
Qed.

(** *** Products *)

Lemma hit_mentions q p b :
  Products.hit q p = Some b →
  b = Products.mentions q (Products.name p)
      || Products.mentions q (Products.description p)
      || Products.mentions q (Products.categoryName p).
Proof.
  unfold Products.hit, Products.mentions; simpl.
  destruct (Products.name p) as [n|]; [simpl|done].
  destruct (JS.includes _ _); [by intros [= <-]|].
  destruct (Products.description p) as [d|]; [simpl|done].
  destruct (JS.includes _ _); by intros [= <-].
Qed.

Lemma keep_containing q : ∀ rows shown,
  Products.keep q rows = Some shown → shown = Products.holding q rows.
Proof.
  induction rows as [|p rows IH]; intros shown H.
  - by injection H as <-.
  - simpl in H.
    destruct (Products.hit q p) as [b|] eqn:Hh; [simpl in H|done].
    destruct (Products.keep q rows) as [kept|]; [simpl in H|done].
    injection H as <-. unfold Products.holding. cbn [List.filter].
    rewrite <- (hit_mentions _ _ _ Hh). fold (Products.holding q rows).
    rewrite <- (IH kept eq_refl). by destruct b.
Qed.

Lemma products_search_containing q rows shown :
  Products.search q rows = Some shown → shown = Products.containing q rows.
Proof.
  unfold Products.search, Products.containing.
  destruct (JS.truthy q); [apply keep_containing|by intros [= <-]].
Qed.

Lemma products_effect_consistent st st' :
  Products.searchEffect st = Some st' → Products.consistent st'.
Proof.
  unfold Products.searchEffect, Products.consistent.
  destruct (Products.search _ _) as [shown|] eqn:Hs; [simpl|done].
  intros [= <-]. simpl. by apply products_search_containing.
Qed.

Lemma products_effect_is_Some st :
  Forall (fun p => is_Some (Products.name p) ∧ is_Some (Products.description p))
         (Products.products st) →
  is_Some (Products.searchEffect st).
Proof.
  intros H. unfold Products.searchEffect, Products.search.
  case_match; [|by eexists].
  destruct (ProductsFacts.keep_is_Some (Products.searchQuery st) _ H) as [shown ->].
  by eexists.
Qed.

Lemma products_delete_consistent reply w :
  Products.consistent (Products.ui w) →
  Products.consistent (Products.ui (Products.handleDeleteProduct reply w).1).
Proof.
  unfold Products.consistent, Products.handleDeleteProduct. intros H.
  destruct (Products.deleteProductId (Products.ui w)) as [k|]; [|done].
  case_match; [done|]. destruct reply; [|done]. simpl. rewrite H.
  unfold Products.containing. case_match; [|done].
  apply filter_List_filter.
Qed.

Lemma products_deleted w k :
  Products.deleteProductId (Products.ui w) = Some k → k ≠ "" →
  let st' := Products.ui (Products.handleDeleteProduct true w).1 in
  Products.products st'
    = Products.without k (Products.products (Products.ui w)) ∧
  Products.filteredProducts st'
    = Products.without k (Products.filteredProducts (Products.ui w)) ∧
  Forall (fun p => Products.id p ≠ k) (Products.products st') ∧
  Forall (fun p => Products.id p ≠ k) (Products.filteredProducts st').
Proof.
  intros Hk Hne. unfold Products.handleDeleteProduct.
  rewrite Hk, (proj2 (JSFacts.truthy_spec k) Hne). simpl.
  repeat split; apply Forall_forall; unfold Products.without;
    by intros c [? _]%list_elem_of_filter.
Qed.

Lemma products_reachable_consistent st :
  Products.reachable st → Products.consistent st.
Proof.
  induction 1 as [|rows st st' _ _ He|st _ IH|q st st' _ _ He|k st _ IH
                  |reply w _ IH|st st' _ _ He];
    eauto using products_effect_consistent, products_delete_consistent.
  by vm_compute.
Qed.

(** *** The properties *)

(** C6: in each table, searching an already searched list again with the
    same query gives the same list, and the empty query gives back the full
    list, unchanged and in its order.  (The products search can throw; it
    does not on a list it has produced.) *)
Theorem search_idempotent_and_empty_query_identity :
  (∀ q rows, Customers.search q (Customers.search q rows) = Customers.search q rows) ∧
  (∀ rows, Customers.search "" rows = rows) ∧
  (∀ q rows, Categories.search q (Categories.search q rows) = Categories.search q rows) ∧
  (∀ rows, Categories.search "" rows = rows) ∧
  (∀ q rows shown, Products.search q rows = Some shown →
                   Products.search q shown = Some shown) ∧
  (∀ rows, Products.search "" rows = Some rows).
Proof.
  repeat split; try done.
  - apply customers_search_idempotent.
  - apply categories_search_idempotent.
  - apply ProductsFacts.search_idempotent.
Qed.

(** C9: in every state a table settles in, its filtered list is the list
    of its rows that contain the current query, letter case aside.  A
    completed fetch sets both lists to the new rows, which is that list under
    the empty query; the search effect stores that list after a change of the
    query; and a successful delete takes the deleted row out of both lists,
    which keeps the property.  (In the products table the effect can throw;
    the property holds whenever it yields a state.) *)
Theorem filtered_list_is_the_search_result :
  ((∀ st, Customers.reachable st → Customers.consistent st) ∧
   (∀ rows st, Customers.searchQuery st = "" →
      Customers.consistent (Customers.loaded rows st)) ∧
   (∀ q st,
      Customers.consistent (Customers.searchEffect (Customers.setSearchQuery q st))))
  ∧
  ((∀ st, Categories.reachable st → Categories.consistent st) ∧
   (∀ rows st, Categories.searchQuery st = "" →
      Categories.consistent (Categories.loaded rows st)) ∧
   (∀ q st,
      Categories.consistent (Categories.searchEffect (Categories.setSearchQuery q st))) ∧
   (∀ reply w, Categories.consistent (Categories.ui w) →
      Categories.consistent (Categories.ui (Categories.handleDeleteCategory reply w).1)) ∧
   (∀ w k,
      Categories.deleteCategoryId (Categories.ui w) = Some k → k ≠ "" →
      Categories.blockingCount
        (List.find (fun c => bool_decide (Categories.id c = k))
                   (Categories.categories (Categories.ui w))) = None →
      let st' := Categories.ui (Categories.handleDeleteCategory true w).1 in
      Categories.categories st'
        = Categories.without k (Categories.categories (Categories.ui w)) ∧
      Categories.filteredCategories st'
        = Categories.without k (Categories.filteredCategories (Categories.ui w)) ∧
      Forall (fun c => Categories.id c ≠ k) (Categories.categories st') ∧
      Forall (fun c => Categories.id c ≠ k) (Categories.filteredCategories st')))
  ∧
  ((∀ st, Products.reachable st → Products.consistent st) ∧
   (∀ rows st, Products.searchQuery st = "" →
      Products.consistent (Products.loaded rows st)) ∧
   (∀ q st st',
      Products.searchEffect (Products.setSearchQuery q st) = Some st' →
      Products.consistent st') ∧
   (∀ reply w, Products.consistent (Products.ui w) →
      Products.consistent (Products.ui (Products.handleDeleteProduct reply w).1)) ∧
   (∀ w k,
      Products.deleteProductId (Products.ui w) = Some k → k ≠ "" →
      let st' := Products.ui (Products.handleDeleteProduct true w).1 in
      Products.products st'
        = Products.without k (Products.products (Products.ui w)) ∧
      Products.filteredProducts st'
        = Products.without k (Products.filteredProducts (Products.ui w)) ∧
      Forall (fun p => Products.id p ≠ k) (Products.products st') ∧
      Forall (fun p => Products.id p ≠ k) (Products.filteredProducts st'))).
Proof.
  split; [|split].
  - split; [apply customers_reachable_consistent|]. split.
    + intros rows st Hq. unfold Customers.consistent. simpl. rewrite Hq.
      by rewrite <- customers_search_containing.
    + intros q st. apply customers_effect_consistent.
  - split; [apply categories_reachable_consistent|]. split; [|split; [|split]].
    + intros rows st Hq. unfold Categories.consistent. simpl. rewrite Hq.
      by rewrite <- categories_search_containing.
    + intros q st. apply categories_effect_consistent.
    + apply categories_delete_consistent.
    + apply categories_deleted.
  - split; [apply products_reachable_consistent|]. split; [|split; [|split]].
    + intros rows st Hq. unfold Products.consistent. simpl. rewrite Hq.
      by apply products_search_containing.
    + intros q st st'. apply products_effect_consistent.
    + apply products_delete_consistent.
    + apply products_deleted.
Qed.

End TablesFacts.

(** ** More on the search boxes *)

Module SearchFacts.

Import JS.

Lemma append_assoc a b c : (a +:+ b) +:+ c = a +:+ b +:+ c.
Proof.
  induction a as [|x a IH]; [done|]. by rewrite !JSFacts.append_cons, IH.
Qed.

Lemma lower_idempotent c : lower (lower c) = lower c.
Proof. by destruct c as [[] [] [] [] [] [] [] []]. Qed.

Lemma toLowerCase_idempotent s : toLowerCase (toLowerCase s) = toLowerCase s.
Proof.
  induction s as [|c s IH]; [done|]. simpl. by rewrite lower_idempotent, IH.
Qed.

Lemma toLowerCase_empty s : toLowerCase s = "" → s = "".
Proof. by destruct s. Qed.

(** A text that contains a text contains what that text contains. *)
Lemma includes_trans s t q :
  includes s t = true → includes t q = true → includes s q = true.
Proof.
  rewrite !JSFacts.includes_spec. intros (a & b & ->) (c & d & ->).
  exists (a +:+ c), (d +:+ b). by rewrite !append_assoc.
Qed.

Lemma includes_in_empty q : includes "" q = true → q = "".
Proof.
  intros (pre & post & H)%JSFacts.includes_spec.
  destruct pre; [|done]. by destruct q.
Qed.

Lemma List_filter_narrow {A} (f g : A → bool) (l : list A) :
  (∀ x, g x = true → f x = true) →
  List.filter g (List.filter f l) = List.filter g l.
Proof.
  intros Hgf. induction l as [|x l IH]; [done|]. simpl.
  destruct (f x) eqn:Hf; simpl; rewrite IH; [done|].
  destruct (g x) eqn:Hg; [|done]. apply Hgf in Hg. congruence.
Qed.

Lemma List_filter_sublist {A} (f : A → bool) (l : list A) :
  sublist (List.filter f l) l.
Proof.
  induction l as [|x l IH]; [done|]. simpl.
  destruct (f x); by constructor.
Qed.

Lemma List_filter_elem_of {A} (f : A → bool) (l : list A) x :
  x ∈ List.filter f l ↔ x ∈ l ∧ f x = true.
Proof. rewrite !list_elem_of_In. apply filter_In. Qed.

(** The callback of the products search yields an answer on every row of a
    list that it got through, and then on every part of that list. *)
Lemma keep_hits q rows shown :
  Products.keep q rows = Some shown →
  Forall (fun p => is_Some (Products.hit q p)) rows.
Proof.
  revert shown. induction rows as [|p rows IH]; intros shown; simpl; [done|].
  destruct (Products.hit q p) as [b|] eqn:Hh; [simpl|done].
  destruct (Products.keep q rows) as [kept|]; [simpl|done].
  intros _. constructor; [by eexists|by eapply IH].
Qed.

Lemma hits_keep q rows :
  Forall (fun p => is_Some (Products.hit q p)) rows →
  Products.keep q rows = Some (Products.holding q rows).
Proof.
  intros H.
  assert (is_Some (Products.keep q rows)) as [shown Hs].
  { induction H as [|p rows [b Hb] _ [kept IH]]; simpl; [by eexists|].
    rewrite Hb, IH. by eexists. }
  by rewrite Hs, (TablesFacts.keep_containing _ _ _ Hs).
Qed.

Lemma mentions_trans q q' field :
  includes (toLowerCase q') (toLowerCase q) = true →
  Products.mentions q' field = true → Products.mentions q field = true.
Proof.
  intros Hq. destruct field as [t|]; [|done]. simpl.
  intros Ht. by apply (includes_trans _ _ _ Ht).
Qed.

(** *** The properties *)

(** X1: a query that holds the old one only narrows.  Whenever the
    lower-cased new query contains the lower-cased old query as a substring,
    searching the rows already shown for the old query gives the same list
    as searching all rows: in the customers and the categories table
    always, in the products table whenever both searches of all rows
    return. *)
Theorem typing_further_narrows q q' :
  includes (toLowerCase q') (toLowerCase q) = true →
  (∀ rows, Customers.search q' (Customers.search q rows)
           = Customers.search q' rows) ∧
  (∀ rows, Categories.search q' (Categories.search q rows)
           = Categories.search q' rows) ∧
  (∀ rows shown shown',
     Products.search q rows = Some shown →
     Products.search q' rows = Some shown' →
     Products.search q' shown = Some shown').
Proof.
  intros Hq. split; [|split].
  - intros rows. rewrite !TablesFacts.customers_search_containing.
    apply List_filter_narrow. intros r Hr. by apply (includes_trans _ _ _ Hr).
  - intros rows. rewrite !TablesFacts.categories_search_containing.
    apply List_filter_narrow. intros r Hr. by apply (includes_trans _ _ _ Hr).
  - intros rows shown shown' Hs Hs'.
    pose proof (TablesFacts.products_search_containing _ _ _ Hs) as ->.
    pose proof (TablesFacts.products_search_containing _ _ _ Hs') as ->.
    unfold Products.search, Products.containing in *.
    destruct (truthy q') eqn:Hq'.
    + assert (Forall (fun p => is_Some (Products.hit q' p)) rows) as Hhits
        by by eapply keep_hits.
      destruct (truthy q); [|by apply hits_keep].
      rewrite hits_keep.
      * f_equal. apply List_filter_narrow. intros p.
        rewrite !orb_true_iff. intros [[H|H]|H]; eauto using mentions_trans.
      * rewrite Forall_forall in *.
        intros p [Hp _]%List_filter_elem_of. by apply Hhits.
    + apply bool_decide_eq_false in Hq'. apply dec_stable in Hq' as ->.
      apply includes_in_empty, toLowerCase_empty in Hq as ->. done.
Qed.

Lemma typing_further_narrows_witness :
  JS.includes (toLowerCase "Lanka") (toLowerCase "an") = true ∧
  Customers.search "Lanka" (Customers.search "an" Samples.island_rows)
  = Customers.search "Lanka" Samples.island_rows.
Proof.
  assert (H : JS.includes (toLowerCase "Lanka") (toLowerCase "an") = true)
    by reflexivity.
  exact (conj H (proj1 (typing_further_narrows "an" "Lanka" H) Samples.island_rows)).
Defined.

(** X2: what the customers and the categories search find.  The list shown
    is a sublist of the rows, in their order; a row is in it exactly when
    the lower-cased [userId] (for a category, [name]) has the lower-cased
    query as a substring; and the letter case of the query does not matter:
    the lower-cased query finds the same rows. *)
Theorem search_finds_substrings q :
  (∀ rows,
     sublist (Customers.search q rows) rows ∧
     (∀ r, r ∈ Customers.search q rows ↔
           r ∈ rows ∧ ∃ pre post, toLowerCase (Customers.userId r)
                                  = pre +:+ toLowerCase q +:+ post) ∧
     Customers.search (toLowerCase q) rows = Customers.search q rows) ∧
  (∀ rows,
     sublist (Categories.search q rows) rows ∧
     (∀ r, r ∈ Categories.search q rows ↔
           r ∈ rows ∧ ∃ pre post, toLowerCase (Categories.name r)
                                  = pre +:+ toLowerCase q +:+ post) ∧
     Categories.search (toLowerCase q) rows = Categories.search q rows).
Proof.
  split; intros rows.
  - rewrite !TablesFacts.customers_search_containing.
    unfold Customers.containing. split; [apply List_filter_sublist|]. split.
    + intros r. by rewrite List_filter_elem_of, JSFacts.includes_spec.
    + by rewrite toLowerCase_idempotent.
  - rewrite !TablesFacts.categories_search_containing.
    unfold Categories.containing. split; [apply List_filter_sublist|]. split.
    + intros r. by rewrite List_filter_elem_of, JSFacts.includes_spec.
    + by rewrite toLowerCase_idempotent.
Qed.

(** X3: what the products search finds, when it returns.  The list shown is
    a sublist of the rows, in their order; under the empty query it is all
    rows, and under any other a row is in it exactly when the lower-cased
    query is a substring of its lower-cased [name], of its [description], or
    of its [categoryName] when it has one. *)
Theorem products_search_finds_substrings q rows shown :
  Products.search q rows = Some shown →
  sublist shown rows ∧
  (q = "" → shown = rows) ∧
  (q ≠ "" →
   ∀ r, r ∈ shown ↔
        r ∈ rows ∧
        ∃ t, (Products.name r = Some t ∨ Products.description r = Some t ∨
              Products.categoryName r = Some t) ∧
             ∃ pre post, toLowerCase t = pre +:+ toLowerCase q +:+ post).
Proof.
  intros ->%TablesFacts.products_search_containing.
  unfold Products.containing, Products.holding.
  destruct (truthy q) eqn:Hq.
  2:{ apply bool_decide_eq_false in Hq. apply dec_stable in Hq as ->.
      split; [done|]. split; done. }
  apply JSFacts.truthy_spec in Hq.
  split; [apply List_filter_sublist|]. split; [done|]. intros _ r.
  rewrite List_filter_elem_of, !orb_true_iff. unfold Products.mentions.
  apply and_iff_compat_l. split.
  - intros [[H|H]|H].
    + destruct (Products.name r) as [t|]; [|done].
      exists t. split; [by left|]. by apply JSFacts.includes_spec.
    + destruct (Products.description r) as [t|]; [|done].
      exists t. split; [by right; left|]. by apply JSFacts.includes_spec.
    + destruct (Products.categoryName r) as [t|]; [|done].
      exists t. split; [by right; right|]. by apply JSFacts.includes_spec.
  - intros (t & [H|[H|H]] & Hin%JSFacts.includes_spec);
      [left; left|left; right|right]; by rewrite H.
Qed.

Lemma products_search_finds_substrings_witness :
  Products.search "atlas"
    (Products.aggregate [Examples.product "p1" "Atlas" (Some "Maps") None] [])
  = Some (Products.aggregate [Examples.product "p1" "Atlas" (Some "Maps") None] []) ∧
  sublist (Products.aggregate [Examples.product "p1" "Atlas" (Some "Maps") None] [])
          (Products.aggregate [Examples.product "p1" "Atlas" (Some "Maps") None] []).
Proof.
  assert (H : Products.search "atlas"
                (Products.aggregate [Examples.product "p1" "Atlas" (Some "Maps") None] [])
              = Some (Products.aggregate
                        [Examples.product "p1" "Atlas" (Some "Maps") None] []))
    by (vm_compute; reflexivity).
  exact (conj H (proj1 (products_search_finds_substrings _ _ _ H))).
Defined.

End SearchFacts.

(** ** More on the customer spend aggregator *)

Module AggregatorFacts.

Import Store Customers.

(** *** When the aggregation throws *)

Lemma toRow_None h d :
  (∀ k, JS.inherited k = true → customerOrders h !! k = None) →
  (toRow h d = None ↔
   (JS.inherited (c_userId d) = true) ∧
   (c_userId d ∉ written h) ∧ ("__proto__" ∉ written h)).
Proof.
  intros Hinv. unfold toRow, read, shows_total.
  destruct (JS.inherited (c_userId d)) eqn:Hi.
  - rewrite (Hinv _ Hi). case_bool_decide as Hs.
    + split; [done|]. intros (_ & H1 & H2). by destruct Hs.
    + split; [|done]. intros _. split; [done|]. split; intros ?; apply Hs; auto.
  - destruct (customerOrders h !! c_userId d); [|destruct (_ && _)];
      split; try done; by intros [? _].
Qed.

Lemma aggregate_None page os docs :
  aggregate page os docs = None ↔
  ∃ d, d ∈ docs ∧ JS.inherited (c_userId d) = true ∧
       ¬ Pages.touched page os (c_userId d) ∧
       ¬ Pages.touched page os "__proto__".
Proof.
  unfold aggregate, Pages.touched.
  destruct (CustomersFacts.grouped page os) as (h & -> & Hinv & _ & Hw).
  simpl. rewrite mapM_None, Exists_exists.
  apply exist_proper. intros d. apply and_iff_compat_l.
  rewrite (toRow_None _ _ Hinv), !Hw. split.
  - intros (Hi & H1 & H2). split; [done|]. split.
    + intros [?|?]; apply H1; auto.
    + intros [?|?]; apply H2; auto.
  - intros (Hi & H1 & H2). split; [done|]. split.
    + intros [?|[_ ?]]; apply H1; auto.
    + intros [?|[_ ?]]; apply H2; auto.
Qed.


(** *** Whose orders a row depends on *)

Lemma any_row_unique page page' os os' d r r' :
  orders_of (c_userId d) os = orders_of (c_userId d) os' →
  shadowed page os (c_userId d) = shadowed page' os' (c_userId d) →
  any_row page os d r → any_row page' os' d r' → r = r'.
Proof.
  unfold any_row. intros <- <-.
  intros (? & ? & ? & ? & ? & ? & ?) (? & ? & ? & ? & ? & ? & ?).
  destruct r, r'; simpl in *. congruence.
Qed.

(** X5: a row depends on its customer's own orders, and on whether it
    reads what was left on [Object.prototype].  For customers whose [userId]
    is not the name of a member of [Object.prototype], two runs of the
    aggregation give the same rows whenever each customer has the same
    orders under its [userId] in both, and in both or in neither is named
    "total" or "count" while [Object.prototype] has been written on (by an
    order with the [userId] "__proto__", or by an earlier run on the page):
    other orders of other users, orders without [userId], and what earlier
    runs left on other members change nothing. *)
Theorem rows_depend_on_own_orders page page' os os' docs :
  Forall (fun d => JS.inherited (c_userId d) = false) docs →
  (∀ d, d ∈ docs → orders_of (c_userId d) os = orders_of (c_userId d) os') →
  (∀ d, d ∈ docs →
        shadowed page os (c_userId d) = shadowed page' os' (c_userId d)) →
  is_Some (aggregate page os docs) ∧
  aggregate page os docs = aggregate page' os' docs.
Proof.
  intros Hdocs Hsame Hshadow.
  destruct (CustomersFacts.aggregate_is_Some page os docs Hdocs) as [rows Hagg].
  destruct (CustomersFacts.aggregate_is_Some page' os' docs Hdocs)
    as [rows' Hagg'].
  assert (HF := CustomersFacts.aggregate_rows _ _ _ _ Hagg).
  assert (HF' := CustomersFacts.aggregate_rows _ _ _ _ Hagg').
  rewrite Hagg, Hagg'. split; [by eexists|]. f_equal. clear Hdocs Hagg Hagg'.
  revert rows' HF'.
  induction HF as [|d r docs rows Hr _ IH]; intros rows' HF'.
  - by apply Forall2_nil_inv_l in HF'.
  - apply Forall2_cons_inv_l in HF' as (r' & rows'' & Hr' & HF' & ->).
    f_equal.
    + eapply any_row_unique; [| |done..]; [apply Hsame|apply Hshadow]; left.
    + apply IH; [| |done]; intros d' Hd'; [apply Hsame|apply Hshadow]; by right.
Qed.

Lemma rows_depend_on_own_orders_witness :
  aggregate ∅ Examples.u1_orders Examples.u1_customers
  = aggregate {["toString"]}
      (Examples.order "u2" "7" :: Examples.u1_orders ++
       [{| o_userId := None; o_totalAmount := Some "3" |}])
      Examples.u1_customers.
Proof.
  apply rows_depend_on_own_orders.
  - repeat constructor.
  - intros d ->%list_elem_of_singleton. reflexivity.
  - intros d ->%list_elem_of_singleton. reflexivity.
Defined.

(** What the rows of one customer named "total" show does depend on an
    order of the user "__proto__". *)
Lemma rows_depend_on_prototype :
  orders_of "total" Examples.proto_orders = orders_of "total" [] ∧
  aggregate ∅ Examples.proto_orders Examples.total_customers
  ≠ aggregate ∅ [] Examples.total_customers.
Proof. split; [done|]. by vm_compute. Qed.

(** *** The order in which the store returns the orders *)

Lemma touched_permutation page os os' k :
  os ≡ₚ os' → Pages.touched page os k ↔ Pages.touched page os' k.
Proof. unfold Pages.touched. by intros ->. Qed.

(** X19: the counts do not depend on the order in which the store returns
    the orders, the totals do.  Two runs over the same orders in different
    order both throw or both return, and the rows they return have the same
    order counts.  The totals are sums of binary64 numbers taken in store
    order: the three orders of 1e20, 0.01 and -1e20 give the total "0.00" in
    this order and "0.01" when the last two are swapped. *)
Theorem counts_ignore_store_order :
  (∀ page os os' docs, os ≡ₚ os' →
     (aggregate page os docs = None ↔ aggregate page os' docs = None) ∧
     (∀ rows rows',
        aggregate page os docs = Some rows →
        aggregate page os' docs = Some rows' →
        orderCount <$> rows = orderCount <$> rows')) ∧
  (Samples.swapped_orders ≡ₚ Samples.large_orders ∧
   totalAmount <$> default [] (aggregate ∅ Samples.large_orders Examples.u1_customers)
     = ["0.00"] ∧
   totalAmount <$> default [] (aggregate ∅ Samples.swapped_orders Examples.u1_customers)
     = ["0.01"]).
Proof.
  split.
  - intros page os os' docs Hperm. split.
    + rewrite !aggregate_None. apply exist_proper. intros d.
      by rewrite !(touched_permutation page os os').
    + intros rows rows' HF%CustomersFacts.aggregate_rows
        HF'%CustomersFacts.aggregate_rows.
      revert rows' HF'.
      induction HF as [|d r docs rows Hr _ IH]; intros rows' HF'.
      * by apply Forall2_nil_inv_l in HF' as ->.
      * apply Forall2_cons_inv_l in HF' as (r' & rows'' & Hr' & HF' & ->).
        rewrite !fmap_cons, (IH _ HF'). f_equal.
        destruct Hr as (_ & _ & _ & _ & _ & -> & _).
        destruct Hr' as (_ & _ & _ & _ & _ & -> & _).
        unfold orders_of. by rewrite Hperm.
  - split; [|by vm_compute]. unfold Samples.swapped_orders, Samples.large_orders.
    apply perm_skip, perm_swap.
Qed.

End AggregatorFacts.

(** ** More on the categories and the products table *)

Module SyncFacts.

Import Store.

Lemma filter_map {A B} (f : A → B) (P : B → Prop) `{!∀ y, Decision (P y)}
    (l : list A) :
  filter P (map f l) = map f (filter (fun x => P (f x)) l).
Proof.
  induction l as [|x l IH]; [done|]. simpl. rewrite !filter_cons.
  case_decide; simpl; by rewrite IH.
Qed.

(** X6: the delete handlers keep the rows in step with the store.  When
    the rows of the categories table are those a fresh fetch would build
    from the store, they still are after [handleDeleteCategory], whatever it
    did: deleted, refused, or failed.  The same holds for the products table
    and [handleDeleteProduct]. *)
Theorem delete_keeps_rows_in_sync :
  (∀ reply w, Pages.categories_in_sync w →
     Pages.categories_in_sync (Categories.handleDeleteCategory reply w).1) ∧
  (∀ reply w, Pages.products_in_sync w →
     Pages.products_in_sync (Products.handleDeleteProduct reply w).1).
Proof.
  split; intros reply w H.
  - unfold Pages.categories_in_sync, Categories.handleDeleteCategory in *.
    destruct (Categories.deleteCategoryId (Categories.ui w)) as [k|]; [|done].
    case_match; [done|]. case_match; [done|]. destruct reply; [|done].
    simpl. rewrite H. unfold Categories.without, Categories.aggregate.
    exact (filter_map (Categories.toRow _) (fun c => Categories.id c ≠ k) _).
  - unfold Pages.products_in_sync, Products.handleDeleteProduct in *.
    destruct (Products.deleteProductId (Products.ui w)) as [k|]; [|done].
    case_match; [done|]. destruct reply; [|done].
    simpl. rewrite H. unfold Products.without, Products.aggregate.
    exact (filter_map (Products.toRow _) (fun p => Products.id p ≠ k) _).
Qed.

(** *** Counting and the guard, for ordinary category ids *)

Lemma length_filter_or {A} (P Q : A → Prop) `{!∀ x, Decision (P x)}
    `{!∀ x, Decision (Q x)} (l : list A) :
  (∀ x, P x → Q x → False) →
  length (filter (fun x => P x ∨ Q x) l)
  = (length (filter P l) + length (filter Q l))%nat.
Proof.
  intros Hdis. induction l as [|x l IH]; [done|].
  rewrite !filter_cons.
  destruct (decide (P x)) as [HP|HP], (decide (Q x)) as [HQ|HQ].
  - by destruct (Hdis x).
  - rewrite decide_True by auto. simpl. by rewrite IH.
  - rewrite decide_True by auto. simpl. rewrite IH. lia.
  - rewrite decide_False by tauto. done.
Qed.

Lemma filed_under_sum ps gs :
  NoDup (g_id <$> gs) →
  sum_list ((fun g => Categories.filed_under (g_id g) ps) <$> gs)
  = length (filter (fun p => p_categoryId p ∈ (Some ∘ g_id) <$> gs) ps).
Proof.
  induction gs as [|g gs IH].
  - intros _. simpl. rewrite filter_none; [done|].
    intros p _ H. by apply elem_of_nil in H.
  - rewrite fmap_cons. intros [Hg Hgs]%NoDup_cons. csimpl. rewrite (IH Hgs).
    unfold Categories.filed_under. rewrite <- length_filter_or.
    + f_equal. apply list_filter_iff. intros p. rewrite elem_of_cons. done.
    + intros p Hp (g' & Hg' & Hin)%list_elem_of_fmap. apply Hg.
      apply list_elem_of_fmap. exists g'. split; [|done].
      simpl in Hg'. congruence.
Qed.

(** X17: the product counts add up.  When the categories have distinct
    ids, none of them empty or the name of a member of [Object.prototype],
    every row of the categories table carries as its count the number of
    products whose [categoryId] is the category's id, and the counts add up
    to the number of products whose [categoryId] is the id of some category:
    no product is counted twice, and products without category, or with an
    unknown one, are counted nowhere. *)
Theorem category_counts_add_up ps gs :
  NoDup (g_id <$> gs) →
  Forall (fun g => g_id g ≠ "" ∧ JS.inherited (g_id g) = false) gs →
  ∃ ns,
    Categories.productCount <$> Categories.aggregate ps gs
      = Categories.Number <$> ns ∧
    Forall2 (fun g n => n = Categories.filed_under (g_id g) ps) gs ns ∧
    sum_list ns
      = length (filter (fun p => p_categoryId p ∈ (Some ∘ g_id) <$> gs) ps).
Proof.
  intros Hnd Hord.
  exists ((fun g => Categories.filed_under (g_id g) ps) <$> gs).
  split; [|split].
  - clear Hnd. unfold Categories.aggregate.
    induction Hord as [|g gs [Hne Hg] _ IH]; [done|].
    simpl map. rewrite !fmap_cons, IH. f_equal.
    by apply CategoriesFacts.toRow_count.
  - apply Forall2_fmap_r, Forall2_same_length_lookup. split; [done|].
    intros i g g' H1 H2. congruence.
  - by apply filed_under_sum.
Qed.

Lemma category_counts_add_up_witness :
  ∃ ns,
    Categories.productCount
      <$> Categories.aggregate Examples.shelf_products Examples.shelf_categories
      = Categories.Number <$> ns ∧
    Forall2 (fun g n => n = Categories.filed_under (g_id g) Examples.shelf_products)
            Examples.shelf_categories ns ∧
    sum_list ns
      = length (filter (fun p => p_categoryId p
                                 ∈ (Some ∘ g_id) <$> Examples.shelf_categories)
                       Examples.shelf_products).
Proof.
  apply category_counts_add_up.
  - apply (bool_decide_unpack _). vm_compute. exact I.
  - repeat constructor; done.
Defined.

(** X18: the guarded delete orphans no product.  When the rows of the
    categories table are those a fetch would build from the store, and the
    category in the delete dialog has an id that is not the name of a member
    of [Object.prototype], [handleDeleteCategory] leaves in the store every
    category that a product of the store names as its [categoryId]. *)
Theorem delete_orphans_no_product reply w p k :
  Pages.categories_in_sync w →
  (∀ k', Categories.deleteCategoryId (Categories.ui w) = Some k' →
         JS.inherited k' = false) →
  p ∈ products (Categories.store w) → p_categoryId p = Some k →
  k ∈ g_id <$> categories (Categories.store w) →
  products (Categories.store (Categories.handleDeleteCategory reply w).1)
    = products (Categories.store w) ∧
  k ∈ g_id <$> categories
                 (Categories.store (Categories.handleDeleteCategory reply w).1).
Proof.
  intros Hsync Hord Hp Hk Hin. unfold Categories.handleDeleteCategory.
  destruct (Categories.deleteCategoryId (Categories.ui w)) as [k'|]; [|done].
  destruct (JS.truthy k') eqn:Ht; [simpl|done].
  apply JSFacts.truthy_spec in Ht.
  destruct (Categories.blockingCount _) as [n|] eqn:Hb; [done|].
  destruct reply; [simpl|done]. split; [done|].
  apply list_elem_of_fmap in Hin as (g & -> & Hg).
  apply list_elem_of_fmap. exists g. split; [done|].
  apply list_elem_of_filter. split; [|done]. intros <-.
  destruct (CategoriesFacts.find_row (products (Categories.store w)) _ g Hg)
    as (c & Hc & _ & Hn).
  pose proof (CategoriesFacts.toRow_count (products (Categories.store w)) g Ht
                (Hord _ eq_refl)) as Hrow.
  simpl in Hrow. rewrite <- Hn in Hrow.
  rewrite Hsync, Hc in Hb. unfold Categories.blockingCount in Hb.
  rewrite Hrow in Hb.
  assert (Categories.filed_under (g_id g) (products (Categories.store w)) ≠ 0%nat)
    as Hpos.
  { unfold Categories.filed_under. intros H0%length_zero_iff_nil.
    assert (p ∈ filter (fun p => p_categoryId p = Some (g_id g))
                       (products (Categories.store w))) as Hf
      by by apply list_elem_of_filter.
    rewrite H0 in Hf. by apply elem_of_nil in Hf. }
  by destruct (Categories.filed_under _ _).
Qed.

Lemma delete_orphans_no_product_witness :
  "g1" ∈ g_id <$> categories
    (Categories.store (Categories.handleDeleteCategory true Samples.shelf_dialog).1).
Proof.
  apply (delete_orphans_no_product true Samples.shelf_dialog
           (Examples.product "p1" "Atlas" (Some "Maps of the island") (Some "g1"))
           "g1").
  - reflexivity.
  - by intros k' [= <-].
  - left.
  - reflexivity.
  - left.
Defined.

End SyncFacts.

(** ** The side bar *)

Module NavFacts.

Import DashboardNav.

Lemma highlighted_count (l : list item) pathname :
  NoDup (href <$> l) →
  length (filter (fun b => variant b = "secondary") (map (toButton pathname) l))
  = if bool_decide (pathname ∈ href <$> l) then 1%nat else 0%nat.
Proof.
  induction l as [|i l IH]; [done|].
  rewrite fmap_cons. intros [Hi Hl]%NoDup_cons. simpl map.
  rewrite filter_cons. specialize (IH Hl). unfold toButton at 1; simpl.
  destruct (decide (pathname = href i)) as [->|Hne].
  - rewrite (bool_decide_eq_true_2 (href i = href i)) by done.
    rewrite decide_True by done. simpl. rewrite IH.
    rewrite (bool_decide_eq_false_2 _ Hi).
    rewrite bool_decide_eq_true_2 by left. done.
  - rewrite (bool_decide_eq_false_2 _ Hne). rewrite decide_False by done.
    rewrite IH. case_bool_decide as H1; case_bool_decide as H2; try done.
    + destruct H2. by right.
    + by apply elem_of_cons in H2 as [?|?].
Qed.

(** X7: the side bar highlights the current page, and nothing else.  For
    every path at most one button has the variant "secondary"; a button has
    it exactly when its link is the path itself; and no button has it when
    the path is none of the eight links, as on every sub-page. *)
Theorem nav_highlights_current_page pathname :
  (length (highlighted pathname) ≤ 1)%nat ∧
  (∀ b, b ∈ highlighted pathname ↔ b ∈ DashboardNav pathname ∧ link b = pathname) ∧
  (highlighted pathname = [] ↔ pathname ∉ href <$> navItems).
Proof.
  assert (Hnd : NoDup (href <$> navItems))
    by (apply (bool_decide_unpack _); vm_compute; exact I).
  pose proof (highlighted_count navItems pathname Hnd) as Hn.
  fold (DashboardNav pathname) in Hn. fold (highlighted pathname) in Hn.
  split; [|split].
  - rewrite Hn. case_bool_decide; lia.
  - clear Hn. intros b. unfold highlighted. rewrite list_elem_of_filter.
    split.
    + intros [Hv Hb]. split; [done|]. unfold DashboardNav in Hb.
      apply list_elem_of_In, in_map_iff in Hb as (i & <- & _).
      revert Hv. unfold toButton; simpl.
      case_bool_decide; [intros _; by symmetry|intros ?; discriminate].
    + intros [Hb Hl]. split; [|done]. unfold DashboardNav in Hb.
      apply list_elem_of_In, in_map_iff in Hb as (i & <- & _).
      revert Hl. unfold toButton; simpl. intros Hl.
      case_bool_decide; [done|congruence].
  - rewrite <- length_zero_iff_nil, Hn. case_bool_decide; split; done.
Qed.

End NavFacts.

(** ** The customer's page and the customers table *)

Module DetailsFacts.

Import Store.

Lemma whereEq_orders_of u (docs : list CustomerDetails.Order) :
  u ≠ "" →
  length (Gateway.whereEq CustomerDetails.userId u docs)
  = length (Customers.orders_of u (CustomerDetails.as_read_by_table <$> docs)).
Proof.
  intros Hu. unfold Gateway.whereEq, Customers.orders_of.
  induction docs as [|o docs IH]; [done|].
  rewrite fmap_cons, !filter_cons. simpl.
  destruct (decide (CustomerDetails.userId o = Some u)).
  - rewrite decide_True by done. simpl. by rewrite IH.
  - rewrite decide_False by (by intros [? _]). done.
Qed.

(** X8: the two screens agree on the number of orders.  For a customer
    whose [userId] is not empty, and when no customer's [userId] is the name
    of a member of [Object.prototype], the "Total Orders" figure of the
    customer's page, which asks the store for the orders with that [userId],
    is the [orderCount] of the customer's row in the customers table, which
    groups all orders itself. *)
Theorem details_agree_with_table page docs customers i c addressesData st :
  Forall (fun d => JS.inherited (c_userId d) = false) customers →
  customers !! i = Some c → c_userId c ≠ "" →
  ∃ rows r cards history,
    Customers.aggregate page (CustomerDetails.as_read_by_table <$> docs) customers
      = Some rows ∧
    rows !! i = Some r ∧ Customers.id r = c_id c ∧
    CustomerDetails.render
      (CustomerDetails.fetchCustomerDetails (Some (Some c))
         (fun _ => Some addressesData)
         (fun u => Some (Gateway.whereEq CustomerDetails.userId u docs)) st).1
    = CustomerDetails.Details (c_userId c) (Customers.orderCount r) cards history.
Proof.
  intros Hdocs Hc Hu.
  destruct (CustomersFacts.aggregate_is_Some page
              (CustomerDetails.as_read_by_table <$> docs) customers Hdocs)
    as [rows Hagg].
  assert (HF := CustomersFacts.aggregate_rows _ _ _ _ Hagg).
  destruct (Forall2_lookup_l _ _ _ _ _ HF Hc) as (r & Hr & Hany).
  destruct (CustomersFacts.any_row_count _ _ _ _
              (proj1 (Forall_lookup _ _) Hdocs _ _ Hc) Hany) as [Hid Hn].
  exists rows, r. do 2 eexists. split; [done|]. split; [done|]. split; [done|].
  unfold CustomerDetails.render; simpl.
  by rewrite Hn, whereEq_orders_of.
Qed.

Lemma details_agree_with_table_witness :
  ∃ rows r cards history,
    Customers.aggregate ∅
      (CustomerDetails.as_read_by_table <$> Samples.u1_history)
      Examples.u1_customers = Some rows ∧
    rows !! 0%nat = Some r ∧ Customers.id r = "c1" ∧
    CustomerDetails.render
      (CustomerDetails.fetchCustomerDetails
         (Some (Some (Examples.customer "c1" "u1")))
         (fun _ => Some [])
         (fun u => Some (Gateway.whereEq CustomerDetails.userId u Samples.u1_history))
         CustomerDetails.initial).1
    = CustomerDetails.Details "u1" (Customers.orderCount r) cards history.
Proof.
  apply (details_agree_with_table ∅ Samples.u1_history Examples.u1_customers
           0%nat (Examples.customer "c1" "u1") [] CustomerDetails.initial).
  - repeat constructor.
  - reflexivity.
  - done.
Defined.

End DetailsFacts.

(** ** The items of an order *)

Module OrderFacts.

Import OrderDetails.

Lemma nan_times x y : is_nan x = true → Prim2SF (x * y) = S754_nan.
Proof.
  intros Hx. rewrite FloatAxioms.mul_spec. unfold Prim2SF at 1. by rewrite Hx.
Qed.

(** X9: an item whose price does not parse shows "NaN" as its total,
    whatever its quantity: the order page multiplies what [parseFloat]
    returns as it is, where the customers table puts 0 in its place. *)
Theorem unparseable_price_shows_NaN product :
  Customers.unparseable (Some (price product)) →
  lineTotal product = "NaN" ∧
  ∀ u, Customers.amount {| Store.o_userId := u;
                           Store.o_totalAmount := Some (price product) |}
       = 0%float.
Proof.
  unfold Customers.unparseable. intros Hnan. split.
  - unfold lineTotal, JS.toFixed2. by rewrite (nan_times _ _ Hnan).
  - intros u. unfold Customers.amount, JS.number_or; simpl. by rewrite Hnan.
Qed.

Lemma unparseable_price_shows_NaN_witness :
  lineTotal Samples.garbled_item = "NaN".
Proof.
  apply unparseable_price_shows_NaN. vm_compute. reflexivity.
Defined.

End OrderFacts.

(** ** The forms *)

Module FormFacts.

Import Store.

(** *** Reads and writes of one document *)

Lemma or_text_self s : Web.or_text (Some s) "" = s.
Proof.
  unfold Web.or_text, Web.present. destruct (JS.truthy s) eqn:Hs; [done|].
  apply bool_decide_eq_false in Hs. by apply dec_stable in Hs as ->.
Qed.

Lemma uuid_like_ordinary k :
  Pages.uuid_like k → k ≠ "" ∧ JS.inherited k = false.
Proof.
  unfold Pages.uuid_like. intros Hk. split; [by intros ->|].
  apply bool_decide_eq_false. unfold JS.Object_prototype_names. intros Hin.
  repeat (apply elem_of_cons in Hin as [->|Hin]; [discriminate|]).
  by apply elem_of_nil in Hin.
Qed.

Lemma find_elem_of {A} (f : A → bool) (l : list A) x :
  List.find f l = Some x → x ∈ l ∧ f x = true.
Proof. intros [? ?]%find_some. by rewrite list_elem_of_In. Qed.

(** After an update the document read back is the old one with the
    fields written. *)
Lemma find_written {A} (key : A → string) (write : A → A) k (l : list A) :
  (∀ x, key (write x) = key x) →
  List.find (fun x => bool_decide (key x = k))
    ((fun x => if bool_decide (key x = k) then write x else x) <$> l)
  = write <$> List.find (fun x => bool_decide (key x = k)) l.
Proof.
  intros Hkey. induction l as [|x l IH]; [done|]. rewrite fmap_cons. simpl.
  destruct (decide (key x = k)) as [Hx|Hx].
  - rewrite (bool_decide_eq_true_2 _ Hx).
    by rewrite (bool_decide_eq_true_2 (key (write x) = k)) by by rewrite Hkey.
  - by rewrite !(bool_decide_eq_false_2 _ Hx).
Qed.

Lemma find_is_Some {A} (key : A → string) k (l : list A) :
  k ∈ key <$> l → is_Some (List.find (fun x => bool_decide (key x = k)) l).
Proof.
  induction l as [|x l IH]; [by intros ?%elem_of_nil|].
  rewrite fmap_cons. intros Hin. simpl. case_bool_decide as Hx; [by eexists|].
  apply IH. apply elem_of_cons in Hin as [?|?]; [by subst|done].
Qed.

(** After a [setDoc] the document read back is the one written. *)
Lemma find_appended {A} (key : A → string) (p : A) (l : list A) :
  List.find (fun x => bool_decide (key x = key p))
    (filter (fun x => key x ≠ key p) l ++ [p]) = Some p.
Proof.
  induction l as [|x l IH]; simpl.
  - by rewrite bool_decide_eq_true_2.
  - rewrite filter_cons. case_decide as Hx; [|done]. simpl.
    by rewrite (bool_decide_eq_false_2 _ Hx).
Qed.

(** Writing a document over itself changes nothing, when ids are unique. *)
Lemma update_same {A} (key : A → string) (p : A) (l : list A) :
  NoDup (key <$> l) → p ∈ l →
  (fun x => if bool_decide (key x = key p) then p else x) <$> l = l.
Proof.
  intros Hnd Hp. rewrite <- (list_fmap_id l) at 2.
  apply list_fmap_ext. intros i x Hx. simpl.
  case_bool_decide as Hk; [|done].
  apply list_elem_of_lookup in Hp as [j Hj].
  assert (i = j) as ->; [|congruence].
  eapply NoDup_lookup; [done| |].
  - by rewrite list_lookup_fmap, Hx.
  - by rewrite list_lookup_fmap, Hj, Hk.
Qed.

(** *** The category form *)

(** X10: opening a category in the form and saving it untouched leaves the
    store as it was.  The form loads the stored name, the update writes the
    same document back, and the handler ends on the "Category updated"
    notice and the way back to the list. *)
Theorem edit_without_change_keeps_store k newCategoryId d st g :
  NoDup (g_id <$> categories d) → k ≠ "" →
  Gateway.getCategory k d = Some g →
  let st' := (CategoryForm.fetchCategory (Some k) (Some (Some g)) st).1 in
  CategoryForm.handleSubmit (Some k) newCategoryId true
    {| CategoryForm.store := d; CategoryForm.ui := st' |}
  = ({| CategoryForm.store := d; CategoryForm.ui := st' |},
     [UpdateDoc "categories" k {| CategoryForm.name := g_name g |};
      Notify "Category updated" "The category has been updated successfully" false;
      Push "/dashboard/categories"]).
Proof.
  intros Hnd Hk [Hg Hid]%find_elem_of. apply bool_decide_eq_true in Hid.
  unfold CategoryForm.fetchCategory, CategoryForm.handleSubmit, Web.present.
  rewrite (proj2 (JSFacts.truthy_spec k) Hk). simpl.
  rewrite or_text_self.
  unfold Gateway.updateCategory, CategoryForm.document; simpl.
  rewrite bool_decide_eq_true_2 by (rewrite <- Hid; apply list_elem_of_fmap; eauto).
  assert (g = {| g_id := k; g_name := g_name g |}) as Hdoc
    by (destruct g; simpl in *; congruence).
  rewrite <- Hdoc.
  rewrite <- Hid, (update_same g_id g _ Hnd Hg). by destruct d.
Qed.

Lemma edit_without_change_keeps_store_witness :
  CategoryForm.handleSubmit (Some "g1") "" true
    {| CategoryForm.store := Samples.shelf;
       CategoryForm.ui :=
         (CategoryForm.fetchCategory (Some "g1")
            (Some (Some (Examples.category "g1" "Books")))
            CategoryForm.initial).1 |}
  = ({| CategoryForm.store := Samples.shelf;
        CategoryForm.ui :=
          (CategoryForm.fetchCategory (Some "g1")
             (Some (Some (Examples.category "g1" "Books")))
             CategoryForm.initial).1 |},
     [UpdateDoc "categories" "g1" {| CategoryForm.name := "Books" |};
      Notify "Category updated" "The category has been updated successfully" false;
      Push "/dashboard/categories"]).
Proof.
  apply (edit_without_change_keeps_store "g1" "" Samples.shelf
           CategoryForm.initial (Examples.category "g1" "Books")).
  - apply (bool_decide_unpack _). vm_compute. exact I.
  - done.
  - reflexivity.
Defined.

(** X11: a category made by the form shows up empty and can be deleted.
    After [handleSubmit] has created a category under a fresh identifier,
    which no product names as its [categoryId], the rows a fetch builds from
    the store hold a row with that identifier, the name typed and the count
    0; and the delete handler of a table in step with the store lets the
    delete of that category through. *)
Theorem created_category_is_empty_and_deletable newCategoryId w :
  Pages.uuid_like newCategoryId →
  Forall (fun p => p_categoryId p ≠ Some newCategoryId)
         (products (CategoryForm.store w)) →
  let w' := (CategoryForm.handleSubmit None newCategoryId true w).1 in
  (∃ r, r ∈ Categories.aggregate (products (CategoryForm.store w'))
                                 (categories (CategoryForm.store w')) ∧
        Categories.id r = newCategoryId ∧
        Categories.name r
          = CategoryForm.name (CategoryForm.formData (CategoryForm.ui w)) ∧
        Categories.productCount r = Categories.Number 0) ∧
  (∀ reply t,
     Pages.categories_in_sync t →
     Categories.store t = CategoryForm.store w' →
     Categories.deleteCategoryId (Categories.ui t) = Some newCategoryId →
     Categories.deletes newCategoryId (Categories.handleDeleteCategory reply t)).
Proof.
  intros [Hne Hord]%uuid_like_ordinary Hfresh w'.
  set (doc := CategoryForm.document newCategoryId
                (CategoryForm.formData (CategoryForm.ui w))).
  set (ps := products (CategoryForm.store w)).
  assert (Hstore : CategoryForm.store w'
                   = Gateway.setCategory doc (CategoryForm.store w)).
  { unfold w', CategoryForm.handleSubmit.
    by destruct (CategoryForm.isEdit (CategoryForm.ui w)). }
  assert (Hin : doc ∈ categories (CategoryForm.store w')).
  { rewrite Hstore. simpl. apply elem_of_app. right. by left. }
  assert (Hps : products (CategoryForm.store w') = ps) by by rewrite Hstore.
  assert (Hcount : Categories.filed_under newCategoryId ps = 0%nat).
  { unfold Categories.filed_under. rewrite filter_none; [done|].
    intros p Hp. by apply (proj1 (Forall_forall _ _) Hfresh). }
  pose proof (CategoriesFacts.toRow_count ps doc Hne Hord) as Hrow.
  simpl in Hrow. rewrite Hcount in Hrow.
  split.
  - exists (Categories.toRow (Categories.countProducts ps) doc).
    split; [|by repeat split].
    rewrite Hps. unfold Categories.aggregate.
    apply list_elem_of_In, in_map. by apply list_elem_of_In.
  - intros reply t Hsync Ht Hdialog.
    destruct (CategoriesFacts.find_row ps _ doc Hin) as (c & Hc & _ & Hn).
    eapply CategoriesFacts.handleDelete_proceeds; [done|done| |].
    + rewrite Hsync, Ht, Hps. exact Hc.
    + by rewrite Hn.
Qed.

Lemma created_category_is_empty_and_deletable_witness :
  ∃ r, r ∈ Categories.aggregate
             (products (CategoryForm.store
                (CategoryForm.handleSubmit None Samples.fresh_id true
                   Samples.new_category).1))
             (categories (CategoryForm.store
                (CategoryForm.handleSubmit None Samples.fresh_id true
                   Samples.new_category).1)) ∧
       Categories.id r = Samples.fresh_id ∧
       Categories.name r = "Pottery" ∧
       Categories.productCount r = Categories.Number 0.
Proof.
  apply (created_category_is_empty_and_deletable Samples.fresh_id
           Samples.new_category).
  - reflexivity.
  - repeat constructor; done.
Defined.

(** *** The product form *)

Ltac no_such_call H :=
  repeat (apply elem_of_cons in H as [H|H]; [discriminate|]);
  by apply elem_of_nil in H.

(** The handler goes back to the list only after the store took the write:
    an update of the document named by the prop, in edit mode, or else the
    creation of a document under the new identifier. *)
Lemma handleSubmit_saved productId now newProductId read reply w :
  let out := ProductForm.handleSubmit productId now newProductId read reply w in
  Push "/dashboard/products" ∈ out.2 →
  ∃ i k,
    ProductForm.imageBase64 read (ProductForm.ui w) = Some i ∧
    let data := ProductForm.productData now i
                  (ProductForm.formData (ProductForm.ui w)) in
    (Web.present productId = Some k ∧
     Gateway.updateProduct k (ProductForm.write data) (ProductForm.store w)
       = Some (ProductForm.store out.1) ∧
     out.2 = [UpdateDoc "products" k data;
              Notify "Product updated"
                "The product has been updated successfully" false;
              Push "/dashboard/products"]) ∨
    (k = newProductId ∧
     ProductForm.store out.1
       = Gateway.setProduct (ProductForm.document k data) (ProductForm.store w) ∧
     out.2 = [SetDoc "products" k data;
              Notify "Product created"
                "The product has been created successfully" false;
              Push "/dashboard/products"]).
Proof.
  unfold ProductForm.handleSubmit.
  destruct (ProductForm.imageBase64 read (ProductForm.ui w)) as [i|];
    [|intros H; no_such_call H].
  destruct (if ProductForm.isEdit (ProductForm.ui w)
            then Web.present productId else None) as [k|] eqn:Hmode.
  - destruct reply; [|intros H; no_such_call H].
    destruct (Gateway.updateProduct _ _ _) as [d|] eqn:Hup;
      [|intros H; no_such_call H].
    intros _. exists i, k. split; [done|]. left.
    destruct (ProductForm.isEdit (ProductForm.ui w)); [|done].
    by rewrite Hmode.
  - destruct reply; [|intros H; no_such_call H].
    intros _. exists i, newProductId. split; [done|]. by right.
Qed.

(** What the form loads from a document that holds the data [f]. *)
Lemma load_carries now f p :
  Pages.carries f p →
  ProductForm.load now p
  = ProductForm.Form (ProductForm.name f) (ProductForm.description f)
      (ProductForm.image f) (ProductForm.price f) (ProductForm.stock f)
      (Web.or_text (Some (ProductForm.rating f)) "0")
      (Web.or_text (Some (ProductForm.date f)) now)
      (ProductForm.categoryId f) (ProductForm.tagIds f).
Proof.
  intros (Hn & Hd & Hi & Hp & Hs & Hr & Hdate & Hc & Ht).
  unfold ProductForm.load. rewrite Hn, Hd, Hi, Hp, Hs, Hr, Hdate, Hc, Ht.
  by rewrite !or_text_self.
Qed.

(** X12: what the product form saves is what it reads back.  Whenever
    [handleSubmit] goes back to the list, it has sent one write, of the
    form's data with the image and the date filled in; the store then holds
    under the written identifier a document with exactly these nine fields
    (an update leaves the document's subcategory as it was); and the form
    opened on the stored document loads the same name, description, image,
    price, stock, category and tags, with "0" for an empty rating and today
    for an empty date. *)
Theorem saved_product_reads_back productId now newProductId read reply w now' :
  let out := ProductForm.handleSubmit productId now newProductId read reply w in
  Push "/dashboard/products" ∈ out.2 →
  ∃ i k p,
    ProductForm.imageBase64 read (ProductForm.ui w) = Some i ∧
    let data := ProductForm.productData now i
                  (ProductForm.formData (ProductForm.ui w)) in
    (SetDoc "products" k data ∈ out.2 ∨ UpdateDoc "products" k data ∈ out.2) ∧
    Gateway.getProduct k (ProductForm.store out.1) = Some p ∧
    p_id p = k ∧ Pages.carries data p ∧
    (UpdateDoc "products" k data ∈ out.2 →
     ∃ old, Gateway.getProduct k (ProductForm.store w) = Some old ∧
            p_subcategoryId p = p_subcategoryId old) ∧
    ProductForm.load now' p
    = ProductForm.Form (ProductForm.name data) (ProductForm.description data)
        (ProductForm.image data) (ProductForm.price data) (ProductForm.stock data)
        (Web.or_text (Some (ProductForm.rating data)) "0")
        (Web.or_text (Some (ProductForm.date data)) now')
        (ProductForm.categoryId data) (ProductForm.tagIds data).
Proof.
  intros out Hpush.
  destruct (handleSubmit_saved _ _ _ _ _ _ Hpush)
    as (i & k & Hi & [(_ & Hup & Hcalls)|(Hk & Hset & Hcalls)]);
    fold out in Hcalls.
  - fold out in Hup. unfold Gateway.updateProduct in Hup.
    case_bool_decide as Hin; [|done]. injection Hup as Hstore.
    destruct (find_is_Some p_id k _ Hin) as [old Hold].
    destruct (find_elem_of _ _ _ Hold) as [_ Hid%bool_decide_eq_true].
    exists i, k, (ProductForm.write
                    (ProductForm.productData now i
                       (ProductForm.formData (ProductForm.ui w))) old).
    split; [done|]. rewrite Hcalls. split; [right; left|]. split.
    { unfold Gateway.getProduct. rewrite <- Hstore. simpl.
      rewrite (find_written p_id) by done. by rewrite Hold. }
    split; [done|]. split; [by repeat split|]. split.
    + intros _. by exists old.
    + apply load_carries. by repeat split.
  - exists i, k, (ProductForm.document k
                    (ProductForm.productData now i
                       (ProductForm.formData (ProductForm.ui w)))).
    split; [done|]. rewrite Hcalls. split; [left; left|]. split.
    { fold out in Hset. rewrite Hset.
      apply (find_appended p_id (ProductForm.document k _)). }
    split; [done|]. split; [by repeat split|]. split.
    + intros H. no_such_call H.
    + apply load_carries. by repeat split.
Qed.

Lemma saved_product_reads_back_witness :
  ∃ i k p,
    ProductForm.imageBase64 true (ProductForm.ui (Samples.lamp_edit)) = Some i ∧
    let data := ProductForm.productData Samples.today i
                  (ProductForm.formData (ProductForm.ui Samples.lamp_edit)) in
    (SetDoc "products" k data
       ∈ (ProductForm.handleSubmit (Some "p2") Samples.today Samples.fresh_id
            true true Samples.lamp_edit).2 ∨
     UpdateDoc "products" k data
       ∈ (ProductForm.handleSubmit (Some "p2") Samples.today Samples.fresh_id
            true true Samples.lamp_edit).2) ∧
    Gateway.getProduct k
      (ProductForm.store
         (ProductForm.handleSubmit (Some "p2") Samples.today Samples.fresh_id
            true true Samples.lamp_edit).1) = Some p ∧
    p_id p = k ∧ Pages.carries data p ∧
    (UpdateDoc "products" k data
       ∈ (ProductForm.handleSubmit (Some "p2") Samples.today Samples.fresh_id
            true true Samples.lamp_edit).2 →
     ∃ old, Gateway.getProduct k (ProductForm.store Samples.lamp_edit) = Some old ∧
            p_subcategoryId p = p_subcategoryId old) ∧
    ProductForm.load Samples.today p
    = ProductForm.Form (ProductForm.name data) (ProductForm.description data)
        (ProductForm.image data) (ProductForm.price data) (ProductForm.stock data)
        (Web.or_text (Some (ProductForm.rating data)) "0")
        (Web.or_text (Some (ProductForm.date data)) Samples.today)
        (ProductForm.categoryId data) (ProductForm.tagIds data).
Proof.
  apply (saved_product_reads_back (Some "p2") Samples.today Samples.fresh_id
           true true Samples.lamp_edit Samples.today).
  vm_compute. do 2 right. left.
Defined.

Lemma described_rows ps gs :
  Forall (fun p => is_Some (p_name p) ∧ is_Some (p_description p)) ps →
  Forall (fun r => is_Some (Products.name r) ∧ is_Some (Products.description r))
         (Products.aggregate ps gs).
Proof.
  unfold Products.aggregate. induction 1; constructor; done.
Qed.

(** X13: the product form keeps the products table searchable.  When
    every product of the store has a name and a description, it still has
    after [handleSubmit], whatever the form held and whatever the store
    answered: the form always sends both, the empty text if nothing was
    typed.  The search of the rows built from the store then returns for
    every query and all categories. *)
Theorem form_keeps_products_searchable productId now newProductId read reply w :
  Forall (fun p => is_Some (p_name p) ∧ is_Some (p_description p))
         (products (ProductForm.store w)) →
  let w' := (ProductForm.handleSubmit productId now newProductId read reply w).1 in
  Forall (fun p => is_Some (p_name p) ∧ is_Some (p_description p))
         (products (ProductForm.store w')) ∧
  (∀ gs q, is_Some (Products.search q
                      (Products.aggregate (products (ProductForm.store w')) gs))).
Proof.
  intros Hall w'.
  assert (Forall (fun p => is_Some (p_name p) ∧ is_Some (p_description p))
                 (products (ProductForm.store w'))) as Hall'.
  { unfold w', ProductForm.handleSubmit.
    destruct (ProductForm.imageBase64 _ _) as [i|]; [|done].
    destruct (if ProductForm.isEdit _ then _ else _) as [k|].
    - destruct reply; [|done]. unfold Gateway.updateProduct.
      case_bool_decide; [|done]. simpl.
      apply Forall_fmap. eapply Forall_impl; [exact Hall|].
      intros p Hp. simpl. case_bool_decide; [|done]. by split; eexists.
    - destruct reply; [|done]. simpl. apply Forall_app. split.
      + apply Forall_forall. intros p [_ Hp]%list_elem_of_filter.
        by apply (proj1 (Forall_forall _ _) Hall).
      + repeat constructor; by eexists. }
  split; [done|]. intros gs q. unfold Products.search.
  case_match; [|by eexists].
  apply ProductsFacts.keep_is_Some. by apply described_rows.
Qed.

Lemma form_keeps_products_searchable_witness :
  is_Some (Products.search "lamp"
    (Products.aggregate
       (products (ProductForm.store
          (ProductForm.handleSubmit None Samples.today Samples.fresh_id true true
             Samples.described_product).1))
       Examples.shelf_categories)).
Proof.
  apply (form_keeps_products_searchable None Samples.today Samples.fresh_id
           true true Samples.described_product).
  repeat constructor; by eexists.
Defined.

(** The data of every write the handler sends is the form's, with the
    image and the date filled in. *)
Lemma handleSubmit_sent productId now newProductId read reply w k data :
  let out := ProductForm.handleSubmit productId now newProductId read reply w in
  SetDoc "products" k data ∈ out.2 ∨ UpdateDoc "products" k data ∈ out.2 →
  ∃ i, data = ProductForm.productData now i
                (ProductForm.formData (ProductForm.ui w)).
Proof.
  unfold ProductForm.handleSubmit.
  destruct (ProductForm.imageBase64 read (ProductForm.ui w)) as [i|];
    [|intros [H|H]; no_such_call H].
  destruct (if ProductForm.isEdit (ProductForm.ui w)
            then Web.present productId else None) as [k'|];
    [destruct reply; [destruct (Gateway.updateProduct _ _ _)|]|destruct reply];
    simpl; intros [H|H];
    (apply elem_of_cons in H as [H|H]; [|no_such_call H]);
    try discriminate; injection H as _ ->; by exists i.
Qed.

(** X14: the item "None" of the category select is not "no category".
    The select always offers the value "none".  A product sent after it was
    chosen carries the [categoryId] "none"; unless a category has that very
    id, its row in the products table has no [categoryName]: the cell reads
    "Uncategorized", but a search for "uncategorized" does not find the row
    by its category.  A product sent with the empty [categoryId] of a form in
    which no category was chosen gets the name "Uncategorized" itself. *)
Theorem none_item_is_not_uncategorized productId now newProductId read reply
    w gs k data :
  "none" ∉ g_id <$> gs →
  let st := ProductForm.handleSelectChange ProductForm.CategoryId "none"
              (ProductForm.ui w) in
  let out := ProductForm.handleSubmit productId now newProductId read reply
               {| ProductForm.store := ProductForm.store w;
                  ProductForm.ui := st |} in
  SetDoc "products" k data ∈ out.2 ∨ UpdateDoc "products" k data ∈ out.2 →
  let row := Products.toRow (Products.categoriesMap gs)
               (ProductForm.document k data) in
  "none" ∈ ProductForm.selectItems (ProductForm.ui w) ∧
  Products.categoryId row = Some "none" ∧
  Products.categoryName row = None ∧
  Products.categoryCell row = Products.Muted "Uncategorized" ∧
  Products.mentions "uncategorized" (Products.categoryName row) = false ∧
  (∀ k' data', ProductForm.categoryId data' = "" →
     Products.categoryName
       (Products.toRow (Products.categoriesMap gs) (ProductForm.document k' data'))
     = Some "Uncategorized").
Proof.
  intros Hno st out Hsent row.
  destruct (handleSubmit_sent _ _ _ _ _ _ _ _ Hsent) as [i ->].
  split; [left|]. split; [done|].
  assert (Products.categoryName row = None) as Hname.
  { unfold row, Products.toRow, Products.resolve; simpl.
    by apply ProductsFacts.categoriesMap_other. }
  split; [done|]. unfold Products.categoryCell. rewrite Hname.
  split; [done|]. split; [done|].
  intros k' data' Hblank. unfold Products.toRow, Products.resolve; simpl.
  by rewrite Hblank.
Qed.

Lemma none_item_is_not_uncategorized_witness :
  Products.categoryName
    (Products.toRow (Products.categoriesMap Examples.shelf_categories)
       (ProductForm.document Samples.fresh_id
          (ProductForm.productData Samples.today ""
             (ProductForm.formData (Samples.lamp_form "none")))))
  = None.
Proof.
  refine (proj1 (proj2 (proj2
    (none_item_is_not_uncategorized None Samples.today Samples.fresh_id
       true true (Samples.new_product "") Examples.shelf_categories
       Samples.fresh_id _ _ _)))).
  - by intros ?%list_elem_of_singleton.
  - left. vm_compute. left.
Defined.

Lemma filter_all {A} (P : A → Prop) `{!∀ x, Decision (P x)} (l : list A) :
  (∀ x, x ∈ l → P x) → filter P l = l.
Proof.
  induction l as [|x l IH]; intros Hall; [done|].
  rewrite filter_cons_True by (apply Hall; left).
  f_equal. apply IH. intros y Hy. apply Hall. by right.
Qed.

(** X15: a product made by the form counts for its category and protects
    it.  After [handleSubmit] has created a product, under an identifier
    new to the store, with a category chosen whose id is not the name of a
    member of [Object.prototype], one more product is filed under that
    category; and the delete handler of a categories table whose rows were
    built from the new products refuses to delete the category. *)
Theorem created_product_blocks_delete now newProductId read w g :
  let out := ProductForm.handleSubmit None now newProductId read true w in
  Push "/dashboard/products" ∈ out.2 →
  ProductForm.categoryId (ProductForm.formData (ProductForm.ui w)) = g_id g →
  g_id g ≠ "" → JS.inherited (g_id g) = false →
  newProductId ∉ p_id <$> products (ProductForm.store w) →
  Categories.filed_under (g_id g) (products (ProductForm.store out.1))
  = S (Categories.filed_under (g_id g) (products (ProductForm.store w))) ∧
  (∀ reply t gs,
     g ∈ gs →
     Categories.categories (Categories.ui t)
       = Categories.aggregate (products (ProductForm.store out.1)) gs →
     Categories.deleteCategoryId (Categories.ui t) = Some (g_id g) →
     ¬ Categories.deletes (g_id g) (Categories.handleDeleteCategory reply t)).
Proof.
  intros out Hpush Hcat Hne Hord Hfresh.
  destruct (handleSubmit_saved _ _ _ _ _ _ Hpush)
    as (i & k & _ & [(Hk & _)|(Hk & Hset & _)]); [done|].
  fold out in Hset.
  assert (Categories.filed_under (g_id g) (products (ProductForm.store out.1))
          = S (Categories.filed_under (g_id g) (products (ProductForm.store w))))
    as Hcount.
  { rewrite Hset, Hk. unfold Categories.filed_under. simpl.
    rewrite (filter_all (fun p' => p_id p' ≠ newProductId)); last first.
    { intros p Hp <-. apply Hfresh. apply list_elem_of_fmap. eauto. }
    rewrite filter_app, length_app, filter_cons_True by (simpl; by rewrite Hcat).
    simpl. lia. }
  split; [done|]. intros reply t gs Hg Hrows Hdialog.
  destruct (CategoriesFacts.find_row (products (ProductForm.store out.1)) gs g Hg)
    as (c & Hc & _ & Hn).
  pose proof (CategoriesFacts.toRow_count (products (ProductForm.store out.1))
                g Hne Hord) as Hrow.
  simpl in Hrow. rewrite <- Hn, Hcount in Hrow.
  unfold Categories.deletes.
  erewrite (CategoriesFacts.handleDelete_blocked reply t (g_id g) c);
    [|done|done|by rewrite Hrows|by symmetry].
  simpl. intros H. no_such_call H.
Qed.

Lemma created_product_blocks_delete_witness :
  Categories.filed_under "g1"
    (products (ProductForm.store
       (ProductForm.handleSubmit None Samples.today Samples.fresh_id true true
          (Samples.new_product "g1")).1))
  = S (Categories.filed_under "g1" (products Samples.shelf)).
Proof.
  apply (created_product_blocks_delete Samples.today Samples.fresh_id true
           (Samples.new_product "g1") (Examples.category "g1" "Books")).
  - vm_compute. do 2 right. left.
  - reflexivity.
  - done.
  - reflexivity.
  - vm_compute. intros H. no_such_call H.
Defined.

(** *** What a save leaves alone *)

Lemma find_updated_other {A} (key : A → string) (write : A → A) (l : list A) k0 k :
  (∀ x, key (write x) = key x) →
  k ≠ k0 →
  List.find (fun x => bool_decide (key x = k))
    ((fun x => if bool_decide (key x = k0) then write x else x) <$> l)
  = List.find (fun x => bool_decide (key x = k)) l.
Proof.
  intros Hkey Hk. induction l as [|x l IH]; [done|]. rewrite fmap_cons. simpl.
  destruct (decide (key x = k0)) as [Hx|Hx].
  - rewrite (bool_decide_eq_true_2 _ Hx). rewrite Hkey.
    rewrite (bool_decide_eq_false_2 (key x = k)) by congruence. done.
  - rewrite (bool_decide_eq_false_2 _ Hx). by rewrite IH.
Qed.

Lemma find_appended_other {A} (key : A → string) (p : A) (l : list A) k :
  k ≠ key p →
  List.find (fun x => bool_decide (key x = k))
    (filter (fun x => key x ≠ key p) l ++ [p])
  = List.find (fun x => bool_decide (key x = k)) l.
Proof.
  intros Hk. induction l as [|x l IH]; simpl.
  - by rewrite bool_decide_eq_false_2.
  - rewrite filter_cons. case_decide as Hx; simpl.
    + by rewrite IH.
    + rewrite (bool_decide_eq_false_2 (key x = k)) by congruence. done.
Qed.

(** X20: a save touches one document, and an error notice means that
    nothing was saved.  [handleSubmit] of the product form leaves orders,
    customers and categories alone; every product document other than the
    one it writes (the one named by the prop in edit mode, the new one
    otherwise) reads back as before; and when it raises the "Failed to save
    product" notice the store is as it was. *)
Theorem save_touches_one_document productId now newProductId read reply w :
  let out := ProductForm.handleSubmit productId now newProductId read reply w in
  let k := default newProductId
             (if ProductForm.isEdit (ProductForm.ui w)
              then Web.present productId else None) in
  orders (ProductForm.store out.1) = orders (ProductForm.store w) ∧
  customers (ProductForm.store out.1) = customers (ProductForm.store w) ∧
  categories (ProductForm.store out.1) = categories (ProductForm.store w) ∧
  (∀ k', k' ≠ k →
     Gateway.getProduct k' (ProductForm.store out.1)
     = Gateway.getProduct k' (ProductForm.store w)) ∧
  (Notify "Error" "Failed to save product" true ∈ out.2 →
   ProductForm.store out.1 = ProductForm.store w).
Proof.
  intros out k. unfold out, k, ProductForm.handleSubmit.
  destruct (ProductForm.imageBase64 read (ProductForm.ui w)) as [i|]; [|done].
  destruct (if ProductForm.isEdit (ProductForm.ui w)
            then Web.present productId else None) as [k0|]; simpl.
  - destruct reply; [|done]. unfold Gateway.updateProduct.
    case_bool_decide; [|done]. simpl. repeat split.
    + intros k' Hk'. unfold Gateway.getProduct. simpl.
      by apply (find_updated_other p_id (ProductForm.write _)).
    + intros H'. no_such_call H'.
  - destruct reply; [|done]. simpl. repeat split.
    + intros k' Hk'. unfold Gateway.getProduct. simpl.
      by apply (find_appended_other p_id (ProductForm.document newProductId _)).
    + intros H'. no_such_call H'.
Qed.

End FormFacts.

(** ** The image of a product *)

Module ImageFacts.

(** Base64 makes four characters of every three bytes begun. *)
Lemma base64_length_step bytes :
  String.length (Web.base64 bytes) = (4 * ((length bytes + 2) / 3))%nat ∧
  (∀ a, String.length (Web.base64 (a :: bytes))
        = (4 * ((length bytes + 3) / 3))%nat) ∧
  (∀ a b, String.length (Web.base64 (a :: b :: bytes))
          = (4 * ((length bytes + 4) / 3))%nat).
Proof.
  induction bytes as [|c bytes (IH0 & IH1 & IH2)]; [done|].
  split; [|split].
  - rewrite IH1. simpl length. do 2 f_equal. lia.
  - intros a. rewrite IH2. simpl length. do 2 f_equal. lia.
  - intros a b.
    change (String.length (Web.base64 (a :: b :: c :: bytes)))
      with (S (S (S (S (String.length (Web.base64 bytes)))))).
    rewrite IH0. simpl length.
    replace (S (length bytes) + 4)%nat with (length bytes + 2 + 1 * 3)%nat by lia.
    rewrite Nat.div_add by lia. lia.
Qed.

Lemma base64_length bytes :
  String.length (Web.base64 bytes) = (4 * ((length bytes + 2) / 3))%nat.
Proof. apply base64_length_step. Qed.

(** X16: which images the product form keeps, and how long their text is.
    [handleImageChange] keeps a file, without notice, exactly when it has at
    most 819200 bytes, and otherwise leaves the form as it was.  For a kept
    file [handleSubmit] sends the file's data URL as the image, whose base64
    part has at most 1092268 characters; the data URL of every file of more
    than 786432 bytes is longer than 1048576 characters. *)
Theorem kept_image_text_size file read st :
  let out := ProductForm.handleImageChange (Some file) read st in
  (out.2 = [] ↔ Web.size file ≤ 800 * 1024) ∧
  (Web.size file ≤ 800 * 1024 →
   ProductForm.imageFile out.1 = Some file ∧
   ProductForm.imageBase64 true out.1 = Some (Web.readAsDataURL file) ∧
   Z.of_nat (String.length (Web.base64 (Web.content file))) ≤ 1092268) ∧
  (800 * 1024 < Web.size file → out.1 = st) ∧
  (768 * 1024 < Web.size file →
   1024 * 1024 < Z.of_nat (String.length (Web.readAsDataURL file))).
Proof.
  intros out. unfold out, ProductForm.handleImageChange.
  assert (Hlen := base64_length (Web.content file)).
  assert (Hdiv := Nat.div_mod_eq (length (Web.content file) + 2) 3).
  assert (Hmod := Nat.mod_upper_bound (length (Web.content file) + 2) 3).
  unfold Web.size in *.
  assert (Hurl : String.length (Web.readAsDataURL file)
                 = (13 + String.length (Web.mediaType file)
                    + 4 * ((length (Web.content file) + 2) / 3))%nat).
  { unfold Web.readAsDataURL. rewrite !JSFacts.length_append, Hlen. simpl. lia. }
  destruct (decide (Z.of_nat (length (Web.content file)) ≤ 800 * 1024))
    as [Hsmall|Hbig].
  - rewrite (proj2 (Z.ltb_ge _ _) Hsmall). cbn [fst snd].
    split; [split; intros; (done || lia)|]. split; [|split; [lia|]].
    + intros _. split; [done|]. split; [done|]. rewrite Hlen. lia.
    + intros Hover. rewrite Hurl. lia.
  - rewrite (proj2 (Z.ltb_lt _ _)) by lia. cbn [fst snd].
    split; [split; intros; (done || lia)|]. split; [lia|]. split; [done|].
    intros _. rewrite Hurl. lia.
Qed.

End ImageFacts.

(** ** The product form with images in S3 *)

Module UploadFacts.

Import ProductFormS3.

(** No handler but [handleSubmit] writes [imageUploading]. *)
Lemma handle_keeps_uploading st e :
  imageUploading (handle st e) = imageUploading st.
Proof.
  destruct e as [[[gs ts]|]|productId now snap subSnap|k v|v snap|v|vs|file read];
    simpl; try done.
  - unfold loadProduct, fetchSubcategories.
    destruct (Web.present productId); [|done].
    destruct snap as [[doc|]|]; [|done..].
    destruct (Web.present (Store.p_categoryId doc)) as [c|];
      repeat case_match; by simplify_eq.
  - unfold handleCategoryChange, fetchSubcategories.
    repeat case_match; by simplify_eq.
  - by destruct file.
Qed.

Lemma handle_all_keep_uploading events : ∀ st,
  imageUploading (fold_left handle events st) = imageUploading st.
Proof.
  induction events as [|e events IH]; intros st; [done|].
  simpl. by rewrite IH, handle_keeps_uploading.
Qed.

(** X21: a failed upload leaves the form stuck.  When [handleSubmit] of
    the form with images in S3 has a new image to upload and the upload
    rejects, nothing is written, the "Failed to save product" notice is
    raised, and [imageUploading] stays set: the submit button and the image
    button are disabled, and remain so whatever the inputs, the selects, the
    tag picker, the file input and the mount effects do afterwards.  The form
    that stores the image as a data URL resets the flag when the conversion
    fails. *)
Theorem failed_upload_blocks_the_form productId newProductId reply w file events :
  imageFile (ui w) = Some file →
  let out := handleSubmit productId newProductId None reply w in
  store out.1 = store w ∧
  out.2 = [Notify "Error" "Failed to save product" true] ∧
  loading (ui out.1) = false ∧
  (let st := fold_left handle events (ui out.1) in
   imageUploading st = true ∧ submitDisabled st = true ∧
   imageButtonDisabled st = true) ∧
  (∀ now w', ProductForm.imageFile (ProductForm.ui w') = Some file →
     ProductForm.imageUploading
       (ProductForm.ui
          (ProductForm.handleSubmit productId now newProductId false reply w').1)
     = false).
Proof.
  intros Hfile out. unfold out, handleSubmit. rewrite Hfile. simpl.
  split; [done|]. split; [done|]. split; [done|]. split.
  - unfold submitDisabled, imageButtonDisabled.
    rewrite handle_all_keep_uploading. simpl. by rewrite orb_true_r.
  - intros now w' Hfile'.
    unfold ProductForm.handleSubmit, ProductForm.imageBase64.
    by rewrite Hfile'.
Qed.

Lemma failed_upload_blocks_the_form_witness :
  submitDisabled
    (fold_left handle
       [Input Name "Clay lamp"; CategoryChosen "g1" (Some []);
        FilePicked (Some Samples.photo) true]
       (ui (handleSubmit None Samples.fresh_id None true Samples.lamp_upload).1))
  = true.
Proof.
  refine (proj1 (proj2 (proj1 (proj2 (proj2 (proj2
    (failed_upload_blocks_the_form None Samples.fresh_id true
       Samples.lamp_upload Samples.photo
       [Input Name "Clay lamp"; CategoryChosen "g1" (Some []);
        FilePicked (Some Samples.photo) true] _))))))).
  reflexivity.
Defined.

End UploadFacts.
